(** * petl_django: a shallow embedding of [petl_django/django_view.py]

    The module bridges petl tables and Django models: [fromdjango] reads a
    queryset as a table, [todjango] writes the rows of a table back as created
    or updated model instances, [_chunked_bulk_create] inserts in batches.

    Python values, dicts, exceptions, classes and the part of Django's ORM the
    module calls (model metadata with typed columns and relations, instances,
    querysets, [save], [bulk_create]) are modelled first; the functions of
    [django_view.py] follow, in the order of the source, under the source's
    names. *)

From Stdlib Require Import ZArith List String Ascii Bool Lia Arith DecimalString.
Import ListNotations.
Open Scope string_scope.
Open Scope Z_scope.

(** ** Python values and dicts *)

(** What a table cell or a model attribute holds: a scalar, or an instance
    of a model (what a relation attribute holds), given by the label of its
    model and its primary key. *)
Inductive value : Type :=
| VNone
| VInt (n : Z)
| VStr (s : string)
| VObject (cls : string) (key : Z).

(** Python's [==] on these values: scalars by value, model instances by
    model and primary key; a model instance equals no scalar. *)
Definition value_eqb (a b : value) : bool :=
  match a, b with
  | VNone, VNone => true
  | VInt x, VInt y => Z.eqb x y
  | VStr x, VStr y => String.eqb x y
  | VObject c x, VObject d y => String.eqb c d && Z.eqb x y
  | _, _ => false
  end.

(** A Python dict: insertion-ordered, one binding per key. Assigning to a
    key that is present replaces the value in place; a new key is appended. *)
Section Dict.
Context {K V : Type}.
Variable eqb : K -> K -> bool.

Fixpoint assoc_get (d : list (K * V)) (k : K) : option V :=
  match d with
  | [] => None
  | (k', v) :: d' => if eqb k' k then Some v else assoc_get d' k
  end.

Fixpoint assoc_set (d : list (K * V)) (k : K) (v : V) : list (K * V) :=
  match d with
  | [] => [(k, v)]
  | (k', v') :: d' =>
      if eqb k' k then (k', v) :: d' else (k', v') :: assoc_set d' k v
  end.

(** [dict(pairs)]: later pairs overwrite earlier ones. *)
Definition assoc_of_pairs (l : list (K * V)) : list (K * V) :=
  fold_left (fun d kv => assoc_set d (fst kv) (snd kv)) l [].
End Dict.

Definition pydict (V : Type) : Type := list (string * V).

Definition dict_get {V} (d : pydict V) (k : string) : option V :=
  assoc_get String.eqb d k.
Definition dict_set {V} (d : pydict V) (k : string) (v : V) : pydict V :=
  assoc_set String.eqb d k v.
Definition dict_of_pairs {V} (l : list (string * V)) : pydict V :=
  assoc_of_pairs String.eqb l.
Definition dict_keys {V} (d : pydict V) : list string := map fst d.

(** [d.get(k, None)] on a dict of values. *)
Definition dict_get_or_none (d : pydict value) (k : string) : value :=
  match dict_get d k with Some v => v | None => VNone end.

Definition mem_string (k : string) (l : list string) : bool :=
  existsb (String.eqb k) l.

(** ** Django model metadata *)

(** The kinds of field: an automatic integer key, an integer column, a text
    column, and a forward relation to the model labelled [to] (a foreign
    key, whose column holds the integer key of the related record and which
    may be [null]). *)
Inductive field_type : Type :=
| AutoField
| IntegerField
| CharField
| ForeignKey (to : string) (null : bool).

(** A model field: [f.name], [f.column], the default the constructor uses
    when no keyword supplies the field, and its kind. *)
Record field : Type := {
  name : string;
  column : string;
  default : value;
  internal_type : field_type
}.

Definition is_relation (f : field) : bool :=
  match internal_type f with
  | ForeignKey _ _ => true
  | _ => false
  end.

(** [f.attname]: the attribute of the instance that holds the field's
    value. For a relation it is the name followed by [_id]; the name itself
    is then the descriptor of the related instance. *)
Definition attname (f : field) : string :=
  if is_relation f then name f ++ "_id" else name f.

(** [Model._meta]: the declared fields in declaration order, the primary-key
    field, the label and the model name. [properties] are the read-only
    properties the model class declares ([@property] without a setter), each
    with its getter over the instance's [__dict__]: they are the attributes
    on which [setattr] raises [AttributeError]. *)
Record options : Type := {
  fields : list field;
  pk : field;
  label : string;
  model_name : string;
  properties : pydict (pydict value -> value)
}.

Definition field_names (o : options) : list string := map name (fields o).

Definition attnames (o : options) : list string := map attname (fields o).

(** The names of the fields that are not relations. *)
Definition plain_field_names (o : options) : list string :=
  map name (filter (fun f => negb (is_relation f)) (fields o)).

Fixpoint nodup_strings (l : list string) : bool :=
  match l with
  | [] => true
  | x :: l' => negb (mem_string x l') && nodup_strings l'
  end.

(** What Django's model checks guarantee of a model class: field names are
    distinct, the primary key is one of the fields, no field is called [pk]
    (the name is reserved for the alias) and no field shares its name with a
    property of the class. *)
Definition wf_options (o : options) : bool :=
  nodup_strings (field_names o)
  && mem_string (name (pk o)) (field_names o)
  && negb (mem_string "pk" (field_names o))
  && forallb (fun n => negb (mem_string n (dict_keys (properties o))))
             (field_names o).

Definition field_type_eqb (a b : field_type) : bool :=
  match a, b with
  | AutoField, AutoField => true
  | IntegerField, IntegerField => true
  | CharField, CharField => true
  | ForeignKey t n, ForeignKey t' n' => String.eqb t t' && Bool.eqb n n'
  | _, _ => false
  end.

Definition field_eqb (f g : field) : bool :=
  String.eqb (name f) (name g) && String.eqb (column f) (column g)
  && value_eqb (default f) (default g)
  && field_type_eqb (internal_type f) (internal_type g).

(** What the model checks guarantee of the attributes the fields store
    under: no two fields share one, none is [pk], the name of a property or
    the name of a relation, and the primary key is one of the declared
    fields. *)
Definition wf_attributes (o : options) : bool :=
  nodup_strings (attnames o)
  && negb (mem_string "pk" (attnames o))
  && forallb (fun a => negb (mem_string a (dict_keys (properties o)))) (attnames o)
  && forallb (fun f => negb (is_relation f && mem_string (name f) (attnames o)))
             (fields o)
  && existsb (field_eqb (pk o)) (fields o).

(** ** Exceptions *)

Inductive exn_kind : Type :=
| AssertionError
| AttributeError
| TypeError
| ValueError
| KeyError
| StopIteration
| FieldError
| IntegrityError
| DatabaseError
| RelatedObjectDoesNotExist
| UnableToApplyValueMapError.

(** A model instance: its class's [_meta], Django's [_state.adding] flag
    (true until the instance has been saved or when it was not loaded from
    storage) and its [__dict__]. *)
Record instance : Type := {
  i_meta : options;
  adding : bool;
  i_dict : pydict value
}.

(** A value map: the dict built from a header row zipped with a data row.
    Its keys are header cells. *)
Definition value_map_t : Type := list (value * value).

(** An exception object: its class, its message and the two attributes
    this module attaches before re-raising. *)
Record exn : Type := {
  kind : exn_kind;
  msg : string;
  petl_data : option value_map_t;
  petl_chunk_data : option (list instance)
}.

Definition mk_exn (k : exn_kind) (m : string) : exn :=
  {| kind := k; msg := m; petl_data := None; petl_chunk_data := None |}.

(** [e.petl_data = value_map] *)
Definition set_petl_data (e : exn) (vm : value_map_t) : exn :=
  {| kind := kind e; msg := msg e;
     petl_data := Some vm; petl_chunk_data := petl_chunk_data e |}.

(** [e.petl_chunk_data = chunk_data] *)
Definition set_petl_chunk_data (e : exn) (chunk : list instance) : exn :=
  {| kind := kind e; msg := msg e;
     petl_data := petl_data e; petl_chunk_data := Some chunk |}.

(** The outcome of a call: a value, or a raised exception. *)
Inductive result (A : Type) : Type :=
| Ok (a : A)
| Raise (e : exn).
Arguments Ok {A} a.
Arguments Raise {A} e.

Definition bind {A B} (r : result A) (f : A -> result B) : result B :=
  match r with
  | Ok a => f a
  | Raise e => Raise e
  end.

Notation "x <- r ;; k" := (bind r (fun x => k))
  (at level 61, r at next level, right associativity).

(** ** Python classes and the arguments of [fromdjango] *)

(** A class object: its qualified name, its direct bases and, for a Django
    model class, its [_meta]. Classes are identified by qualified name. *)
#[warnings="-register-all"]
Inductive pyclass : Type :=
| PyClass (qualname : string) (bases : list pyclass) (meta : option options).

Definition class_name (c : pyclass) : string :=
  match c with PyClass n _ _ => n end.
Definition class_meta (c : pyclass) : option options :=
  match c with PyClass _ _ m => m end.
Definition class_eqb (c d : pyclass) : bool :=
  String.eqb (class_name c) (class_name d).

(** [issubclass(c, d)] for class objects: [c] is [d] or one of its bases is
    a subclass of [d]. *)
Fixpoint issubclass (c d : pyclass) : bool :=
  match c with
  | PyClass n bs _ =>
      String.eqb n (class_name d) || existsb (fun b => issubclass b d) bs
  end.

Definition object_ : pyclass := PyClass "object" [] None.
Definition type_ : pyclass := PyClass "type" [object_] None.
Definition NoneType : pyclass := PyClass "NoneType" [object_] None.
Definition int_ : pyclass := PyClass "int" [object_] None.
Definition str_ : pyclass := PyClass "str" [object_] None.

(** [django.db.models.query.QuerySet] and [django.db.models.Model]. *)
Definition QuerySet : pyclass :=
  PyClass "django.db.models.query.QuerySet" [object_] None.
Definition Model : pyclass :=
  PyClass "django.db.models.base.Model" [object_] None.

(** The state of a queryset: the model it queries and the records the
    storage returns for it when it is evaluated, in result order, each a
    mapping from field name to value. *)
Record queryset : Type := {
  qs_model : options;
  qs_records : list (pydict value)
}.

(** The objects a caller can pass for [model] and [queryset]: a class, an
    instance of a queryset class ([ty] is the exact type of the object:
    [QuerySet] itself or a class derived from it) or a value. *)
Inductive pyobj : Type :=
| ClassObj (c : pyclass)
| QuerySetObj (ty : pyclass) (q : queryset)
| ValueObj (v : value).

(** [type(x)] *)
Definition type_of (x : pyobj) : pyclass :=
  match x with
  | ClassObj _ => type_
  | QuerySetObj ty _ => ty
  | ValueObj VNone => NoneType
  | ValueObj (VInt _) => int_
  | ValueObj (VStr _) => str_
  | ValueObj (VObject cls _) => PyClass cls [Model] None
  end.

(** [isinstance(x, QuerySet)]: the object is a queryset. *)
Definition is_queryset (x : pyobj) : bool :=
  match x with
  | QuerySetObj ty _ => issubclass ty QuerySet
  | _ => false
  end.

(** The object is a Django model class. *)
Definition is_model_class (x : pyobj) : bool :=
  match x with
  | ClassObj c => issubclass c Model
  | _ => false
  end.

(** ** Typed columns *)

Definition is_blank (c : ascii) : bool :=
  match c with
  | " "%char | "009"%char | "010"%char | "013"%char => true
  | _ => false
  end.

Fixpoint lstrip (l : list ascii) : list ascii :=
  match l with
  | c :: l' => if is_blank c then lstrip l' else l
  | [] => []
  end.

(** [s.strip()] *)
Definition strip (s : string) : string :=
  string_of_list_ascii
    (rev (lstrip (rev (lstrip (list_ascii_of_string s))))).

(** [int(s)] on a string: decimal digits with an optional sign, between
    optional blanks; [None] where Python raises [ValueError]. *)
Definition py_int_of_string (s : string) : option Z :=
  match strip s with
  | String "+"%char (String "-"%char _) => None
  | String "+"%char rest => option_map Z.of_int (NilZero.int_of_string rest)
  | t => option_map Z.of_int (NilZero.int_of_string t)
  end.

(** [str(n)] on an integer. *)
Definition py_str_of_int (n : Z) : string :=
  NilZero.string_of_int (Z.to_int n).

(** What an integer column stores for a value: [int(v)]. *)
Definition to_integer (v : value) : result value :=
  match v with
  | VNone => Ok VNone
  | VInt n => Ok (VInt n)
  | VStr s =>
      match py_int_of_string s with
      | Some n => Ok (VInt n)
      | None => Raise (mk_exn ValueError "invalid literal for int() with base 10")
      end
  | VObject _ _ =>
      Raise (mk_exn TypeError "int() argument must be a string or a number")
  end.

(** What a text column stores for a value: [str(v)]. *)
Definition to_text (v : value) : value :=
  match v with
  | VNone => VNone
  | VInt n => VStr (py_str_of_int n)
  | VStr s => VStr s
  | VObject cls key => VStr (cls ++ " object (" ++ py_str_of_int key ++ ")")
  end.

(** [f.get_prep_value(v)]: the value as the column of [f] stores it and as
    the storage returns it on a later read. *)
Definition get_prep_value (f : field) (v : value) : result value :=
  match internal_type f with
  | CharField => Ok (to_text v)
  | AutoField | IntegerField | ForeignKey _ _ => to_integer v
  end.

(** ** Model instances: attribute access and construction *)

(** The relation the class declares under the name [k]: the field, the
    label of the related model and whether the relation may be null. *)
Definition relation_of (o : options) (k : string)
  : option (field * string * bool) :=
  match find (fun f => String.eqb (name f) k) (fields o) with
  | Some f =>
      match internal_type f with
      | ForeignKey to null => Some (f, to, null)
      | _ => None
      end
  | None => None
  end.

(** The instance a relation to [to] yields for the key [fk] its attribute
    holds: the related instance under that key (the storage's foreign-key
    constraint keeps the record it refers to), and for no key [None] when the
    relation may be null, [RelatedObjectDoesNotExist] otherwise. *)
Definition related_object (to : string) (null : bool) (fk : value)
  : result value :=
  match to_integer fk with
  | Raise e => Raise e
  | Ok (VInt n) => Ok (VObject to n)
  | Ok _ =>
      if null then Ok VNone
      else Raise (mk_exn RelatedObjectDoesNotExist "instance has no related object")
  end.

(** [instance.__dict__[k] = v] *)
Definition set_attribute (i : instance) (k : string) (v : value) : instance :=
  {| i_meta := i_meta i; adding := adding i; i_dict := dict_set (i_dict i) k v |}.

(** [instance.__dict__[k]] *)
Definition get_attribute (i : instance) (k : string) (asked : string)
  : result value :=
  match dict_get (i_dict i) k with
  | Some v => Ok v
  | None => Raise (mk_exn AttributeError ("object has no attribute " ++ asked))
  end.

(** [getattr(instance, k)]: [pk] is Django's alias of the primary-key
    attribute, a property of the class is computed by its getter, the name
    of a relation yields the related instance, anything else is read from
    the instance's [__dict__]. *)
Definition getattr (i : instance) (k : string) : result value :=
  if String.eqb k "pk" then get_attribute i (attname (pk (i_meta i))) k
  else
    match dict_get (properties (i_meta i)) k with
    | Some getter => Ok (getter (i_dict i))
    | None =>
        match relation_of (i_meta i) k with
        | Some (f, to, null) =>
            fk <- get_attribute i (attname f) k ;; related_object to null fk
        | None => get_attribute i k k
        end
    end.

(** [setattr(instance, k, v)]: [pk] sets the primary-key attribute, a
    read-only property refuses with [AttributeError], the name of a relation
    accepts [None] or an instance of the related model, whose key it stores,
    and refuses anything else with [ValueError]; every other name, a declared
    field or not, is stored in the instance's [__dict__] (Django's [Model]
    defines neither [__slots__] nor [__setattr__]). *)
Definition setattr (i : instance) (k : string) (v : value) : result instance :=
  if String.eqb k "pk" then Ok (set_attribute i (attname (pk (i_meta i))) v)
  else
    match dict_get (properties (i_meta i)) k with
    | Some _ => Raise (mk_exn AttributeError ("can't set attribute " ++ k))
    | None =>
        match relation_of (i_meta i) k with
        | Some (f, to, _) =>
            match v with
            | VNone => Ok (set_attribute i (attname f) VNone)
            | VObject cls key =>
                if String.eqb cls to then
                  Ok (set_attribute i (attname f) (VInt key))
                else
                  Raise (mk_exn ValueError
                           ("Cannot assign: must be an instance of " ++ to))
            | _ =>
                Raise (mk_exn ValueError
                         ("Cannot assign: must be an instance of " ++ to))
            end
        | None => Ok (set_attribute i k v)
        end
    end.

(** [m.pk] of an instance that carries its fields. *)
Definition pk_val (i : instance) : value :=
  dict_get_or_none (i_dict i) (attname (pk (i_meta i))).

(** The keyword arguments when the model class is called with the value
    map as keywords: a dict whose keys are not all strings is refused by the
    call itself. *)
Fixpoint keywords (vm : value_map_t) : result (pydict value) :=
  match vm with
  | [] => Ok []
  | (VStr k, v) :: vm' => kw <- keywords vm' ;; Ok ((k, v) :: kw)
  | _ :: _ => Raise (mk_exn TypeError "keywords must be strings")
  end.

(** [kwargs.pop(k)], the dict that is left. *)
Fixpoint dict_del {V} (d : pydict V) (k : string) : pydict V :=
  match d with
  | [] => []
  | (k', v) :: d' => if String.eqb k' k then d' else (k', v) :: dict_del d' k
  end.

(** The loop of [Model.__init__] over the declared fields: a relation takes
    the keyword of its name, as the related instance and through [setattr];
    any other field, and a relation without that keyword, takes the keyword
    of its attribute, or its default. A keyword that is taken is removed. *)
Fixpoint init_fields (i : instance) (fs : list field) (kwargs : pydict value)
  : result (instance * pydict value) :=
  match fs with
  | [] => Ok (i, kwargs)
  | f :: fs' =>
      match (if is_relation f then dict_get kwargs (name f) else None) with
      | Some rel_obj =>
          i' <- setattr i (name f) rel_obj ;;
          init_fields i' fs' (dict_del kwargs (name f))
      | None =>
          match dict_get kwargs (attname f) with
          | Some val =>
              init_fields (set_attribute i (attname f) val) fs'
                          (dict_del kwargs (attname f))
          | None =>
              init_fields (set_attribute i (attname f) (default f)) fs' kwargs
          end
      end
  end.

(** The keywords left once the fields have taken theirs: each is set through
    [setattr] when it is the [pk] alias, a property or the attribute of a
    field, and is unexpected otherwise. *)
Fixpoint init_remaining (i : instance) (kwargs : pydict value)
  : result (instance * list string) :=
  match kwargs with
  | [] => Ok (i, [])
  | (k, v) :: rest =>
      if String.eqb k "pk" || mem_string k (dict_keys (properties (i_meta i)))
         || mem_string k (field_names (i_meta i))
         || mem_string k (attnames (i_meta i)) then
        i' <- setattr i k v ;; init_remaining i' rest
      else
        r <- init_remaining i rest ;; Ok (fst r, k :: snd r)
  end.

(** Django's [Model.__init__] with keyword arguments: every declared field
    takes its keyword or its default, then the remaining keywords are
    handled; an unexpected keyword is a [TypeError]. *)
Definition model_init (o : options) (kwargs : pydict value) : result instance :=
  st <- init_fields {| i_meta := o; adding := true; i_dict := [] |}
                    (fields o) kwargs ;;
  r <- init_remaining (fst st) (snd st) ;;
  match snd r with
  | [] => Ok (fst r)
  | _ :: _ => Raise (mk_exn TypeError "got unexpected keyword arguments")
  end.

(** The model class called with the value map as its keyword arguments. *)
Definition new_model (o : options) (value_map : value_map_t)
  : result instance :=
  kw <- keywords value_map ;; model_init o kw.

(** ** Storage *)

(** The calls the module issues against storage. *)
Inductive call : Type :=
| CallSave (i : instance)
| CallBulkCreate (objs : list instance).

(** The table of one model in storage: the stored records (field name to
    the value of the field's column), the next automatic key, the backend's
    constraint check (given the stored records and a candidate record, the
    error it raises, if any) and the log of calls received so far, oldest
    first. *)
Record database : Type := {
  db_rows : list (pydict value);
  next_pk : Z;
  integrity : list (pydict value) -> pydict value -> option exn;
  calls : list call
}.

Definition log_call (c : call) (db : database) : database :=
  {| db_rows := db_rows db; next_pk := next_pk db;
     integrity := integrity db; calls := calls db ++ [c] |}.

Definition row_pk (o : options) (r : pydict value) : value :=
  dict_get_or_none r (name (pk o)).

(** A record is stored under the key [k], a value of the key's column. *)
Definition has_pk (o : options) (rs : list (pydict value)) (k : value) : bool :=
  existsb (fun r => value_eqb (row_pk o r) k) rs.

(** The record an instance is stored as: for each declared field, the
    value of its attribute as the column stores it; a value the column cannot
    take raises before anything is written. *)
Fixpoint prepare_fields (d : pydict value) (fs : list field)
  : result (pydict value) :=
  match fs with
  | [] => Ok []
  | f :: fs' =>
      v <- get_prep_value f (dict_get_or_none d (attname f)) ;;
      r <- prepare_fields d fs' ;;
      Ok ((name f, v) :: r)
  end.

Definition record_of (i : instance) : result (pydict value) :=
  prepare_fields (i_dict i) (fields (i_meta i)).

Definition is_auto (f : field) : bool :=
  match internal_type f with
  | AutoField => true
  | _ => false
  end.

(** INSERT of one record: a record without a key takes the next automatic
    key when the primary key is an [AutoField] and is refused otherwise; the
    constraint check and the uniqueness of the key can refuse it. *)
Definition insert_row (o : options) (r : pydict value) (db : database)
  : result (value * database) :=
  let auto := match row_pk o r with VNone => true | _ => false end in
  if auto && negb (is_auto (pk o)) then
    Raise (mk_exn IntegrityError "null value in the primary key column")
  else
  let r' := if auto then dict_set r (name (pk o)) (VInt (next_pk db)) else r in
  match integrity db (db_rows db) r' with
  | Some e => Raise e
  | None =>
      if has_pk o (db_rows db) (row_pk o r') then
        Raise (mk_exn IntegrityError "duplicate key value")
      else
        Ok (row_pk o r',
            {| db_rows := db_rows db ++ [r'];
               next_pk := if auto then next_pk db + 1 else next_pk db;
               integrity := integrity db; calls := calls db |})
  end.

(** UPDATE of the record stored under key [k]. *)
Definition update_row (o : options) (k : value) (r : pydict value)
  (db : database) : result database :=
  match integrity db (db_rows db) r with
  | Some e => Raise e
  | None =>
      Ok {| db_rows := map (fun r0 => if value_eqb (row_pk o r0) k then r else r0)
                           (db_rows db);
            next_pk := next_pk db;
            integrity := integrity db; calls := calls db |}
  end.

(** [instance.save()]: the attributes are converted to what their columns
    store; an instance whose converted key is stored is written over its
    record; any other is inserted and, when it had no key, receives one. The
    attributes of the instance keep the values they had. The call is logged
    whether it succeeds or not. *)
Definition save (i : instance) (db : database) : result instance * database :=
  let db1 := log_call (CallSave i) db in
  let o := i_meta i in
  match record_of i with
  | Raise e => (Raise e, db1)
  | Ok r =>
      if match row_pk o r with VNone => false | k => has_pk o (db_rows db1) k end then
        match update_row o (row_pk o r) r db1 with
        | Raise e => (Raise e, db1)
        | Ok db2 =>
            (Ok {| i_meta := o; adding := false; i_dict := i_dict i |}, db2)
        end
      else
        match insert_row o r db1 with
        | Raise e => (Raise e, db1)
        | Ok (k, db2) =>
            (Ok {| i_meta := o; adding := false;
                   i_dict := match row_pk o r with
                             | VNone => dict_set (i_dict i) (attname (pk o)) k
                             | _ => i_dict i
                             end |}, db2)
        end
  end.

(** The inserts of one [bulk_create] statement, in order. *)
Fixpoint insert_all (o : options) (objs : list instance) (db : database)
  : result database :=
  match objs with
  | [] => Ok db
  | i :: rest =>
      match record_of i with
      | Raise e => Raise e
      | Ok r =>
          match insert_row o r db with
          | Raise e => Raise e
          | Ok (_, db') => insert_all o rest db'
          end
      end
  end.

(** [model.objects.bulk_create(objs)]: one statement, which inserts every
    object or, when one insert is refused, none. *)
Definition bulk_create (o : options) (objs : list instance) (db : database)
  : result unit * database :=
  let db1 := log_call (CallBulkCreate objs) db in
  match insert_all o objs db1 with
  | Raise e => (Raise e, db1)
  | Ok db2 => (Ok tt, db2)
  end.

(** An instance as the ORM loads it from a stored record: each attribute
    holds the value of the field's column. *)
Definition from_db (o : options) (r : pydict value) : instance :=
  {| i_meta := o; adding := false;
     i_dict := map (fun f => (attname f, dict_get_or_none r (name f))) (fields o) |}.

(** [model.objects.all()], evaluated. *)
Definition objects_all (o : options) (db : database) : list instance :=
  map (from_db o) (db_rows db).

(** The field a name given to [values_list] selects: [pk] is the alias of
    the primary key, and a field answers to its name and to the name of its
    attribute. *)
Definition resolve_name (o : options) (n : string) : string :=
  if String.eqb n "pk" then name (pk o)
  else if mem_string n (field_names o) then n
  else match find (fun f => String.eqb (attname f) n) (fields o) with
       | Some f => name f
       | None => n
       end.

(** [values_list] on [queryset.all()] with the names as arguments,
    evaluated: a [FieldError] when a name selects no field of the queryset's
    model; without names, all the fields of the model in declaration order;
    one tuple per record, in the order of the queryset; for a relation the
    value is the key its column holds. *)
Definition values_list (q : queryset) (names : list string)
  : result (list (list value)) :=
  let o := qs_model q in
  let selected := match names with
                  | [] => field_names o
                  | _ :: _ => map (resolve_name o) names
                  end in
  if forallb (fun n => mem_string n (field_names o)) selected then
    Ok (map (fun r => map (dict_get_or_none r) selected) (qs_records q))
  else
    Raise (mk_exn FieldError "Cannot resolve keyword into field").

(** ** Tables *)

(** A row of a table: the header row holds the column names, a data row the
    cells. *)
Definition row : Type := list value.

(** What iterating a table yields: the rows produced, in order, and the
    exception that ended the iteration, if one did. *)
Record iteration : Type := {
  yielded : list row;
  raised : option exn
}.

(** A table handed to [todjango]: [has_next] tells whether the iterator
    that [iter(table)] returns has an attribute called [next] (the Python 2
    iterator protocol); iterators of Python 3, generators included, only have
    [__next__]. [t_rows] are the rows the iterator produces, header first. *)
Record table : Type := {
  has_next : bool;
  t_rows : list row
}.

(** [table_iterator.next()]: the first row and the rest of the iterator. *)
Definition iterator_next (t : table) : result (row * list row) :=
  if has_next t then
    match t_rows t with
    | [] => Raise (mk_exn StopIteration "")
    | h :: rest => Ok (h, rest)
    end
  else
    Raise (mk_exn AttributeError "object has no attribute 'next'").

(** ** django_view.py *)

Definition DEFAULTS : pydict Z := [("BULK_CREATE_CHUNK_SIZE", 50)].

(** The view [fromdjango] returns. *)
Record DjangoView : Type := {
  view_model : pyobj;
  view_queryset : pyobj;
  view_fields : option (list string)
}.

Definition fromdjango (model queryset : pyobj) (fields : option (list string))
  : result DjangoView :=
  if negb (class_eqb (type_of queryset) QuerySet) then
    Raise (mk_exn AssertionError "Must be supplied a Django QuerySet")
  else
    match model with
    | ClassObj c =>
        if issubclass c Model then
          Ok {| view_model := model; view_queryset := queryset;
                view_fields := fields |}
        else
          Raise (mk_exn AssertionError
                        "Must be supplied a valid Django model class")
    | _ => Raise (mk_exn TypeError "issubclass() arg 1 must be a class")
    end.

Definition _get_model_column_names (o : options) : list string :=
  map column (fields o).

Definition _get_model_field_names (o : options) : list string :=
  map name (fields o).

(** [model._meta] of the object passed as [model]. *)
Definition meta_of (model : pyobj) : result options :=
  match model with
  | ClassObj c =>
      match class_meta c with
      | Some o => Ok o
      | None => Raise (mk_exn AttributeError "type object has no attribute '_meta'")
      end
  | _ => Raise (mk_exn AttributeError "object has no attribute '_meta'")
  end.

(** [values_list] on the object passed as [queryset]. *)
Definition queryset_values_list (queryset : pyobj) (names : list string)
  : result (list row) :=
  match queryset with
  | QuerySetObj _ q => values_list q names
  | _ => Raise (mk_exn AttributeError "object has no attribute 'all'")
  end.

(** The generator, run to its end. *)
Definition _iter_django_model (model queryset : pyobj)
  (fields : option (list string)) : iteration :=
  match (match fields with
         | None => o <- meta_of model ;; Ok (_get_model_field_names o)
         | Some fs => Ok fs
         end) with
  | Raise e => {| yielded := []; raised := Some e |}
  | Ok column_names =>
      match queryset_values_list queryset column_names with
      | Raise e => {| yielded := [map VStr column_names]; raised := Some e |}
      | Ok rs => {| yielded := map VStr column_names :: rs; raised := None |}
      end
  end.

(** [DjangoView.__iter__] *)
Definition DjangoView_iter (v : DjangoView) : iteration :=
  _iter_django_model (view_model v) (view_queryset v) (view_fields v).

Definition _get_django_objects (o : options) (db : database) : list instance :=
  objects_all o db.

(** [getattr(settings, name, DEFAULTS[name])] *)
Definition _get_setting (settings : pydict Z) (nm : string) : result Z :=
  match dict_get DEFAULTS nm with
  | None => Raise (mk_exn KeyError nm)
  | Some d =>
      Ok (match dict_get settings nm with Some v => v | None => d end)
  end.

(** The number of elements of [range(lo, hi, step)]. *)
Definition range_len (lo hi step : Z) : Z :=
  if (0 <? step) && (lo <? hi) then (hi - lo - 1) / step + 1
  else if (step <? 0) && (hi <? lo) then (lo - hi - 1) / (- step) + 1
  else 0.

(** [range(lo, hi, step)] *)
Definition py_range (lo hi step : Z) : result (list Z) :=
  if step =? 0 then Raise (mk_exn ValueError "range() arg 3 must not be zero")
  else Ok (map (fun k => lo + Z.of_nat k * step)
               (seq 0 (Z.to_nat (range_len lo hi step)))).

(** [l[i:j]] for [0 <= i]: the elements from index [i] up to [j], as many
    as the list has. *)
Definition py_slice {A} (l : list A) (i j : Z) : list A :=
  firstn (Z.to_nat (j - i)) (skipn (Z.to_nat i) l).

(** The body of the loop of [_chunked_bulk_create] over the start indices. *)
Fixpoint bulk_create_loop (o : options) (unsaved_models : list instance)
  (chunk_size : Z) (starts : list Z) (db : database) : result unit * database :=
  match starts with
  | [] => (Ok tt, db)
  | i :: rest =>
      match bulk_create o (py_slice unsaved_models i (i + chunk_size)) db with
      | (Raise e, db') =>
          let chunk_data := py_slice unsaved_models i (i + chunk_size) in
          (Raise (set_petl_chunk_data e chunk_data), db')
      | (Ok _, db') => bulk_create_loop o unsaved_models chunk_size rest db'
      end
  end.

Definition _chunked_bulk_create (settings : pydict Z) (o : options)
  (unsaved_models : list instance) (chunk_size : option Z) (db : database)
  : result unit * database :=
  match (match chunk_size with
         | None => _get_setting settings "BULK_CREATE_CHUNK_SIZE"
         | Some c => Ok c
         end) with
  | Raise e => (Raise e, db)
  | Ok c =>
      match py_range 0 (Z.of_nat (List.length unsaved_models)) c with
      | Raise e => (Raise e, db)
      | Ok starts => bulk_create_loop o unsaved_models c starts db
      end
  end.

(** [getattr] and [setattr] with a dict key as the attribute name: a name
    that is not a string is a [TypeError]. *)
Definition getattr_key (i : instance) (k : value) : result value :=
  match k with
  | VStr s => getattr i s
  | _ => Raise (mk_exn TypeError "attribute name must be string")
  end.

Definition setattr_key (i : instance) (k v : value) : result instance :=
  match k with
  | VStr s => setattr i s v
  | _ => Raise (mk_exn TypeError "attribute name must be string")
  end.

Fixpoint _will_model_change (value_map : value_map_t)
  (django_model_instance : instance) : result bool :=
  match value_map with
  | [] => Ok false
  | (model_attr, v) :: rest =>
      a <- getattr_key django_model_instance model_attr ;;
      if negb (value_eqb a v) then Ok true
      else _will_model_change rest django_model_instance
  end.

Fixpoint _apply_value_map (value_map : value_map_t)
  (django_model_instance : instance) : result instance :=
  match value_map with
  | [] => Ok django_model_instance
  | (k, v) :: rest =>
      match setattr_key django_model_instance k v with
      | Ok i' => _apply_value_map rest i'
      | Raise e =>
          match kind e, k with
          | AttributeError, VStr s =>
              let model_name := model_name (i_meta django_model_instance) in
              Raise (mk_exn UnableToApplyValueMapError
                       ("Field " ++ s ++ " not present in model " ++ model_name))
          | _, _ => Raise e
          end
      end
  end.

(** The variables [todjango] carries through its loop over the data rows.
    [existing_model_map] maps a primary key to the instance loaded for it;
    an instance mutated by the loop is the object the map refers to, so the
    map holds its current state. *)
Record loop_state : Type := {
  existing_model_map : list (value * instance);
  updated_model_count : Z;
  unsaved_models : list instance
}.

(** The branch of the loop body taken for a row whose primary key is a key
    of [existing_model_map]: compare, and when a value differs apply the
    value map and save. *)
Definition update_existing (value_map : value_map_t) (pk_value : value)
  (django_object : instance) (st : loop_state) (db : database)
  : result loop_state * database :=
  match _will_model_change value_map django_object with
  | Raise e => (Raise e, db)
  | Ok false => (Ok st, db)
  | Ok true =>
      match _apply_value_map value_map django_object with
      | Raise e => (Raise e, db)
      | Ok obj =>
          match save obj db with
          | (Raise e, db') => (Raise (set_petl_data e value_map), db')
          | (Ok obj', db') =>
              (Ok {| existing_model_map :=
                       assoc_set value_eqb (existing_model_map st) pk_value obj';
                     updated_model_count := updated_model_count st + 1;
                     unsaved_models := unsaved_models st |}, db')
          end
      end
  end.

(** The other branch: build a new instance from the value map and save it,
    or keep it for the bulk insert. *)
Definition create_new (o : options) (use_bulk_create : bool)
  (value_map : value_map_t) (st : loop_state) (db : database)
  : result loop_state * database :=
  match new_model o value_map with
  | Raise e => (Raise e, db)
  | Ok django_object =>
      if use_bulk_create then
        (Ok {| existing_model_map := existing_model_map st;
               updated_model_count := updated_model_count st;
               unsaved_models := unsaved_models st ++ [django_object] |}, db)
      else
        match save django_object db with
        | (Raise e, db') => (Raise (set_petl_data e value_map), db')
        | (Ok _, db') => (Ok st, db')
        end
  end.

(** [dict(zip(table_headers, row))] *)
Definition make_value_map (table_headers r : row) : value_map_t :=
  assoc_of_pairs value_eqb (combine table_headers r).

(** [value_map.get(model_pk_field_name, None)] *)
Definition row_pk_value (o : options) (value_map : value_map_t) : value :=
  match assoc_get value_eqb value_map (VStr (name (pk o))) with
  | Some v => v
  | None => VNone
  end.

(** The instance the row is matched with: [existing_model_map[pk]] when
    [update and pk in existing_model_map]. *)
Definition matched (update : bool) (st : loop_state) (pk_value : value)
  : option instance :=
  if update then assoc_get value_eqb (existing_model_map st) pk_value else None.

(** The body of the loop of [todjango] for one data row. *)
Definition process_row (o : options) (update use_bulk_create : bool)
  (table_headers r : row) (st : loop_state) (db : database)
  : result loop_state * database :=
  let value_map := make_value_map table_headers r in
  let pk_value := row_pk_value o value_map in
  match matched update st pk_value with
  | Some django_object => update_existing value_map pk_value django_object st db
  | None => create_new o use_bulk_create value_map st db
  end.

(** The loop: an exception raised by a row ends it. *)
Fixpoint process_rows (o : options) (update use_bulk_create : bool)
  (table_headers : row) (rs : list row) (st : loop_state) (db : database)
  : result loop_state * database :=
  match rs with
  | [] => (Ok st, db)
  | r :: rest =>
      match process_row o update use_bulk_create table_headers r st db with
      | (Raise e, db') => (Raise e, db')
      | (Ok st', db') =>
          process_rows o update use_bulk_create table_headers rest st' db'
      end
  end.

(** [dict([(m.pk, m) for m in existing_models])] *)
Definition load_existing (o : options) (db : database) : list (value * instance) :=
  assoc_of_pairs value_eqb
    (map (fun m => (pk_val m, m)) (_get_django_objects o db)).

(** The variables as the loop starts: every existing instance loaded and
    keyed by primary key when [update] is set, an empty map otherwise. *)
Definition initial_state (o : options) (update : bool) (db : database)
  : loop_state :=
  {| existing_model_map := if update then load_existing o db else [];
     updated_model_count := 0;
     unsaved_models := [] |}.

(** The two counts [todjango] logs at level info before it returns. *)
Record report : Type := {
  updated : Z;
  created : Z
}.

(** [todjango]. The [create] argument is accepted and, as in the source,
    never read. The result is the pair of logged counts (the function itself
    returns [None]) and the storage after the call. *)
Definition todjango (settings : pydict Z) (t : table) (model : pyobj)
  (update create use_bulk_create : bool) (db : database)
  : result report * database :=
  match model with
  | ClassObj c =>
      if negb (issubclass c Model) then
        (Raise (mk_exn AssertionError
                       "Must be supplied a valid Django model class"), db)
      else
        match iterator_next t with
        | Raise e => (Raise e, db)
        | Ok (table_headers, table_iterator) =>
            match meta_of model with
            | Raise e => (Raise e, db)
            | Ok o =>
                let model_pk_field_name := name (pk o) in
                let model_field_names := _get_model_field_names o in
                if update && negb (mem_string model_pk_field_name model_field_names)
                then
                  (Raise (mk_exn AssertionError
                            ("To update existing models the data must include the Django primary key field "
                               ++ model_pk_field_name)), db)
                else
                  let st0 := initial_state o update db in
                  match process_rows o update use_bulk_create table_headers
                                     table_iterator st0 db with
                  | (Raise e, db') => (Raise e, db')
                  | (Ok st, db') =>
                      let rep :=
                        {| updated := updated_model_count st;
                           created := Z.of_nat (List.length (unsaved_models st)) |} in
                      if use_bulk_create then
                        match _chunked_bulk_create settings o (unsaved_models st)
                                                   None db' with
                        | (Raise e, db'') => (Raise e, db'')
                        | (Ok _, db'') => (Ok rep, db'')
                        end
                      else (Ok rep, db')
                  end
            end
        end
  | _ => (Raise (mk_exn TypeError "issubclass() arg 1 must be a class"), db)
  end.

(** ** A running example: the model [Person(id, name, age)] *)

Definition f_id : field :=
  {| name := "id"; column := "id"; default := VNone; internal_type := AutoField |}.
Definition f_name : field :=
  {| name := "name"; column := "name"; default := VNone; internal_type := CharField |}.
Definition f_age : field :=
  {| name := "age"; column := "age"; default := VNone; internal_type := IntegerField |}.

Definition person_meta : options :=
  {| fields := [f_id; f_name; f_age]; pk := f_id;
     label := "people.Person"; model_name := "person";
     properties := [] |}.

Definition Person : pyclass := PyClass "people.models.Person" [Model] (Some person_meta).

(** A storage that accepts every record. *)
Definition no_constraint : list (pydict value) -> pydict value -> option exn :=
  fun _ _ => None.

Definition alice_row : pydict value :=
  [("id", VInt 1); ("name", VStr "Alice"); ("age", VInt 30)].

Definition person_db : database :=
  {| db_rows := [alice_row]; next_pk := 2;
     integrity := no_constraint; calls := [] |}.

(** A queryset class of the application, derived from [QuerySet] (what
    [QuerySet.as_manager] and custom managers return). *)
Definition PersonQuerySet : pyclass :=
  PyClass "people.models.PersonQuerySet" [QuerySet] None.

Definition people : queryset :=
  {| qs_model := person_meta; qs_records := [alice_row] |}.

(** ** What the specification expects of the read adapter *)

(** The values of the selected fields of each record, in the order of the
    records. *)
Definition selected_rows (names : list string) (records : list (pydict value))
  : list row :=
  map (fun r => map (dict_get_or_none r) names) records.

(** The header the read adapter is to yield. *)
Definition header_of (o : options) (fields : option (list string)) : list string :=
  match fields with
  | None => field_names o
  | Some fs => fs
  end.

(** The [fields] argument selects something the model has: it is absent, or
    a non-empty list of declared field names. *)
Definition selects_fields (o : options) (fields : option (list string)) : Prop :=
  match fields with
  | None => True
  | Some fs => fs <> [] /\ forall n, In n fs -> In n (field_names o)
  end.

(** ** What the specification expects of the value-map step *)

(** An attribute name [setattr] stores in the instance's [__dict__] under
    that very name: a string that is neither the [pk] alias, nor a read-only
    property of the model, nor the name of a relation. *)
Definition plain_attribute (o : options) (k : value) : bool :=
  match k with
  | VStr s =>
      negb (String.eqb s "pk")
      && match dict_get (properties o) s with None => true | Some _ => false end
      && match relation_of o s with None => true | Some _ => false end
  | _ => false
  end.


Definition alice : instance := from_db person_meta alice_row.

(** A table whose iterator has a [next] method, with and without the
    primary-key column of [Person]. *)
Definition people_table : table :=
  {| has_next := true;
     t_rows := [[VStr "id"; VStr "name"; VStr "age"];
                [VInt 1; VStr "Alice"; VInt 31];
                [VInt 2; VStr "Bob"; VInt 25]] |}.

Definition keyless_table : table :=
  {| has_next := true;
     t_rows := [[VStr "name"; VStr "age"]; [VStr "Bob"; VInt 25]] |}.

(** ** What the specification expects of the chunker *)

(** The chunk size in force: the explicit argument, or the configured
    setting, or the default of 50. *)
Definition effective_chunk_size (settings : pydict Z) (chunk_size : option Z) : Z :=
  match chunk_size with
  | Some c => c
  | None =>
      match dict_get settings "BULK_CREATE_CHUNK_SIZE" with
      | Some c => c
      | None => 50
      end
  end.

(** A storage that refuses every record. *)
Definition rejecting_db : database :=
  {| db_rows := []; next_pk := 1;
     integrity := fun _ _ => Some (mk_exn DatabaseError "rejected");
     calls := [] |}.

Definition bob : instance :=
  {| i_meta := person_meta; adding := true;
     i_dict := [("id", VNone); ("name", VStr "Bob"); ("age", VInt 25)] |}.

Definition carol : instance :=
  {| i_meta := person_meta; adding := true;
     i_dict := [("id", VNone); ("name", VStr "Carol"); ("age", VInt 41)] |}.

(** The slices of width [w] of [l] that start at [0], [w], .., [(n-1)*w]. *)
Definition slices {A} (w : nat) (l : list A) (n : nat) : list (list A) :=
  map (fun k => firstn w (skipn (k * w) l)) (seq 0 n).


(** ** What the specification expects of a second run *)

(** The primary keys the data rows supply, in row order; [VNone] where a
    row supplies none. *)
Definition row_keys (o : options) (table_headers : row) (rs : list row)
  : list value :=
  map (fun r => row_pk_value o (make_value_map table_headers r)) rs.

(** The keys that are supplied. *)
Definition supplied_keys (o : options) (table_headers : row) (rs : list row)
  : list value :=
  filter (fun k => negb (value_eqb k VNone)) (row_keys o table_headers rs).

(** The primary keys in storage. *)
Definition pks (o : options) (db : database) : list value :=
  map (row_pk o) (db_rows db).

(** The column of [f] stores the value [v] as it is: written, then read
    back, it is [v] again. *)
Definition stores_unchanged (f : field) (v : value) : bool :=
  match get_prep_value f v with
  | Ok w => value_eqb w v
  | Raise _ => false
  end.

(** Every value of the record is a value of its column. *)
Definition typed_record (o : options) (rec : pydict value) : bool :=
  forallb (fun f => stores_unchanged f (dict_get_or_none rec (name f)))
          (fields o).

(** Every cell of the value map that stands under the name of a field is a
    value the column of that field stores as it is. *)
Definition typed_cells (o : options) (value_map : value_map_t) : bool :=
  forallb (fun kv =>
             forallb (fun f => negb (value_eqb (fst kv) (VStr (name f)))
                               || stores_unchanged f (snd kv))
                     (fields o))
          value_map.

(** The storage keeps its primary-key constraint and the types of its
    columns: every record has a key, no two records share one, and every
    stored value is a value of its column. *)
Definition db_ok (o : options) (db : database) : Prop :=
  NoDup (pks o db) /\ ~ In VNone (pks o db) /\
  forallb (typed_record o) (db_rows db) = true.

(** A stored record holds, under every key of the value map, the value the
    map gives. *)
Definition agrees (rec : pydict value) (value_map : value_map_t) : Prop :=
  forall k v, In (k, v) value_map ->
              exists s, k = VStr s /\ dict_get_or_none rec s = v.

(** The saves of instances that are not new ([_state.adding] is false):
    the saves that update a stored record. *)
Fixpoint update_saves (cs : list call) : list instance :=
  match cs with
  | [] => []
  | CallSave i :: cs' =>
      if adding i then update_saves cs' else i :: update_saves cs'
  | CallBulkCreate _ :: cs' => update_saves cs'
  end.

(** The calls a run has added to the log. *)
Definition new_calls (before after : database) : list call :=
  skipn (List.length (calls before)) (calls after).

(** A table with two rows for the same primary key. *)
Definition twice_table : table :=
  {| has_next := true;
     t_rows := [[VStr "id"; VStr "age"];
                [VInt 1; VInt 30];
                [VInt 1; VInt 31]] |}.

(** A table whose cell for the integer column [age] is a string, and one
    whose primary key is a string. *)
Definition retyped_table : table :=
  {| has_next := true;
     t_rows := [[VStr "id"; VStr "age"]; [VInt 1; VStr "31"]] |}.

Definition string_key_table : table :=
  {| has_next := true;
     t_rows := [[VStr "id"; VStr "name"; VStr "age"];
                [VStr "1"; VStr "Zed"; VInt 50]] |}.

(** Every key of the value map is the name of a declared field that is not
    a relation. *)
Definition field_keys (o : options) (value_map : value_map_t) : Prop :=
  forall k v, In (k, v) value_map ->
              exists s, k = VStr s /\ In s (plain_field_names o).

(** *** The state of the first run, row by row *)

(** The row of this value map has been written: it supplies no key, or the
    storage holds a record under its key and every such record agrees with
    the value map. *)
Definition settled (o : options) (db : database) (value_map : value_map_t) : Prop :=
  row_pk_value o value_map = VNone \/
  ((exists rec, In rec (db_rows db) /\ row_pk o rec = row_pk_value o value_map) /\
   forall rec, In rec (db_rows db) -> row_pk o rec = row_pk_value o value_map ->
               agrees rec value_map).

(** The row of this value map waits for the bulk insert: its key is not in
    storage and the instance built from it is in [unsaved_models]. *)
Definition pending (o : options) (use_bulk_create : bool) (st : loop_state)
  (db : database) (value_map : value_map_t) : Prop :=
  use_bulk_create = true /\
  row_pk_value o value_map <> VNone /\
  ~ In (row_pk_value o value_map) (pks o db) /\
  exists obj, In obj (unsaved_models st) /\ new_model o value_map = Ok obj.

(** Every instance of [existing_model_map] is keyed by its primary key and
    holds, attribute by attribute, what the storage holds under that key. *)
Definition in_sync (o : options) (st : loop_state) (db : database) : Prop :=
  forall k obj,
    assoc_get value_eqb (existing_model_map st) k = Some obj ->
    i_meta obj = o /\ pk_val obj = k /\
    (exists rec, In rec (db_rows db) /\ row_pk o rec = k) /\
    forall rec, In rec (db_rows db) -> row_pk o rec = k ->
      forall f, In f (fields o) ->
                dict_get_or_none rec (name f)
                = dict_get_or_none (i_dict obj) (attname f).

(** The invariant of the loop of [todjango] with [update] set, after the
    rows [done]. *)
Definition loop_inv (o : options) (use_bulk_create : bool) (table_headers : row)
  (done : list row) (st : loop_state) (db : database) : Prop :=
  (~ In VNone (pks o db) /\
   forall rec, In rec (db_rows db) -> typed_record o rec = true) /\
  in_sync o st db /\
  (use_bulk_create = true ->
   incl (pks o db) (map fst (existing_model_map st))) /\
  forall r, In r done ->
            settled o db (make_value_map table_headers r) \/
            pending o use_bulk_create st db (make_value_map table_headers r).

(** No row of [done] supplies the key that [r] supplies. *)
Definition fresh_key (o : options) (table_headers : row) (done : list row)
  (r : row) : Prop :=
  forall r0, In r0 done ->
    row_pk_value o (make_value_map table_headers r0)
    = row_pk_value o (make_value_map table_headers r) ->
    row_pk_value o (make_value_map table_headers r) = VNone.

(** Where the first run leaves the storage: every record stored under the
    key of a row agrees with the row. *)
Definition written (o : options) (table_headers : row) (rs : list row)
  (db : database) : Prop :=
  ~ In VNone (pks o db) /\
  forall r rec, In r rs -> In rec (db_rows db) ->
    row_pk o rec = row_pk_value o (make_value_map table_headers r) ->
    agrees rec (make_value_map table_headers r).

(** ** Vocabulary of the further properties *)




(** A model with a relation: [Book(id, title, author)], where [author] is
    a foreign key to the model [library.Author]. *)
Definition f_title : field :=
  {| name := "title"; column := "title"; default := VNone;
     internal_type := CharField |}.
Definition f_author : field :=
  {| name := "author"; column := "author_id"; default := VNone;
     internal_type := ForeignKey "library.Author" false |}.

Definition book_meta : options :=
  {| fields := [f_id; f_title; f_author]; pk := f_id;
     label := "library.Book"; model_name := "book";
     properties := [] |}.

Definition emma_row : pydict value :=
  [("id", VInt 1); ("title", VStr "Emma"); ("author", VInt 7)].

(** A book as loaded from storage. *)
Definition emma : instance := from_db book_meta emma_row.

Definition Book : pyclass := PyClass "library.models.Book" [Model] (Some book_meta).

Definition book_db : database :=
  {| db_rows := [emma_row]; next_pk := 2;
     integrity := no_constraint; calls := [] |}.

(** No field of the model is a relation. *)
Definition without_relations (o : options) : bool :=
  forallb (fun f => negb (is_relation f)) (fields o).



(** A storage that holds Alice and refuses every write. *)
Definition guarded_db : database :=
  {| db_rows := [alice_row]; next_pk := 2;
     integrity := fun _ _ => Some (mk_exn DatabaseError "rejected");
     calls := [] |}.

(** A table that creates Bob, then changes Alice. *)
Definition bob_then_alice_table : table :=
  {| has_next := true;
     t_rows := [[VStr "id"; VStr "name"; VStr "age"];
                [VInt 2; VStr "Bob"; VInt 25];
                [VInt 1; VStr "Alice"; VInt 31]] |}.

(** A table with its header row only, and one with no row at all. *)
Definition header_only_table : table :=
  {| has_next := true; t_rows := [[VStr "id"; VStr "name"; VStr "age"]] |}.

Definition empty_table : table := {| has_next := true; t_rows := [] |}.

(** A table with one row, for a key the storage does not hold. *)
Definition keyed_bob_table : table :=
  {| has_next := true;
     t_rows := [[VStr "id"; VStr "name"; VStr "age"];
                [VInt 2; VStr "Bob"; VInt 25]] |}.

(** The queryset [model.objects.all()], evaluated over the storage. *)
Definition all_objects (o : options) (db : database) : queryset :=
  {| qs_model := o; qs_records := db_rows db |}.

(** The row the read adapter yields for a record: the values of all the
    fields, in declaration order. *)
Definition row_of (o : options) (rec : pydict value) : row :=
  map (dict_get_or_none rec) (field_names o).
(** * Properties *)

(** ** Strings, dicts *)

Lemma mem_string_In (k : string) (l : list string) :
  mem_string k l = true <-> In k l.
Proof.
  unfold mem_string. rewrite existsb_exists. split.
  - intros [x [Hin Heq]]. apply String.eqb_eq in Heq. now subst.
  - intros Hin. exists k. split; [assumption | apply String.eqb_refl].
Qed.

Lemma mem_string_false (k : string) (l : list string) :
  mem_string k l = false <-> ~ In k l.
Proof.
  rewrite <- mem_string_In. destruct (mem_string k l); split; congruence.
Qed.

(** ** The read adapter *)

Lemma resolve_field_names (o : options) (names : list string) :
  mem_string "pk" (field_names o) = false ->
  (forall n, In n names -> In n (field_names o)) ->
  map (resolve_name o) names = names.
Proof.
  intros Hpk Hin. induction names as [|n names IH]; simpl; [reflexivity|].
  rewrite IH by (intros; apply Hin; now right).
  f_equal. unfold resolve_name.
  destruct (String.eqb n "pk") eqn:E.
  - apply String.eqb_eq in E. subst n.
    apply mem_string_false in Hpk. exfalso. apply Hpk, Hin. now left.
  - replace (mem_string n (field_names o)) with true; [reflexivity|].
    symmetry. apply mem_string_In, Hin. now left.
Qed.

Lemma values_list_selected (q : queryset) (names : list string) :
  wf_options (qs_model q) = true ->
  names <> [] ->
  (forall n, In n names -> In n (field_names (qs_model q))) ->
  values_list q names = Ok (selected_rows names (qs_records q)).
Proof.
  intros Hwf Hne Hin. unfold values_list.
  unfold wf_options in Hwf. repeat (apply andb_prop in Hwf; destruct Hwf as [Hwf ?]).
  assert (Hpk : mem_string "pk" (field_names (qs_model q)) = false)
    by (now apply negb_true_iff).
  destruct names as [|n0 names0]; [congruence|].
  rewrite (resolve_field_names (qs_model q) (n0 :: names0) Hpk Hin).
  replace (forallb _ (n0 :: names0)) with true; [reflexivity|].
  symmetry. apply forallb_forall. intros x Hx. apply mem_string_In. now apply Hin.
Qed.

Lemma values_list_all (q : queryset) :
  wf_options (qs_model q) = true ->
  values_list q (field_names (qs_model q))
  = Ok (selected_rows (field_names (qs_model q)) (qs_records q)).
Proof.
  intros Hwf. destruct (field_names (qs_model q)) eqn:E.
  - unfold values_list. rewrite E. reflexivity.
  - rewrite <- E. apply values_list_selected; [assumption | congruence | auto].
Qed.

(** C1, as amended. For a model class [c] with metadata [o] and a queryset
    over that model whose type is [QuerySet], when [fields] is [None] or a
    non-empty list of declared field names, [fromdjango] returns a view whose
    iteration yields the header (the field names in declaration order, or
    the list supplied) and then, for each record of the queryset in order,
    the values of exactly the selected fields, and ends normally. *)
Theorem fromdjango_yields_header_then_rows
  (c ty : pyclass) (o : options) (q : queryset) (fields : option (list string)) :
  issubclass c Model = true ->
  class_meta c = Some o ->
  wf_options o = true ->
  class_eqb ty QuerySet = true ->
  qs_model q = o ->
  selects_fields o fields ->
  exists v,
    fromdjango (ClassObj c) (QuerySetObj ty q) fields = Ok v /\
    DjangoView_iter v =
      {| yielded := map VStr (header_of o fields)
                      :: selected_rows (header_of o fields) (qs_records q);
         raised := None |}.
Proof.
  intros Hsub Hmeta Hwf Hty Hq Hsel.
  unfold fromdjango. simpl type_of. rewrite Hty, Hsub. simpl negb. cbv iota.
  eexists. split; [reflexivity|].
  unfold DjangoView_iter, _iter_django_model. simpl.
  subst o. destruct fields as [fs|]; simpl in *.
  - destruct Hsel as [Hne Hin].
    rewrite values_list_selected by assumption. reflexivity.
  - rewrite Hmeta. simpl. unfold _get_model_field_names.
    fold (field_names (qs_model q)).
    rewrite values_list_all by assumption. reflexivity.
Qed.

Lemma fromdjango_yields_header_then_rows_witness :
  exists v,
    fromdjango (ClassObj Person) (QuerySetObj QuerySet people) (Some ["name"]) = Ok v /\
    DjangoView_iter v =
      {| yielded := [[VStr "name"]; [VStr "Alice"]]; raised := None |}.
Proof.
  apply (fromdjango_yields_header_then_rows Person QuerySet person_meta people
           (Some ["name"])); try reflexivity.
  split; [discriminate|]. intros n [H|[]]. subst n. simpl. auto.
Defined.

(** C1, the claim as stated fails: with [fields] the empty list the header
    is empty, and the rows hold every field of the model, not the (zero)
    selected ones. *)
Lemma fromdjango_empty_fields_yields_all_columns :
  exists v,
    fromdjango (ClassObj Person) (QuerySetObj QuerySet people) (Some []) = Ok v /\
    DjangoView_iter v =
      {| yielded := [[]; [VInt 1; VStr "Alice"; VInt 30]]; raised := None |} /\
    yielded (DjangoView_iter v)
      <> map VStr (header_of person_meta (Some []))
           :: selected_rows (header_of person_meta (Some [])) (qs_records people).
Proof.
  eexists. split; [reflexivity|]. split; [reflexivity|].
  vm_compute. discriminate.
Qed.

(** C9, as amended. [fromdjango] returns the view exactly when the type of
    its queryset argument is [QuerySet] itself and its model argument is a
    class derived from [Model]; a queryset argument of any other type, an
    instance of a class derived from [QuerySet] included, fails the first
    assertion, and a class that does not derive from [Model] fails the
    second. *)
Theorem fromdjango_validation
  (model queryset : pyobj) (fields : option (list string)) :
  ((exists v, fromdjango model queryset fields = Ok v) <->
     class_eqb (type_of queryset) QuerySet = true /\ is_model_class model = true)
  /\ (class_eqb (type_of queryset) QuerySet = false ->
      fromdjango model queryset fields
      = Raise (mk_exn AssertionError "Must be supplied a Django QuerySet"))
  /\ (class_eqb (type_of queryset) QuerySet = true ->
      forall c, model = ClassObj c -> issubclass c Model = false ->
      fromdjango model queryset fields
      = Raise (mk_exn AssertionError "Must be supplied a valid Django model class")).
Proof.
  unfold fromdjango. split; [|split].
  - destruct (class_eqb (type_of queryset) QuerySet); simpl.
    + destruct model as [c| |]; simpl.
      * destruct (issubclass c Model); split.
        -- intros _. auto.
        -- intros _. eexists. reflexivity.
        -- intros [w Hw]. discriminate.
        -- intros [_ H]. discriminate.
      * split; [intros [w Hw]; discriminate | intros [_ H]; discriminate].
      * split; [intros [w Hw]; discriminate | intros [_ H]; discriminate].
    + split; [intros [w Hw]; discriminate | intros [H _]; discriminate].
  - intros ->. reflexivity.
  - intros -> c -> ->. reflexivity.
Qed.

Lemma fromdjango_validation_witness :
  fromdjango (ClassObj Person) (ValueObj (VInt 3)) None
  = Raise (mk_exn AssertionError "Must be supplied a Django QuerySet").
Proof.
  apply (proj1 (proj2 (fromdjango_validation (ClassObj Person) (ValueObj (VInt 3)) None))).
  reflexivity.
Defined.

(** C9, the claim as stated fails: an instance of a class derived from
    [QuerySet] is a queryset and [Person] is a model class, yet the call
    fails the assertion. *)
Lemma fromdjango_rejects_queryset_subclass :
  is_queryset (QuerySetObj PersonQuerySet people) = true /\
  is_model_class (ClassObj Person) = true /\
  fromdjango (ClassObj Person) (QuerySetObj PersonQuerySet people) None
  = Raise (mk_exn AssertionError "Must be supplied a Django QuerySet").
Proof. repeat split. Qed.

(** ** The write adapter: the header *)

(** C2. For a table whose iterator has no [next] attribute and a model
    class, every call of [todjango] raises [AttributeError] at the header,
    whatever the flags: no row has been processed, no call has reached
    storage and the storage is as it was. *)
Theorem todjango_raises_attribute_error_at_header
  (settings : pydict Z) (t : table) (c : pyclass)
  (update create use_bulk_create : bool) (db : database) :
  has_next t = false ->
  issubclass c Model = true ->
  todjango settings t (ClassObj c) update create use_bulk_create db
  = (Raise (mk_exn AttributeError "object has no attribute 'next'"), db).
Proof.
  intros Hnext Hsub. unfold todjango, iterator_next.
  rewrite Hsub, Hnext. reflexivity.
Qed.

Lemma todjango_raises_attribute_error_at_header_witness :
  todjango [] {| has_next := false; t_rows := t_rows people_table |}
           (ClassObj Person) true true true person_db
  = (Raise (mk_exn AttributeError "object has no attribute 'next'"), person_db).
Proof.
  apply (todjango_raises_attribute_error_at_header [] _ Person true true true person_db);
    reflexivity.
Defined.

(** C7, the code at the failing input: [update=True] and a table without
    the primary-key column of [Person]. No assertion fails; the row is
    handed to the bulk insert and the call returns. *)
Theorem todjango_update_without_pk_column_passes :
  fst (todjango [] keyless_table (ClassObj Person) true true true person_db)
  = Ok {| updated := 0; created := 1 |}
  /\ db_rows (snd (todjango [] keyless_table (ClassObj Person) true true true person_db))
     = [alice_row; [("id", VInt 2); ("name", VStr "Bob"); ("age", VInt 25)]].
Proof. split; reflexivity. Qed.

(** ** The value-map step *)

(** C6, the code at the failing input: a value map with a key that is not
    a field of [Person]. [_apply_value_map] stores the attribute and returns
    the instance; on the update path of [todjango], [_will_model_change]
    reads the attribute first and raises a plain [AttributeError]. *)
Theorem apply_value_map_unknown_field_no_error :
  _apply_value_map [(VStr "nickname", VStr "Al")] alice
  = Ok {| i_meta := person_meta; adding := false;
          i_dict := (alice_row ++ [("nickname", VStr "Al")])%list |}
  /\ _will_model_change [(VStr "nickname", VStr "Al")] alice
     = Raise (mk_exn AttributeError "object has no attribute nickname").
Proof. split; reflexivity. Qed.

Lemma dict_get_set_same {V} (d : pydict V) (k : string) (v : V) :
  dict_get (dict_set d k v) k = Some v.
Proof.
  unfold dict_get, dict_set. induction d as [|[k' v'] d IH]; simpl.
  - now rewrite String.eqb_refl.
  - destruct (String.eqb k' k) eqn:E; simpl; rewrite E; [reflexivity | exact IH].
Qed.

Lemma dict_get_set_other {V} (d : pydict V) (k a : string) (v : V) :
  k <> a -> dict_get (dict_set d k v) a = dict_get d a.
Proof.
  intros Hne. unfold dict_get, dict_set. induction d as [|[k' v'] d IH]; simpl.
  - destruct (String.eqb k a) eqn:E; [|reflexivity].
    apply String.eqb_eq in E. contradiction.
  - destruct (String.eqb k' k) eqn:E; simpl.
    + apply String.eqb_eq in E. subst k'.
      destruct (String.eqb k a) eqn:E2; [|reflexivity].
      apply String.eqb_eq in E2. contradiction.
    + destruct (String.eqb k' a); [reflexivity | exact IH].
Qed.

Lemma value_eqb_eq (a b : value) : value_eqb a b = true <-> a = b.
Proof.
  destruct a, b; simpl; split; intros H; try congruence; try discriminate.
  - apply Z.eqb_eq in H. now subst.
  - inversion H. apply Z.eqb_refl.
  - apply String.eqb_eq in H. now subst.
  - inversion H. apply String.eqb_refl.
  - apply andb_prop in H. destruct H as [Hc Hk].
    apply String.eqb_eq in Hc. apply Z.eqb_eq in Hk. now subst.
  - inversion H. now rewrite String.eqb_refl, Z.eqb_refl.
Qed.

Lemma value_eqb_refl (a : value) : value_eqb a a = true.
Proof. now apply value_eqb_eq. Qed.

Lemma value_eqb_neq (a b : value) : value_eqb a b = false <-> a <> b.
Proof.
  rewrite <- value_eqb_eq. destruct (value_eqb a b); split; congruence.
Qed.

Lemma setattr_plain (i : instance) (s : string) (v : value) :
  plain_attribute (i_meta i) (VStr s) = true ->
  setattr i s v = Ok {| i_meta := i_meta i; adding := adding i;
                        i_dict := dict_set (i_dict i) s v |}.
Proof.
  unfold plain_attribute, setattr. intros H.
  apply andb_prop in H. destruct H as [H Hrel].
  apply andb_prop in H. destruct H as [Hpk Hprop].
  apply negb_true_iff in Hpk. rewrite Hpk.
  destruct (dict_get (properties (i_meta i)) s); [discriminate |].
  destruct (relation_of (i_meta i) s); [discriminate | reflexivity].
Qed.





(** On a key that names a relation the function raises as well: [setattr]
    refuses the key of the related record with a [ValueError], which is not
    the exception the function catches. *)
Lemma apply_value_map_relation_raises :
  _apply_value_map [(VStr "title", VStr "Emma"); (VStr "author", VInt 7)] emma
  = Raise (mk_exn ValueError
                  "Cannot assign: must be an instance of library.Author").
Proof. reflexivity. Qed.

(** ** The chunker *)

Section Chunks.
Context {A : Type}.

Lemma slices_succ (w : nat) (l : list A) (n : nat) :
  slices w l (S n) = firstn w l :: slices w (skipn w l) n.
Proof.
  unfold slices. simpl. f_equal.
  rewrite <- seq_shift, map_map. apply map_ext. intros k.
  rewrite skipn_skipn. do 2 f_equal. lia.
Qed.

Lemma slices_concat (w : nat) (n : nat) : forall l : list A,
  (List.length l <= n * w)%nat -> List.concat (slices w l n) = l.
Proof.
  induction n as [|n IH]; intros l Hlen.
  - destruct l; [reflexivity | simpl in Hlen; lia].
  - rewrite slices_succ. simpl. rewrite IH.
    + apply firstn_skipn.
    + rewrite length_skipn. simpl in Hlen. lia.
Qed.

Lemma slices_sizes (w : nat) (n : nat) : forall l : list A,
  (0 < w)%nat -> (n = 0 \/ (n - 1) * w < List.length l)%nat ->
  Forall (fun ch => (0 < List.length ch <= w)%nat) (slices w l n).
Proof.
  induction n as [|n IH]; intros l Hw Hlen.
  - constructor.
  - rewrite slices_succ. constructor.
    + rewrite length_firstn. destruct Hlen as [Hlen|Hlen]; [discriminate|].
      simpl in Hlen. lia.
    + apply IH; [assumption|]. rewrite length_skipn.
      destruct Hlen as [Hlen|Hlen]; [discriminate|].
      destruct n as [|n]; [now left | right].
      simpl in *. rewrite Nat.sub_0_r in *. nia.
Qed.

Lemma py_range_slices (l : list A) (c : Z) :
  0 < c ->
  exists n,
    py_range 0 (Z.of_nat (List.length l)) c
    = Ok (map (fun k => Z.of_nat k * c) (seq 0 n)) /\
    Z.of_nat (List.length l) <= Z.of_nat n * c /\
    (Z.of_nat n - 1) * c < Z.of_nat (List.length l).
Proof.
  intros Hc. unfold py_range, range_len.
  replace (c =? 0) with false by (symmetry; apply Z.eqb_neq; lia).
  replace (0 <? c) with true by (symmetry; apply Z.ltb_lt; lia).
  set (N := Z.of_nat (List.length l)).
  assert (HN : 0 <= N) by (unfold N; lia).
  destruct (0 <? N) eqn:E; simpl.
  - apply Z.ltb_lt in E.
    exists (Z.to_nat ((N - 0 - 1) / c + 1)). split; [reflexivity|].
    replace (N - 0 - 1) with (N - 1) by lia.
    assert (Hq : 0 <= (N - 1) / c) by (apply Z.div_pos; lia).
    rewrite Z2Nat.id by lia.
    pose proof (Z.mul_div_le (N - 1) c Hc).
    pose proof (Z.mul_succ_div_gt (N - 1) c Hc).
    split; nia.
  - apply Z.ltb_ge in E. exists 0%nat.
    replace (c <? 0) with false by (symmetry; apply Z.ltb_ge; lia).
    split; [reflexivity|]. split; lia.
Qed.

Lemma py_slice_nat (l : list A) (k : nat) (c : Z) :
  0 < c ->
  py_slice l (Z.of_nat k * c) (Z.of_nat k * c + c)
  = firstn (Z.to_nat c) (skipn (k * Z.to_nat c) l).
Proof.
  intros Hc. unfold py_slice. f_equal; [f_equal; lia|].
  f_equal. rewrite <- (Z2Nat.id c) at 1 by lia. rewrite <- Nat2Z.inj_mul.
  apply Nat2Z.id.
Qed.

(** For a positive chunk size the slices cut by the loop are non-empty,
    at most [c] long, as many as the ceiling of [N/c], and their
    concatenation is the list. *)
Lemma chunks_of_range (l : list A) (c : Z) :
  0 < c ->
  exists starts,
    py_range 0 (Z.of_nat (List.length l)) c = Ok starts /\
    let chunks := map (fun i => py_slice l i (i + c)) starts in
    List.concat chunks = l /\
    Forall (fun ch => (0 < List.length ch <= Z.to_nat c)%nat) chunks /\
    Z.of_nat (List.length l) <= Z.of_nat (List.length chunks) * c /\
    (Z.of_nat (List.length chunks) - 1) * c < Z.of_nat (List.length l).
Proof.
  intros Hc. destruct (py_range_slices l c Hc) as [n [Hr [Hup Hlo]]].
  eexists. split; [exact Hr|]. cbv zeta.
  rewrite map_map.
  rewrite (map_ext _ (fun k => firstn (Z.to_nat c) (skipn (k * Z.to_nat c) l)))
    by (intros k; apply py_slice_nat; assumption).
  fold (slices (Z.to_nat c) l n).
  assert (Hlen : List.length (slices (Z.to_nat c) l n) = n)
    by (unfold slices; now rewrite length_map, length_seq).
  rewrite Hlen. repeat split; try assumption.
  - apply slices_concat. nia.
  - apply slices_sizes; [lia|].
    destruct n as [|n]; [now left | right].
    simpl. rewrite Nat.sub_0_r. nia.
Qed.
End Chunks.

(** ** Storage calls and the log *)

Lemma insert_row_calls (o : options) (r : pydict value) (db db' : database) (k : value) :
  insert_row o r db = Ok (k, db') ->
  calls db' = calls db /\ integrity db' = integrity db.
Proof.
  unfold insert_row. intros H.
  destruct (_ && negb (is_auto (pk o))); [discriminate|].
  destruct (integrity db (db_rows db) _); [discriminate|].
  destruct (has_pk o (db_rows db) _); [discriminate|].
  inversion H. subst. simpl. auto.
Qed.

Lemma insert_all_calls (o : options) (objs : list instance) :
  forall db db', insert_all o objs db = Ok db' -> calls db' = calls db.
Proof.
  induction objs as [|i objs IH]; simpl; intros db db' H.
  - now inversion H.
  - destruct (record_of i) as [r|e0]; [|discriminate].
    destruct (insert_row o r db) as [[k db1]|e] eqn:E; [|discriminate].
    apply insert_row_calls in E. destruct E as [E _].
    rewrite (IH _ _ H). exact E.
Qed.

Lemma bulk_create_calls (o : options) (objs : list instance) (db : database) :
  calls (snd (bulk_create o objs db)) = (calls db ++ [CallBulkCreate objs])%list.
Proof.
  unfold bulk_create.
  destruct (insert_all o objs (log_call (CallBulkCreate objs) db)) as [db2|e] eqn:E.
  - simpl. now rewrite (insert_all_calls _ _ _ _ E).
  - reflexivity.
Qed.

Lemma update_row_calls (o : options) (k : value) (r : pydict value) (db db' : database) :
  update_row o k r db = Ok db' -> calls db' = calls db.
Proof.
  unfold update_row. destruct (integrity db (db_rows db) r); [discriminate|].
  intros H. inversion H. reflexivity.
Qed.

Lemma save_calls (i : instance) (db : database) :
  calls (snd (save i db)) = (calls db ++ [CallSave i])%list.
Proof.
  unfold save.
  destruct (record_of i) as [r|e0]; [|reflexivity].
  destruct (match row_pk (i_meta i) r with VNone => false | _ => _ end).
  - destruct (update_row _ _ _ _) as [db2|e] eqn:E; simpl; [|reflexivity].
    now rewrite (update_row_calls _ _ _ _ _ E).
  - destruct (insert_row _ _ _) as [[k db2]|e] eqn:E; simpl; [|reflexivity].
    apply insert_row_calls in E. now rewrite (proj1 E).
Qed.

(** The loop of the chunker issues one [bulk_create] per slice, in order,
    and stops at the first one that fails, whose exception it re-raises
    with the slice attached. *)
Lemma bulk_create_loop_calls (o : options) (unsaved : list instance) (c : Z)
  (starts : list Z) :
  forall db,
  let chunks := map (fun i => py_slice unsaved i (i + c)) starts in
  let res := bulk_create_loop o unsaved c starts db in
  exists j, (j <= List.length chunks)%nat /\
    calls (snd res) = (calls db ++ map CallBulkCreate (firstn j chunks))%list /\
    (fst res = Ok tt -> j = List.length chunks) /\
    (forall e, fst res = Raise e ->
       (0 < j)%nat /\
       exists e0 ch db0,
         nth_error chunks (j - 1) = Some ch /\
         fst (bulk_create o ch db0) = Raise e0 /\
         e = set_petl_chunk_data e0 ch /\
         petl_chunk_data e = Some ch).
Proof.
  induction starts as [|i rest IH]; intros db; cbv zeta.
  - exists 0%nat. simpl. repeat split; try lia.
    + now rewrite app_nil_r.
    + discriminate.
    + discriminate.
  - simpl.
    pose proof (bulk_create_calls o (py_slice unsaved i (i + c)) db) as Hlog.
    destruct (bulk_create o (py_slice unsaved i (i + c)) db) as [[u|e] db'] eqn:E;
      simpl in Hlog.
    + destruct (IH db') as [j [Hj [Hc [Hok Hraise]]]]. cbv zeta in *.
      exists (S j). split; [simpl; lia|]. split; [|split].
      * rewrite Hc, Hlog. simpl. now rewrite <- app_assoc.
      * intros H. simpl. f_equal. now apply Hok.
      * intros e H. destruct (Hraise e H) as [Hpos [e0 [ch [db0 [Hn [Hb [He Hd]]]]]]].
        split; [lia|]. exists e0, ch, db0. repeat split; try assumption.
        replace (S j - 1)%nat with (S (j - 1)) by lia. exact Hn.
    + exists 1%nat. split; [simpl; lia|]. split; [|split].
      * simpl. exact Hlog.
      * discriminate.
      * intros e1 H. simpl in H. inversion H. subst e1. split; [lia|].
        exists e, (py_slice unsaved i (i + c)), db. simpl.
        rewrite E. auto.
Qed.

Lemma _get_setting_chunk_size (settings : pydict Z) :
  _get_setting settings "BULK_CREATE_CHUNK_SIZE"
  = Ok (effective_chunk_size settings None).
Proof. reflexivity. Qed.

(** C3. For a positive chunk size [c] (the explicit argument, or the
    setting, or 50) the list of [N] instances is cut into contiguous
    non-empty slices of at most [c] elements whose concatenation is the list
    and whose number is the ceiling of [N/c] (none when [N = 0]).
    [_chunked_bulk_create] issues one bulk-insert call per slice, in order:
    all of them when it returns, so exactly the ceiling of [N/c] calls; on
    failure, that is when a call fails, no further call is issued and the
    exception of that call is re-raised with the slice attached. *)
Theorem chunked_bulk_create_issues_chunks
  (settings : pydict Z) (o : options) (unsaved_models : list instance)
  (chunk_size : option Z) (db : database) :
  0 < effective_chunk_size settings chunk_size ->
  let c := effective_chunk_size settings chunk_size in
  let res := _chunked_bulk_create settings o unsaved_models chunk_size db in
  exists (chunks : list (list instance)) (j : nat),
    List.concat chunks = unsaved_models /\
    Forall (fun ch => (0 < List.length ch <= Z.to_nat c)%nat) chunks /\
    Z.of_nat (List.length unsaved_models) <= Z.of_nat (List.length chunks) * c /\
    (Z.of_nat (List.length chunks) - 1) * c < Z.of_nat (List.length unsaved_models) /\
    (j <= List.length chunks)%nat /\
    calls (snd res) = (calls db ++ map CallBulkCreate (firstn j chunks))%list /\
    (fst res = Ok tt -> j = List.length chunks) /\
    (forall e, fst res = Raise e ->
       (0 < j)%nat /\
       exists e0 ch db0,
         nth_error chunks (j - 1) = Some ch /\
         fst (bulk_create o ch db0) = Raise e0 /\
         e = set_petl_chunk_data e0 ch /\
         petl_chunk_data e = Some ch).
Proof.
  intros Hpos c res.
  destruct (chunks_of_range unsaved_models c Hpos)
    as [starts [Hr [Hcat [Hsz [Hup Hlo]]]]].
  assert (Hres : res = bulk_create_loop o unsaved_models c starts db).
  { unfold res, _chunked_bulk_create.
    destruct chunk_size as [c0|].
    - change c with c0 in Hr. now rewrite Hr.
    - rewrite _get_setting_chunk_size. fold c. now rewrite Hr. }
  destruct (bulk_create_loop_calls o unsaved_models c starts db)
    as [j [Hj [Hc [Hok Hraise]]]]. cbv zeta in *.
  exists (map (fun i => py_slice unsaved_models i (i + c)) starts), j.
  rewrite Hres. repeat split; try assumption.
  - apply (proj1 (Hraise e H)).
  - apply (proj2 (Hraise e H)).
Qed.

Lemma chunked_bulk_create_issues_chunks_witness :
  exists (chunks : list (list instance)) (j : nat),
    List.concat chunks = [bob; carol; bob] /\
    Forall (fun ch => (0 < List.length ch <= 2)%nat) chunks /\
    3 <= Z.of_nat (List.length chunks) * 2 /\
    (Z.of_nat (List.length chunks) - 1) * 2 < 3 /\
    (j <= List.length chunks)%nat /\
    calls (snd (_chunked_bulk_create [] person_meta [bob; carol; bob] (Some 2) person_db))
    = map CallBulkCreate (firstn j chunks) /\
    (fst (_chunked_bulk_create [] person_meta [bob; carol; bob] (Some 2) person_db) = Ok tt ->
     j = List.length chunks) /\
    (forall e,
       fst (_chunked_bulk_create [] person_meta [bob; carol; bob] (Some 2) person_db) = Raise e ->
       (0 < j)%nat /\
       exists e0 ch db0,
         nth_error chunks (j - 1) = Some ch /\
         fst (bulk_create person_meta ch db0) = Raise e0 /\
         e = set_petl_chunk_data e0 ch /\
         petl_chunk_data e = Some ch).
Proof.
  apply (chunked_bulk_create_issues_chunks [] person_meta [bob; carol; bob] (Some 2) person_db).
  reflexivity.
Defined.

(** The failure branch on an example: with two instances and chunk size 1
    on a storage that refuses the first insert, the first call is the last
    one, and its exception carries the slice. *)
Lemma chunked_bulk_create_stops_at_failure :
  calls (snd (_chunked_bulk_create [] person_meta [bob; carol] (Some 1) rejecting_db))
  = [CallBulkCreate [bob]]
  /\ fst (_chunked_bulk_create [] person_meta [bob; carol] (Some 1) rejecting_db)
     = Raise (set_petl_chunk_data (mk_exn DatabaseError "rejected") [bob]).
Proof. split; reflexivity. Qed.

(** ** The write adapter: rows that match no existing instance *)

Section Assoc.
Context {V : Type}.

Lemma assoc_get_none_keys (d : list (value * V)) (k : value) :
  assoc_get value_eqb d k = None <-> ~ In k (map fst d).
Proof.
  induction d as [|[k' v] d IH]; simpl.
  - tauto.
  - destruct (value_eqb k' k) eqn:E.
    + apply value_eqb_eq in E. subst. split; [discriminate | tauto].
    + apply value_eqb_neq in E. rewrite IH. tauto.
Qed.

Lemma assoc_get_some_keys (d : list (value * V)) (k : value) (v : V) :
  assoc_get value_eqb d k = Some v -> In k (map fst d).
Proof.
  induction d as [|[k' v'] d IH]; simpl; [discriminate|].
  destruct (value_eqb k' k) eqn:E.
  - apply value_eqb_eq in E. now left.
  - intros H. right. now apply IH.
Qed.

Lemma assoc_set_keys_present (d : list (value * V)) (k : value) (v : V) :
  In k (map fst d) -> map fst (assoc_set value_eqb d k v) = map fst d.
Proof.
  induction d as [|[k' v'] d IH]; simpl; [tauto|].
  intros Hin. destruct (value_eqb k' k) eqn:E; simpl; [reflexivity|].
  f_equal. apply IH. destruct Hin as [->|Hin]; [|assumption].
  now rewrite value_eqb_refl in E.
Qed.

Lemma assoc_set_keys_incl (d : list (value * V)) (k : value) (v : V) (x : value) :
  In x (map fst (assoc_set value_eqb d k v)) -> x = k \/ In x (map fst d).
Proof.
  induction d as [|[k' v'] d IH]; simpl.
  - intros [<-|[]]. now left.
  - destruct (value_eqb k' k) eqn:E; simpl.
    + tauto.
    + intros [<-|H]; [tauto|]. destruct (IH H); tauto.
Qed.

Lemma assoc_of_pairs_keys_incl (l : list (value * V)) (x : value) :
  In x (map fst (assoc_of_pairs value_eqb l)) -> In x (map fst l).
Proof.
  unfold assoc_of_pairs.
  assert (G : forall acc,
             In x (map fst (fold_left (fun d kv => assoc_set value_eqb d (fst kv) (snd kv)) l acc)) ->
             In x (map fst acc) \/ In x (map fst l)).
  { induction l as [|[k v] l IH]; simpl; intros acc H; [tauto|].
    destruct (IH _ H) as [H1|H1]; [|tauto].
    apply assoc_set_keys_incl in H1. simpl in H1. destruct H1; [subst|]; tauto. }
  intros H. destruct (G [] H) as [[]|]; assumption.
Qed.
End Assoc.

Lemma setattr_adding (i i' : instance) (k : string) (v : value) :
  setattr i k v = Ok i' -> adding i' = adding i /\ i_meta i' = i_meta i.
Proof.
  unfold setattr. destruct (String.eqb k "pk").
  - intros H. inversion H. simpl. auto.
  - destruct (dict_get (properties (i_meta i)) k); [discriminate|].
    destruct (relation_of (i_meta i) k) as [[[f to] null]|].
    + destruct v as [|n|s|cls key]; try discriminate.
      * intros H. inversion H. simpl. auto.
      * destruct (String.eqb cls to); [|discriminate].
        intros H. inversion H. simpl. auto.
    + intros H. inversion H. simpl. auto.
Qed.

Lemma init_fields_adding (fs : list field) :
  forall i kwargs i' rest,
    init_fields i fs kwargs = Ok (i', rest) ->
    adding i' = adding i /\ i_meta i' = i_meta i.
Proof.
  induction fs as [|f fs IH]; simpl; intros i kwargs i' rest H.
  - inversion H. auto.
  - destruct (if is_relation f then dict_get kwargs (name f) else None)
      as [rel_obj|].
    + destruct (setattr i (name f) rel_obj) as [i1|e] eqn:E; simpl in H;
        [|discriminate].
      apply IH in H. apply setattr_adding in E.
      destruct H as [-> ->]. exact E.
    + destruct (dict_get kwargs (attname f)); apply IH in H; exact H.
Qed.

Lemma init_remaining_adding (kwargs : pydict value) :
  forall i i' l, init_remaining i kwargs = Ok (i', l) ->
                 adding i' = adding i /\ i_meta i' = i_meta i.
Proof.
  induction kwargs as [|[k v] kw IH]; simpl; intros i i' l H.
  - inversion H. auto.
  - destruct (String.eqb k "pk" || mem_string k (dict_keys (properties (i_meta i)))
              || mem_string k (field_names (i_meta i))
              || mem_string k (attnames (i_meta i))).
    + destruct (setattr i k v) as [i1|e] eqn:E; simpl in H; [|discriminate].
      apply IH in H. apply setattr_adding in E.
      destruct H as [-> ->]. exact E.
    + destruct (init_remaining i kw) as [[i1 l1]|e] eqn:E; simpl in H; [|discriminate].
      inversion H. subst. now apply IH in E.
Qed.

Lemma new_model_adding (o : options) (value_map : value_map_t) (obj : instance) :
  new_model o value_map = Ok obj -> adding obj = true /\ i_meta obj = o.
Proof.
  unfold new_model, model_init.
  destruct (keywords value_map) as [kw|e]; simpl; [|discriminate].
  destruct (init_fields _ (fields o) kw) as [[i0 rest]|e] eqn:F; simpl;
    [|discriminate].
  destruct (init_remaining i0 rest) as [[i l]|e] eqn:E; simpl; [|discriminate].
  destruct l; [|discriminate]. intros H. inversion H. subst.
  apply init_remaining_adding in E. apply init_fields_adding in F.
  simpl in F. destruct E as [-> ->]. exact F.
Qed.


Lemma create_new_state (o : options) (use_bulk_create : bool)
  (value_map : value_map_t) (st st' : loop_state) (db db' : database) :
  create_new o use_bulk_create value_map st db = (Ok st', db') ->
  existing_model_map st' = existing_model_map st /\
  updated_model_count st' = updated_model_count st /\
  exists obj, new_model o value_map = Ok obj /\ adding obj = true /\
    if use_bulk_create
    then unsaved_models st' = (unsaved_models st ++ [obj])%list /\ db' = db
    else unsaved_models st' = unsaved_models st /\
         exists obj', save obj db = (Ok obj', db').
Proof.
  unfold create_new. intros H.
  destruct (new_model o value_map) as [obj|e] eqn:E; [|discriminate].
  destruct use_bulk_create.
  - inversion H. subst. simpl. repeat split. exists obj.
    repeat split. apply (new_model_adding _ _ _ E).
  - destruct (save obj db) as [[obj'|e] db2] eqn:S; [|discriminate].
    inversion H. subst. repeat split. exists obj.
    repeat split; [apply (new_model_adding _ _ _ E)|].
    exists obj'. exact S.
Qed.






(** ** The write adapter: failures of the storage *)

Lemma wf_options_pk (o : options) :
  wf_options o = true -> mem_string (name (pk o)) (field_names o) = true.
Proof.
  unfold wf_options. intros H.
  repeat (apply andb_prop in H; destruct H as [H ?]). assumption.
Qed.

(** [todjango] past its checks: the loop, then the bulk insert. *)
Lemma todjango_unfold (settings : pydict Z) (t : table) (c : pyclass) (o : options)
  (update create use_bulk_create : bool) (db : database)
  (table_headers : row) (rs : list row) :
  issubclass c Model = true ->
  class_meta c = Some o ->
  wf_options o = true ->
  has_next t = true ->
  t_rows t = table_headers :: rs ->
  todjango settings t (ClassObj c) update create use_bulk_create db =
    match process_rows o update use_bulk_create table_headers rs
                       (initial_state o update db) db with
    | (Raise e, db') => (Raise e, db')
    | (Ok st, db') =>
        let rep := {| updated := updated_model_count st;
                      created := Z.of_nat (List.length (unsaved_models st)) |} in
        if use_bulk_create then
          match _chunked_bulk_create settings o (unsaved_models st) None db' with
          | (Raise e, db'') => (Raise e, db'')
          | (Ok _, db'') => (Ok rep, db'')
          end
        else (Ok rep, db')
    end.
Proof.
  intros Hsub Hmeta Hwf Hnext Hrows. unfold todjango, iterator_next, meta_of.
  rewrite Hsub, Hnext, Hrows, Hmeta. simpl negb. cbv iota.
  unfold _get_model_field_names. fold (field_names o).
  rewrite (wf_options_pk o Hwf). simpl negb. rewrite andb_false_r.
  reflexivity.
Qed.

Lemma process_rows_raise (o : options) (update use_bulk_create : bool)
  (table_headers : row) (before : list row) (r : row) (after : list row) :
  forall st0 db0 st1 db1 e db2,
  process_rows o update use_bulk_create table_headers before st0 db0 = (Ok st1, db1) ->
  process_row o update use_bulk_create table_headers r st1 db1 = (Raise e, db2) ->
  process_rows o update use_bulk_create table_headers (before ++ r :: after) st0 db0
  = (Raise e, db2).
Proof.
  induction before as [|r0 before IH]; simpl; intros st0 db0 st1 db1 e db2 Hb Hr.
  - inversion Hb. subst. now rewrite Hr.
  - destruct (process_row o update use_bulk_create table_headers r0 st0 db0)
      as [[st|e0] db] eqn:E; [|discriminate].
    now apply (IH _ _ _ _ _ _ Hb).
Qed.

(** C8. Inside a call of [todjango] that has passed its checks: (1) when
    the save of a changed existing instance fails, and (2) when the immediate
    save of a new instance fails, the call raises the exception of the save,
    whose attribute [petl_data] now holds the value map of the row; (3) when
    a bulk-insert call fails, the call raises the exception of that call,
    whose attribute [petl_chunk_data] now holds the slice. In each case the
    exception keeps its kind, its message and its other attribute, the
    storage is left as the failing call left it, and the failing call is the
    last one issued. *)
Theorem storage_failures_are_annotated_and_propagated
  (settings : pydict Z) (t : table) (c : pyclass) (o : options)
  (update create use_bulk_create : bool) (db0 : database)
  (table_headers : row) (rs : list row) :
  issubclass c Model = true ->
  class_meta c = Some o ->
  wf_options o = true ->
  has_next t = true ->
  t_rows t = table_headers :: rs ->
  let run := todjango settings t (ClassObj c) update create use_bulk_create db0 in
  let loop := process_rows o update use_bulk_create table_headers in
  (forall before r after st1 db1 obj obj1 e db2,
     rs = (before ++ r :: after)%list ->
     loop before (initial_state o update db0) db0 = (Ok st1, db1) ->
     let value_map := make_value_map table_headers r in
     matched update st1 (row_pk_value o value_map) = Some obj ->
     _will_model_change value_map obj = Ok true ->
     _apply_value_map value_map obj = Ok obj1 ->
     save obj1 db1 = (Raise e, db2) ->
     run = (Raise (set_petl_data e value_map), db2) /\
     petl_data (set_petl_data e value_map) = Some value_map /\
     kind (set_petl_data e value_map) = kind e /\
     msg (set_petl_data e value_map) = msg e /\
     petl_chunk_data (set_petl_data e value_map) = petl_chunk_data e /\
     calls db2 = (calls db1 ++ [CallSave obj1])%list)
  /\
  (forall before r after st1 db1 obj e db2,
     rs = (before ++ r :: after)%list ->
     loop before (initial_state o update db0) db0 = (Ok st1, db1) ->
     let value_map := make_value_map table_headers r in
     matched update st1 (row_pk_value o value_map) = None ->
     use_bulk_create = false ->
     new_model o value_map = Ok obj ->
     save obj db1 = (Raise e, db2) ->
     run = (Raise (set_petl_data e value_map), db2) /\
     petl_data (set_petl_data e value_map) = Some value_map /\
     kind (set_petl_data e value_map) = kind e /\
     msg (set_petl_data e value_map) = msg e /\
     petl_chunk_data (set_petl_data e value_map) = petl_chunk_data e /\
     calls db2 = (calls db1 ++ [CallSave obj])%list)
  /\
  (forall st1 db1 chunk_size starts done i rest db2 e db3,
     loop rs (initial_state o update db0) db0 = (Ok st1, db1) ->
     use_bulk_create = true ->
     _get_setting settings "BULK_CREATE_CHUNK_SIZE" = Ok chunk_size ->
     py_range 0 (Z.of_nat (List.length (unsaved_models st1))) chunk_size = Ok starts ->
     starts = (done ++ i :: rest)%list ->
     bulk_create_loop o (unsaved_models st1) chunk_size done db1 = (Ok tt, db2) ->
     let chunk := py_slice (unsaved_models st1) i (i + chunk_size) in
     bulk_create o chunk db2 = (Raise e, db3) ->
     run = (Raise (set_petl_chunk_data e chunk), db3) /\
     petl_chunk_data (set_petl_chunk_data e chunk) = Some chunk /\
     kind (set_petl_chunk_data e chunk) = kind e /\
     msg (set_petl_chunk_data e chunk) = msg e /\
     petl_data (set_petl_chunk_data e chunk) = petl_data e /\
     calls db3 = (calls db2 ++ [CallBulkCreate chunk])%list).
Proof.
  intros Hsub Hmeta Hwf Hnext Hrows run loop.
  assert (Hrun := todjango_unfold settings t c o update create use_bulk_create db0
                    table_headers rs Hsub Hmeta Hwf Hnext Hrows).
  fold run in Hrun. fold loop in Hrun.
  split; [|split].
  - intros before r after st1 db1 obj obj1 e db2 Hrs Hbefore value_map Hm Hch Hap Hsave.
    assert (Hrow : process_row o update use_bulk_create table_headers r st1 db1
                   = (Raise (set_petl_data e value_map), db2)).
    { unfold process_row. fold value_map. rewrite Hm.
      unfold update_existing. now rewrite Hch, Hap, Hsave. }
    rewrite Hrun, Hrs. unfold loop.
    rewrite (process_rows_raise _ _ _ _ _ _ _ _ _ _ _ _ _ Hbefore Hrow).
    repeat split. pose proof (save_calls obj1 db1) as Hc.
    now rewrite Hsave in Hc.
  - intros before r after st1 db1 obj e db2 Hrs Hbefore value_map Hm Hbulk Hnew Hsave.
    assert (Hrow : process_row o update use_bulk_create table_headers r st1 db1
                   = (Raise (set_petl_data e value_map), db2)).
    { unfold process_row. fold value_map. rewrite Hm.
      unfold create_new. now rewrite Hnew, Hbulk, Hsave. }
    rewrite Hrun, Hrs. unfold loop.
    rewrite (process_rows_raise _ _ _ _ _ _ _ _ _ _ _ _ _ Hbefore Hrow).
    repeat split. pose proof (save_calls obj db1) as Hc.
    now rewrite Hsave in Hc.
  - intros st1 db1 chunk_size starts done i rest db2 e db3
           Hloop Hbulk Hset Hrange Hstarts Hdone chunk Hfail.
    assert (Hl : forall done0 dbi,
               bulk_create_loop o (unsaved_models st1) chunk_size done0 dbi = (Ok tt, db2) ->
               bulk_create_loop o (unsaved_models st1) chunk_size (done0 ++ i :: rest) dbi
               = (Raise (set_petl_chunk_data e chunk), db3)).
    { induction done0 as [|i0 done0 IH]; simpl; intros dbi Hd.
      - inversion Hd. subst. fold chunk. now rewrite Hfail.
      - destruct (bulk_create o _ dbi) as [[u|e0] dbj]; [|discriminate].
        now apply IH. }
    rewrite Hrun, Hloop, Hbulk. cbv zeta.
    unfold _chunked_bulk_create. rewrite Hset, Hrange, Hstarts, (Hl done db1 Hdone).
    repeat split. pose proof (bulk_create_calls o chunk db2) as Hc.
    now rewrite Hfail in Hc.
Qed.

Lemma storage_failures_are_annotated_and_propagated_witness :
  exists e,
    fst (todjango [] keyless_table (ClassObj Person) true true false rejecting_db)
    = Raise e /\
    petl_data e = Some [(VStr "name", VStr "Bob"); (VStr "age", VInt 25)] /\
    kind e = DatabaseError /\ msg e = "rejected".
Proof.
  pose proof (storage_failures_are_annotated_and_propagated
                [] keyless_table Person person_meta true true false rejecting_db
                [VStr "name"; VStr "age"] [[VStr "Bob"; VInt 25]]
                eq_refl eq_refl eq_refl eq_refl eq_refl) as H.
  cbv zeta in H. destruct H as [_ [H _]].
  destruct (H [] [VStr "Bob"; VInt 25] [] (initial_state person_meta true rejecting_db)
              rejecting_db _ _ _ eq_refl eq_refl eq_refl eq_refl eq_refl eq_refl)
    as [Hrun [Hdata [Hkind [Hmsg _]]]].
  eexists. split; [exact (f_equal fst Hrun)|].
  split; [exact Hdata|]. split; [exact Hkind | exact Hmsg].
Defined.


(** ** The write adapter: a second run *)

Lemma dict_get_or_none_set_same (d : pydict value) (k : string) (v : value) :
  dict_get_or_none (dict_set d k v) k = v.
Proof. unfold dict_get_or_none. now rewrite dict_get_set_same. Qed.

Lemma dict_get_or_none_set_other (d : pydict value) (k a : string) (v : value) :
  k <> a -> dict_get_or_none (dict_set d k v) a = dict_get_or_none d a.
Proof. intros H. unfold dict_get_or_none. now rewrite dict_get_set_other. Qed.

Lemma dict_get_none_keys {V} (d : pydict V) (s : string) :
  mem_string s (dict_keys d) = false -> dict_get d s = None.
Proof.
  unfold dict_get, dict_keys. induction d as [|[k v] d IH]; simpl; [reflexivity|].
  intros H. apply orb_false_elim in H. destruct H as [H1 H2].
  rewrite String.eqb_sym, H1. now apply IH.
Qed.

(** A dict built with one entry per field, under distinct keys. *)
Lemma dict_get_by_field (key : field -> string) (h : field -> value)
  (fs : list field) (f : field) :
  NoDup (map key fs) -> In f fs ->
  dict_get (map (fun g => (key g, h g)) fs) (key f) = Some (h f).
Proof.
  unfold dict_get. induction fs as [|g fs IH]; simpl; [tauto|].
  intros Hnd Hin. apply NoDup_cons_iff in Hnd. destruct Hnd as [Hnotin Hnd].
  destruct Hin as [->|Hin].
  - now rewrite String.eqb_refl.
  - destruct (String.eqb (key g) (key f)) eqn:E.
    + apply String.eqb_eq in E. exfalso. apply Hnotin. rewrite E.
      now apply in_map.
    + now apply IH.
Qed.

Lemma nodup_strings_NoDup (l : list string) :
  nodup_strings l = true -> NoDup l.
Proof.
  induction l as [|x l IH]; simpl; intros H; [constructor|].
  apply andb_prop in H. destruct H as [Hx Hl]. constructor.
  - apply negb_true_iff in Hx. now apply mem_string_false in Hx.
  - now apply IH.
Qed.

(** *** Typed columns *)

Lemma stores_unchanged_spec (f : field) (v : value) :
  stores_unchanged f v = true <-> get_prep_value f v = Ok v.
Proof.
  unfold stores_unchanged. split.
  - destruct (get_prep_value f v) as [w|e]; [|discriminate].
    intros H. apply value_eqb_eq in H. now subst.
  - intros ->. apply value_eqb_refl.
Qed.

(** What a column has stored, it stores as it is. *)
Lemma get_prep_value_stored (f : field) (v w : value) :
  get_prep_value f v = Ok w -> stores_unchanged f w = true.
Proof.
  unfold stores_unchanged, get_prep_value.
  destruct (internal_type f); destruct v as [|n|s|cls key]; simpl;
    try discriminate;
    try (intros H; inversion H; subst w; simpl;
         rewrite ?Z.eqb_refl, ?String.eqb_refl; reflexivity);
    destruct (py_int_of_string s); try discriminate;
    intros H; inversion H; subst w; simpl; apply Z.eqb_refl.
Qed.

Lemma auto_key_int (f : field) (n : Z) :
  is_auto f = true -> stores_unchanged f (VInt n) = true.
Proof.
  unfold is_auto, stores_unchanged, get_prep_value.
  destruct (internal_type f); try discriminate. intros _. simpl.
  apply Z.eqb_refl.
Qed.

(** The record an instance is written as holds, under the name of each
    field, what the column stores for the attribute. *)
Lemma prepare_fields_get (d : pydict value) (fs : list field) (f : field) :
  forall r, prepare_fields d fs = Ok r -> NoDup (map name fs) -> In f fs ->
  exists w, get_prep_value f (dict_get_or_none d (attname f)) = Ok w /\
            dict_get r (name f) = Some w.
Proof.
  induction fs as [|g fs IH]; simpl; intros r H Hnd Hin; [destruct Hin|].
  destruct (get_prep_value g _) as [w|e] eqn:G; simpl in H; [|discriminate].
  destruct (prepare_fields d fs) as [r0|e] eqn:P; simpl in H; [|discriminate].
  inversion H. subst r. clear H.
  apply NoDup_cons_iff in Hnd. destruct Hnd as [Hnotin Hnd].
  unfold dict_get. simpl. destruct Hin as [->|Hin].
  - exists w. now rewrite String.eqb_refl.
  - destruct (String.eqb (name g) (name f)) eqn:E.
    + apply String.eqb_eq in E. exfalso. apply Hnotin. rewrite E.
      now apply in_map.
    + now apply (IH r0).
Qed.

Lemma from_db_get (o : options) (rec : pydict value) (f : field) :
  NoDup (attnames o) -> In f (fields o) ->
  dict_get (i_dict (from_db o rec)) (attname f)
  = Some (dict_get_or_none rec (name f)).
Proof.
  intros Hnd Hin. unfold from_db. simpl.
  now apply (dict_get_by_field attname (fun g => dict_get_or_none rec (name g))).
Qed.

Lemma plain_attname (f : field) : is_relation f = false -> attname f = name f.
Proof. unfold attname. now intros ->. Qed.

Lemma find_by_name (fs : list field) (f : field) :
  NoDup (map name fs) -> In f fs ->
  find (fun g => String.eqb (name g) (name f)) fs = Some f.
Proof.
  induction fs as [|g fs IH]; simpl; [tauto|].
  intros Hnd Hin. apply NoDup_cons_iff in Hnd. destruct Hnd as [Hnotin Hnd].
  destruct Hin as [->|Hin].
  - now rewrite String.eqb_refl.
  - destruct (String.eqb (name g) (name f)) eqn:E.
    + apply String.eqb_eq in E. exfalso. apply Hnotin. rewrite E.
      now apply in_map.
    + now apply IH.
Qed.

Lemma field_eqb_eq (f g : field) : field_eqb f g = true -> f = g.
Proof.
  unfold field_eqb. intros H.
  apply andb_prop in H. destruct H as [H Ht].
  apply andb_prop in H. destruct H as [H Hd].
  apply andb_prop in H. destruct H as [Hn Hc].
  apply String.eqb_eq in Hn, Hc. apply value_eqb_eq in Hd.
  destruct f as [n1 c1 d1 t1], g as [n2 c2 d2 t2]. simpl in *. subst.
  f_equal. destruct t1 as [| | |to1 null1], t2 as [| | |to2 null2];
    try discriminate; try reflexivity.
  simpl in Ht. apply andb_prop in Ht. destruct Ht as [Hto Hnull].
  apply String.eqb_eq in Hto. apply Bool.eqb_prop in Hnull. now subst.
Qed.

Lemma NoDup_map_inj_in {A B} (f : A -> B) (l : list A) (a b : A) :
  NoDup (map f l) -> In a l -> In b l -> f a = f b -> a = b.
Proof.
  induction l as [|x l IH]; simpl; [tauto|].
  intros Hnd Ha Hb Heq. apply NoDup_cons_iff in Hnd. destruct Hnd as [Hnotin Hnd].
  destruct Ha as [->|Ha], Hb as [->|Hb]; try reflexivity.
  - exfalso. apply Hnotin. rewrite Heq. now apply in_map.
  - exfalso. apply Hnotin. rewrite <- Heq. now apply in_map.
  - now apply IH.
Qed.

Section Idempotence.
Variable o : options.
Hypothesis Hwf : wf_options o = true.
Hypothesis Hattrs : wf_attributes o = true.

Lemma names_nodup : NoDup (field_names o).
Proof.
  unfold wf_options in Hwf.
  repeat (apply andb_prop in Hwf; destruct Hwf as [Hwf ?]).
  now apply nodup_strings_NoDup.
Qed.

Lemma attnames_nodup : NoDup (attnames o).
Proof.
  unfold wf_attributes in Hattrs.
  repeat (apply andb_prop in Hattrs; destruct Hattrs as [Hattrs ?]).
  now apply nodup_strings_NoDup.
Qed.

Lemma pk_in_fields : In (pk o) (fields o).
Proof.
  unfold wf_attributes in Hattrs.
  apply andb_prop in Hattrs. destruct Hattrs as [_ H].
  apply existsb_exists in H. destruct H as [f [Hin Heq]].
  apply field_eqb_eq in Heq. now subst.
Qed.

Lemma pk_is_field : In (name (pk o)) (field_names o).
Proof. apply mem_string_In. now apply wf_options_pk. Qed.

Lemma plain_field (s : string) :
  In s (plain_field_names o) ->
  exists f, In f (fields o) /\ name f = s /\ is_relation f = false.
Proof.
  unfold plain_field_names. intros H. apply in_map_iff in H.
  destruct H as [f [Hs Hin]]. apply filter_In in Hin. destruct Hin as [Hin Hrel].
  apply negb_true_iff in Hrel. now exists f.
Qed.

Lemma plain_field_declared (s : string) :
  In s (plain_field_names o) -> In s (field_names o).
Proof.
  intros H. destruct (plain_field s H) as [f [Hin [<- _]]].
  now apply in_map.
Qed.

Lemma field_is_plain (s : string) :
  In s (plain_field_names o) -> plain_attribute o (VStr s) = true.
Proof.
  intros Hplain. pose proof (plain_field_declared s Hplain) as Hin.
  destruct (plain_field s Hplain) as [f [Hf [Hname Hrel]]].
  pose proof names_nodup as Hnames.
  unfold wf_options in Hwf.
  apply andb_prop in Hwf. destruct Hwf as [H1 Hprops].
  apply andb_prop in H1. destruct H1 as [_ Hpk].
  apply negb_true_iff, mem_string_false in Hpk.
  rewrite forallb_forall in Hprops. specialize (Hprops s Hin).
  apply negb_true_iff in Hprops.
  unfold plain_attribute. rewrite (dict_get_none_keys _ _ Hprops).
  replace (relation_of o s) with (@None (field * string * bool)).
  - rewrite !andb_true_r. apply negb_true_iff. apply String.eqb_neq.
    intros ->. contradiction.
  - unfold relation_of. rewrite <- Hname.
    rewrite (find_by_name (fields o) f Hnames Hf).
    unfold is_relation in Hrel. now destruct (internal_type f).
Qed.

(** The primary key is not a relation and has no default: a new instance
    has the key its row supplies, or none. *)
Hypothesis Hpk_plain : is_relation (pk o) = false.
Hypothesis Hpk_default :
  forall f, In f (fields o) -> name f = name (pk o) -> default f = VNone.

Lemma pk_attname : attname (pk o) = name (pk o).
Proof. apply plain_attname, Hpk_plain. Qed.

Lemma pk_val_from_db (rec : pydict value) :
  pk_val (from_db o rec) = row_pk o rec.
Proof.
  unfold pk_val, dict_get_or_none at 1.
  change (i_meta (from_db o rec)) with o.
  now rewrite (from_db_get o rec (pk o) attnames_nodup pk_in_fields).
Qed.

Lemma record_of_get (i : instance) (r : pydict value) (f : field) :
  i_meta i = o -> record_of i = Ok r -> In f (fields o) ->
  exists w, get_prep_value f (dict_get_or_none (i_dict i) (attname f)) = Ok w /\
            dict_get_or_none r (name f) = w.
Proof.
  intros Hm Hr Hf. unfold record_of in Hr. rewrite Hm in Hr.
  destruct (prepare_fields_get _ _ f _ Hr names_nodup Hf) as [w [Hw Hget]].
  exists w. split; [assumption|]. unfold dict_get_or_none. now rewrite Hget.
Qed.

(** A record that has been written holds values of its columns. *)
Lemma record_of_typed (i : instance) (r : pydict value) :
  i_meta i = o -> record_of i = Ok r -> typed_record o r = true.
Proof.
  intros Hm Hr. unfold typed_record. apply forallb_forall. intros f Hf.
  destruct (record_of_get i r f Hm Hr Hf) as [w [Hw <-]].
  now apply (get_prep_value_stored f _ _ Hw).
Qed.

Lemma row_pk_record_of (i : instance) (r : pydict value) :
  i_meta i = o -> record_of i = Ok r ->
  get_prep_value (pk o) (pk_val i) = Ok (row_pk o r).
Proof.
  intros Hm Hr. destruct (record_of_get i r (pk o) Hm Hr pk_in_fields) as [w [Hw Hget]].
  unfold pk_val, row_pk. now rewrite Hm, Hget.
Qed.

Lemma row_pk_record_typed (i : instance) (r : pydict value) :
  i_meta i = o -> record_of i = Ok r ->
  stores_unchanged (pk o) (pk_val i) = true ->
  row_pk o r = pk_val i.
Proof.
  intros Hm Hr Hty. apply stores_unchanged_spec in Hty.
  pose proof (row_pk_record_of i r Hm Hr) as H. congruence.
Qed.

Lemma getattr_field (i : instance) (s : string) :
  i_meta i = o -> In s (plain_field_names o) ->
  getattr i s = match dict_get (i_dict i) s with
                | Some v => Ok v
                | None => Raise (mk_exn AttributeError ("object has no attribute " ++ s))
                end.
Proof.
  intros Hm Hin. pose proof (field_is_plain s Hin) as Hp.
  unfold plain_attribute in Hp.
  apply andb_prop in Hp. destruct Hp as [Hp Hrel].
  apply andb_prop in Hp. destruct Hp as [Hpk Hprop].
  apply negb_true_iff in Hpk. unfold getattr. rewrite Hm, Hpk.
  destruct (dict_get (properties o) s); [discriminate|].
  destruct (relation_of o s); [discriminate | reflexivity].
Qed.

Lemma assoc_get_In {V} (d : list (value * V)) (k : value) (v : V) :
  assoc_get value_eqb d k = Some v -> In (k, v) d.
Proof.
  induction d as [|[k' v'] d IH]; simpl; [discriminate|].
  destruct (value_eqb k' k) eqn:E.
  - apply value_eqb_eq in E. intros H. inversion H. subst. now left.
  - intros H. right. now apply IH.
Qed.

Lemma In_assoc_get {V} (d : list (value * V)) (k : value) (v : V) :
  NoDup (map fst d) -> In (k, v) d -> assoc_get value_eqb d k = Some v.
Proof.
  induction d as [|[k' v'] d IH]; simpl; [tauto|].
  intros Hnd Hin. inversion Hnd as [|? ? Hnotin Hnd']; subst.
  destruct Hin as [Heq|Hin].
  - inversion Heq. subst. now rewrite value_eqb_refl.
  - destruct (value_eqb k' k) eqn:E.
    + apply value_eqb_eq in E. subst. exfalso. apply Hnotin.
      apply in_map_iff. now exists (k, v).
    + now apply IH.
Qed.

Lemma assoc_set_keys_absent {V} (d : list (value * V)) (k : value) (v : V) :
  ~ In k (map fst d) ->
  map fst (assoc_set value_eqb d k v) = (map fst d ++ [k])%list.
Proof.
  induction d as [|[k' v'] d IH]; simpl; [reflexivity|].
  intros Hnotin. destruct (value_eqb k' k) eqn:E.
  - apply value_eqb_eq in E. tauto.
  - simpl. f_equal. apply IH. tauto.
Qed.

Lemma assoc_set_nodup {V} (d : list (value * V)) (k : value) (v : V) :
  NoDup (map fst d) -> NoDup (map fst (assoc_set value_eqb d k v)).
Proof.
  intros Hnd. destruct (assoc_get value_eqb d k) eqn:G.
  - rewrite assoc_set_keys_present; [assumption|].
    now apply assoc_get_some_keys in G.
  - apply assoc_get_none_keys in G. rewrite assoc_set_keys_absent by assumption.
    apply NoDup_app; [assumption | repeat constructor; simpl; tauto |].
    intros x Hx [<-|[]]. contradiction.
Qed.

Lemma assoc_of_pairs_nodup {V} (l : list (value * V)) :
  NoDup (map fst (assoc_of_pairs value_eqb l)).
Proof.
  unfold assoc_of_pairs.
  assert (G : forall acc, NoDup (map fst acc) ->
               NoDup (map fst (fold_left
                 (fun d kv => assoc_set value_eqb d (fst kv) (snd kv)) l acc))).
  { induction l as [|[k v] l IH]; simpl; intros acc H; [assumption|].
    apply IH. now apply assoc_set_nodup. }
  apply G. constructor.
Qed.

Lemma assoc_get_set_same {V} (d : list (value * V)) (k : value) (v : V) :
  assoc_get value_eqb (assoc_set value_eqb d k v) k = Some v.
Proof.
  induction d as [|[k' v'] d IH]; simpl.
  - now rewrite value_eqb_refl.
  - destruct (value_eqb k' k) eqn:E; simpl; rewrite E; [reflexivity | exact IH].
Qed.

Lemma assoc_get_set_other {V} (d : list (value * V)) (k a : value) (v : V) :
  k <> a ->
  assoc_get value_eqb (assoc_set value_eqb d k v) a = assoc_get value_eqb d a.
Proof.
  intros Hne. induction d as [|[k' v'] d IH]; simpl.
  - apply value_eqb_neq in Hne. now rewrite Hne.
  - destruct (value_eqb k' k) eqn:E; simpl.
    + apply value_eqb_eq in E. subst k'.
      apply value_eqb_neq in Hne. now rewrite Hne.
    + destruct (value_eqb k' a); [reflexivity | exact IH].
Qed.

Variable hs : list string.
Hypothesis Hhs : forall h, In h hs -> In h (plain_field_names o).

Lemma value_map_field_keys (r : row) :
  field_keys o (make_value_map (map VStr hs) r).
Proof.
  intros k v Hin. unfold make_value_map in Hin.
  assert (Hk : In k (map fst (assoc_of_pairs value_eqb (combine (map VStr hs) r))))
    by (apply in_map_iff; now exists (k, v)).
  apply assoc_of_pairs_keys_incl in Hk. apply in_map_iff in Hk.
  destruct Hk as [[k' v'] [Hfst Hin']]. simpl in Hfst. subst k'.
  apply in_combine_l in Hin'. apply in_map_iff in Hin'.
  destruct Hin' as [s [<- Hs]]. exists s. split; [reflexivity|]. now apply Hhs.
Qed.

Lemma value_map_nodup (r : row) :
  NoDup (map fst (make_value_map (map VStr hs) r)).
Proof. apply assoc_of_pairs_nodup. Qed.

(** A cell under the name of a field is a value of the field's column. *)
Lemma typed_cells_get (value_map : value_map_t) (f : field) (v : value) :
  typed_cells o value_map = true ->
  In (VStr (name f), v) value_map -> In f (fields o) ->
  stores_unchanged f v = true.
Proof.
  unfold typed_cells. intros H Hin Hf.
  rewrite forallb_forall in H. specialize (H _ Hin).
  rewrite forallb_forall in H. specialize (H f Hf). simpl in H.
  now rewrite String.eqb_refl in H.
Qed.

(** The key a row supplies is a value of the key's column. *)
Lemma typed_cells_key (value_map : value_map_t) :
  typed_cells o value_map = true ->
  row_pk_value o value_map <> VNone ->
  stores_unchanged (pk o) (row_pk_value o value_map) = true.
Proof.
  intros Hty Hne. unfold row_pk_value in *.
  destruct (assoc_get value_eqb value_map (VStr (name (pk o)))) as [v|] eqn:G;
    [|contradiction].
  apply assoc_get_In in G.
  exact (typed_cells_get value_map (pk o) v Hty G pk_in_fields).
Qed.

(** [_will_model_change] answers [False] exactly when the instance holds
    every value of the map. *)
Lemma will_model_change_false (value_map : value_map_t) (obj : instance) :
  i_meta obj = o -> field_keys o value_map ->
  _will_model_change value_map obj = Ok false ->
  forall k v, In (k, v) value_map ->
              exists s, k = VStr s /\ dict_get (i_dict obj) s = Some v.
Proof.
  intros Hm. induction value_map as [|[k0 v0] vm IH]; intros Hfk H k v Hin;
    [destruct Hin|].
  assert (Hfk' : field_keys o vm) by (intros k1 v1 H1; apply (Hfk k1 v1); now right).
  destruct (Hfk k0 v0 (or_introl eq_refl)) as [s0 [-> Hs0]].
  simpl in H. rewrite (getattr_field obj s0 Hm Hs0) in H.
  destruct (dict_get (i_dict obj) s0) as [a|] eqn:G; simpl in H; [|discriminate].
  destruct (value_eqb a v0) eqn:E; simpl in H; [|discriminate].
  apply value_eqb_eq in E. subst a.
  destruct Hin as [Heq|Hin].
  - inversion Heq. subst k v. exists s0. auto.
  - now apply (IH Hfk' H).
Qed.

Lemma will_model_change_holds (value_map : value_map_t) (obj : instance) :
  i_meta obj = o -> field_keys o value_map ->
  (forall k v, In (k, v) value_map ->
               exists s, k = VStr s /\ dict_get (i_dict obj) s = Some v) ->
  _will_model_change value_map obj = Ok false.
Proof.
  intros Hm. induction value_map as [|[k0 v0] vm IH]; intros Hfk H; [reflexivity|].
  assert (Hfk' : field_keys o vm) by (intros k1 v1 H1; apply (Hfk k1 v1); now right).
  destruct (Hfk k0 v0 (or_introl eq_refl)) as [s0 [-> Hs0]].
  destruct (H (VStr s0) v0 (or_introl eq_refl)) as [s [Heq Hget]].
  inversion Heq. subst s.
  simpl. rewrite (getattr_field obj s0 Hm Hs0), Hget. simpl.
  rewrite value_eqb_refl. simpl. apply IH; [assumption|].
  intros k v Hin. apply H. now right.
Qed.

(** [_apply_value_map] on a value map of field names. *)
Lemma apply_value_map_fields (value_map : value_map_t) :
  forall obj obj1,
  i_meta obj = o -> field_keys o value_map -> NoDup (map fst value_map) ->
  _apply_value_map value_map obj = Ok obj1 ->
  i_meta obj1 = o /\
  forall a, dict_get (i_dict obj1) a =
            match assoc_get value_eqb value_map (VStr a) with
            | Some v => Some v
            | None => dict_get (i_dict obj) a
            end.
Proof.
  induction value_map as [|[k0 v0] vm IH]; intros obj obj1 Hm Hfk Hnd H.
  - simpl in H. inversion H. subst. auto.
  - assert (Hfk' : field_keys o vm) by (intros k1 v1 H1; apply (Hfk k1 v1); now right).
    destruct (Hfk k0 v0 (or_introl eq_refl)) as [s0 [-> Hs0]].
    simpl in Hnd. apply NoDup_cons_iff in Hnd. destruct Hnd as [Hnotin Hnd'].
    simpl in H. rewrite setattr_plain in H
      by (rewrite Hm; now apply field_is_plain).
    apply IH in H; try assumption. simpl in H.
    destruct H as [Hm1 Hd]. split; [assumption|].
    intros a. rewrite Hd. simpl.
    destruct (String.eqb s0 a) eqn:E.
    + apply String.eqb_eq in E. subst a.
      destruct (assoc_get value_eqb vm (VStr s0)) eqn:G.
      * apply assoc_get_some_keys in G. contradiction.
      * apply dict_get_set_same.
    + destruct (assoc_get value_eqb vm (VStr a)); [reflexivity|].
      apply dict_get_set_other. intros ->. now rewrite String.eqb_refl in E.
Qed.

(** The instance built from a value map of field names. *)
Lemma keywords_get (value_map : value_map_t) :
  forall kw, keywords value_map = Ok kw ->
  forall s, dict_get kw s = assoc_get value_eqb value_map (VStr s).
Proof.
  induction value_map as [|[k0 v0] vm IH]; simpl; intros kw H s.
  - inversion H. reflexivity.
  - destruct k0 as [|n|s0|cls key]; try discriminate.
    destruct (keywords vm) as [kw'|e]; simpl in H; [|discriminate].
    inversion H. subst kw. unfold dict_get. simpl.
    destruct (String.eqb s0 s); [reflexivity|]. apply (IH kw' eq_refl).
Qed.

Lemma keywords_keys (value_map : value_map_t) :
  forall kw, keywords value_map = Ok kw ->
  forall k v, In (k, v) kw -> In (VStr k, v) value_map.
Proof.
  induction value_map as [|[k0 v0] vm IH]; simpl; intros kw H k v Hin.
  - inversion H. subst kw. destruct Hin.
  - destruct k0 as [|n|s0|cls key]; try discriminate.
    destruct (keywords vm) as [kw'|e]; simpl in H; [|discriminate].
    inversion H. subst kw. destruct Hin as [Heq|Hin].
    + inversion Heq. subst k v. now left.
    + right. now apply (IH kw' eq_refl).
Qed.

Lemma keywords_nodup (value_map : value_map_t) :
  forall kw, keywords value_map = Ok kw ->
  NoDup (map fst value_map) -> NoDup (map fst kw).
Proof.
  induction value_map as [|[k0 v0] vm IH]; simpl; intros kw H Hnd.
  - inversion H. constructor.
  - destruct k0 as [|n|s0|cls key]; try discriminate.
    destruct (keywords vm) as [kw'|e] eqn:K; simpl in H; [|discriminate].
    inversion H. subst kw. simpl.
    apply NoDup_cons_iff in Hnd. destruct Hnd as [Hnotin Hnd].
    constructor; [|now apply IH].
    intros Hin. apply Hnotin. apply in_map_iff in Hin.
    destruct Hin as [[k v] [Hk Hin]]. simpl in Hk. subst k.
    apply (keywords_keys _ _ K) in Hin.
    apply in_map_iff. now exists (VStr s0, v).
Qed.

Lemma dict_get_In {V} (d : pydict V) (k : string) (v : V) :
  dict_get d k = Some v -> In (k, v) d.
Proof.
  unfold dict_get. induction d as [|[k' v'] d IH]; simpl; [discriminate|].
  destruct (String.eqb k' k) eqn:E.
  - apply String.eqb_eq in E. intros H. inversion H. subst. now left.
  - intros H. right. now apply IH.
Qed.

Lemma dict_get_absent {V} (d : pydict V) (k : string) :
  dict_get d k = None -> ~ In k (map fst d).
Proof.
  unfold dict_get. induction d as [|[k' v'] d IH]; simpl; [tauto|].
  destruct (String.eqb k' k) eqn:E; [discriminate|].
  intros H [Heq|Hin]; [|now apply IH].
  subst. now rewrite String.eqb_refl in E.
Qed.

Lemma dict_del_In {V} (d : pydict V) (k a : string) (v : V) :
  In (a, v) (dict_del d k) -> In (a, v) d.
Proof.
  induction d as [|[k' v'] d IH]; simpl; [tauto|].
  destruct (String.eqb k' k); simpl; [tauto|].
  intros [H|H]; [now left | right; now apply IH].
Qed.

Lemma dict_del_removes {V} (d : pydict V) (k : string) :
  NoDup (map fst d) -> ~ In k (map fst (dict_del d k)).
Proof.
  induction d as [|[k' v'] d IH]; simpl; [tauto|].
  intros Hnd. apply NoDup_cons_iff in Hnd. destruct Hnd as [Hnotin Hnd].
  destruct (String.eqb k' k) eqn:E; simpl.
  - apply String.eqb_eq in E. now subst.
  - intros [H|H]; [|now apply IH].
    subst. now rewrite String.eqb_refl in E.
Qed.

Lemma dict_del_nodup {V} (d : pydict V) (k : string) :
  NoDup (map fst d) -> NoDup (map fst (dict_del d k)).
Proof.
  induction d as [|[k' v'] d IH]; simpl; [tauto|].
  intros Hnd. apply NoDup_cons_iff in Hnd. destruct Hnd as [Hnotin Hnd].
  destruct (String.eqb k' k); simpl; [assumption|].
  constructor; [|now apply IH].
  intros Hin. apply Hnotin. apply in_map_iff in Hin.
  destruct Hin as [[a v] [Ha Hin]]. simpl in Ha. subst a.
  apply dict_del_In in Hin. apply in_map_iff. now exists (k', v).
Qed.

Lemma dict_get_del_other {V} (d : pydict V) (k a : string) :
  k <> a -> dict_get (dict_del d k) a = dict_get d a.
Proof.
  intros Hne. unfold dict_get. induction d as [|[k' v'] d IH]; simpl; [reflexivity|].
  destruct (String.eqb k' k) eqn:E; simpl.
  - apply String.eqb_eq in E. subst k'.
    destruct (String.eqb k a) eqn:E2; [|reflexivity].
    apply String.eqb_eq in E2. contradiction.
  - destruct (String.eqb k' a); [reflexivity | exact IH].
Qed.

Lemma dict_get_del_none {V} (d : pydict V) (k a : string) :
  dict_get d a = None -> dict_get (dict_del d k) a = None.
Proof.
  intros H. destruct (dict_get (dict_del d k) a) as [v|] eqn:G; [|reflexivity].
  apply dict_get_In, dict_del_In in G. apply dict_get_absent in H.
  exfalso. apply H. apply in_map_iff. now exists (a, v).
Qed.

(** The loop of the constructor over the fields, when no keyword names a
    relation: every field takes the keyword of its attribute or its default,
    and the keywords left are those of no field. *)
Lemma init_fields_plain (fs : list field) :
  forall i kw,
  NoDup (map fst kw) -> NoDup (map attname fs) ->
  (forall f, In f fs -> is_relation f = true -> dict_get kw (name f) = None) ->
  exists i' kw',
    init_fields i fs kw = Ok (i', kw') /\
    i_meta i' = i_meta i /\ adding i' = adding i /\
    (forall f, In f fs ->
       dict_get (i_dict i') (attname f)
       = Some (match dict_get kw (attname f) with
               | Some v => v
               | None => default f
               end)) /\
    (forall a, ~ In a (map attname fs) ->
               dict_get (i_dict i') a = dict_get (i_dict i) a) /\
    (forall k v, In (k, v) kw' -> In (k, v) kw /\ ~ In k (map attname fs)).
Proof.
  induction fs as [|f fs IH]; intros i kw Hkw Hnd Hrel.
  - exists i, kw. simpl. repeat split; auto; tauto.
  - simpl in Hnd. apply NoDup_cons_iff in Hnd. destruct Hnd as [Hnotin Hnd].
    simpl.
    replace (if is_relation f then dict_get kw (name f) else None)
      with (@None value).
    2:{ destruct (is_relation f) eqn:R; [|reflexivity].
        symmetry. apply Hrel; [now left | assumption]. }
    destruct (dict_get kw (attname f)) as [val|] eqn:G.
    + destruct (IH (set_attribute i (attname f) val) (dict_del kw (attname f)))
        as [i' [kw' [Hinit [Hm [Ha [Hfs [Hother Hleft]]]]]]].
      * now apply dict_del_nodup.
      * assumption.
      * intros g Hg Hr. apply dict_get_del_none. apply Hrel; [now right | assumption].
      * exists i', kw'. split; [assumption|]. simpl in Hm, Ha.
        split; [assumption|]. split; [assumption|]. split; [|split].
        -- intros g [<-|Hg].
           ++ rewrite (Hother _ Hnotin). simpl. rewrite G. apply dict_get_set_same.
           ++ rewrite (Hfs g Hg). rewrite dict_get_del_other; [reflexivity|].
              intros Heq. apply Hnotin. rewrite Heq. now apply in_map.
        -- intros a Hna. simpl in Hna. rewrite Hother by tauto. simpl.
           apply dict_get_set_other. tauto.
        -- intros k v Hin. destruct (Hleft k v Hin) as [Hin' Hnot].
           split; [now apply dict_del_In in Hin'|].
           simpl. intros [Heq|Hc]; [|contradiction].
           subst k. apply (dict_del_removes kw (attname f) Hkw).
           apply in_map_iff. now exists (attname f, v).
    + destruct (IH (set_attribute i (attname f) (default f)) kw)
        as [i' [kw' [Hinit [Hm [Ha [Hfs [Hother Hleft]]]]]]].
      * assumption.
      * assumption.
      * intros g Hg Hr. apply Hrel; [now right | assumption].
      * exists i', kw'. split; [assumption|]. simpl in Hm, Ha.
        split; [assumption|]. split; [assumption|]. split; [|split].
        -- intros g [<-|Hg].
           ++ rewrite (Hother _ Hnotin). simpl. rewrite G. apply dict_get_set_same.
           ++ apply (Hfs g Hg).
        -- intros a Hna. simpl in Hna. rewrite Hother by tauto. simpl.
           apply dict_get_set_other. tauto.
        -- intros k v Hin. destruct (Hleft k v Hin) as [Hin' Hnot].
           split; [assumption|].
           simpl. intros [Heq|Hc]; [|contradiction].
           subst k. apply (dict_get_absent _ _ G).
           apply in_map_iff. now exists (attname f, v).
Qed.

Lemma new_model_fields (value_map : value_map_t) (obj : instance) :
  field_keys o value_map -> NoDup (map fst value_map) ->
  new_model o value_map = Ok obj ->
  i_meta obj = o /\ adding obj = true /\
  pk_val obj = row_pk_value o value_map /\
  forall k v, In (k, v) value_map ->
              exists s, k = VStr s /\ dict_get_or_none (i_dict obj) s = v.
Proof.
  intros Hfk Hnd H. unfold new_model in H.
  destruct (keywords value_map) as [kw|e] eqn:K; simpl in H; [|discriminate].
  unfold model_init in H.
  assert (Hplain : forall k v, In (k, v) kw -> In k (plain_field_names o)).
  { intros k v Hin. apply (keywords_keys _ _ K) in Hin.
    destruct (Hfk _ _ Hin) as [s [Heq Hs]]. inversion Heq. now subst. }
  destruct (init_fields_plain (fields o)
              {| i_meta := o; adding := true; i_dict := [] |} kw)
    as [i' [kw' [Hinit [Hm [Ha [Hfs [_ Hleft]]]]]]].
  - now apply (keywords_nodup _ _ K).
  - exact attnames_nodup.
  - intros f Hf Hr. destruct (dict_get kw (name f)) as [v|] eqn:G; [|reflexivity].
    apply dict_get_In, Hplain in G. destruct (plain_field _ G) as [g [Hg [Hname Hrg]]].
    assert (g = f)
      by (apply (NoDup_map_inj_in name (fields o)); auto using names_nodup).
    subst g. congruence.
  - rewrite Hinit in H. simpl in H.
    assert (kw' = []).
    { destruct kw' as [|[k v] kw'']; [reflexivity|]. exfalso.
      destruct (Hleft k v (or_introl eq_refl)) as [Hin Hnot].
      apply Hplain in Hin. destruct (plain_field _ Hin) as [g [Hg [Hname Hrg]]].
      apply Hnot. rewrite <- Hname, <- (plain_attname g Hrg). now apply in_map. }
    subst kw'. simpl in H. inversion H. subst obj. clear H.
    simpl in Hm, Ha. split; [assumption|]. split; [assumption|]. split.
    + unfold pk_val, row_pk_value, dict_get_or_none. rewrite Hm.
      rewrite (Hfs (pk o) pk_in_fields), pk_attname.
      rewrite (keywords_get _ _ K).
      destruct (assoc_get value_eqb value_map (VStr (name (pk o)))); [reflexivity|].
      apply Hpk_default; [apply pk_in_fields | reflexivity].
    + intros k v Hin. destruct (Hfk _ _ Hin) as [s [-> Hs]].
      exists s. split; [reflexivity|].
      destruct (plain_field _ Hs) as [g [Hg [Hname Hrg]]].
      apply In_assoc_get in Hin; [|assumption].
      rewrite <- (keywords_get _ _ K) in Hin.
      unfold dict_get_or_none.
      rewrite <- Hname, <- (plain_attname g Hrg), (Hfs g Hg).
      rewrite (plain_attname g Hrg), Hname. now rewrite Hin.
Qed.

(** What the storage calls do to the stored records. *)
Lemma has_pk_In (rs : list (pydict value)) (k : value) :
  has_pk o rs k = true <-> In k (map (row_pk o) rs).
Proof.
  unfold has_pk. rewrite existsb_exists. split.
  - intros [r [Hin Heq]]. apply value_eqb_eq in Heq. subst k.
    now apply in_map.
  - intros Hin. apply in_map_iff in Hin. destruct Hin as [r [Heq Hin]].
    exists r. split; [assumption|]. now apply value_eqb_eq.
Qed.

(** A record that takes an automatic key keeps the types of its columns. *)
Lemma typed_record_auto_key (r : pydict value) (n : Z) :
  is_auto (pk o) = true ->
  typed_record o r = true ->
  typed_record o (dict_set r (name (pk o)) (VInt n)) = true.
Proof.
  unfold typed_record. rewrite !forallb_forall. intros Hauto H f Hf.
  destruct (String.eqb (name (pk o)) (name f)) eqn:E.
  - apply String.eqb_eq in E.
    assert (f = pk o)
      by (apply (NoDup_map_inj_in name (fields o));
          auto using names_nodup, pk_in_fields).
    subst f. rewrite dict_get_or_none_set_same. now apply auto_key_int.
  - rewrite dict_get_or_none_set_other; [now apply H|].
    intros Heq. now rewrite Heq, String.eqb_refl in E.
Qed.

Lemma insert_row_spec (r : pydict value) (db db1 : database) (k : value) :
  insert_row o r db = Ok (k, db1) ->
  exists r', db_rows db1 = (db_rows db ++ [r'])%list /\
             row_pk o r' = k /\ k <> VNone /\ ~ In k (pks o db) /\
             (row_pk o r <> VNone -> r' = r) /\
             (typed_record o r = true -> typed_record o r' = true).
Proof.
  unfold insert_row. intros H.
  set (auto := match row_pk o r with VNone => true | _ => false end) in H.
  destruct (auto && negb (is_auto (pk o))) eqn:Hauto; [discriminate|].
  set (r' := if auto then dict_set r (name (pk o)) (VInt (next_pk db)) else r) in H.
  destruct (integrity db (db_rows db) r'); [discriminate|].
  destruct (has_pk o (db_rows db) (row_pk o r')) eqn:Hhas; [discriminate|].
  inversion H. clear H. simpl. exists r'.
  split; [reflexivity|]. split; [reflexivity|].
  assert (Hfresh : ~ In (row_pk o r') (pks o db)).
  { unfold pks. rewrite <- has_pk_In. congruence. }
  split; [|split; [assumption|split]].
  - unfold r', auto. destruct (row_pk o r) eqn:E; try (rewrite E; discriminate).
    unfold row_pk. rewrite dict_get_or_none_set_same. discriminate.
  - intros Hne. unfold r', auto. destruct (row_pk o r); try reflexivity.
    contradiction.
  - intros Hty. unfold r'. destruct auto; [|assumption].
    simpl in Hauto. apply negb_false_iff in Hauto.
    now apply typed_record_auto_key.
Qed.

Lemma update_row_spec (k : value) (r : pydict value) (db db1 : database) :
  update_row o k r db = Ok db1 ->
  row_pk o r = k ->
  (forall rec, row_pk o rec <> k ->
               (In rec (db_rows db1) <-> In rec (db_rows db))) /\
  (forall rec, In rec (db_rows db1) -> row_pk o rec = k -> rec = r) /\
  (In k (pks o db) -> In r (db_rows db1)).
Proof.
  unfold update_row. destruct (integrity db (db_rows db) r); [discriminate|].
  intros H Hk. inversion H. clear H. simpl. repeat split.
  - intros Hin. apply in_map_iff in Hin. destruct Hin as [r0 [Heq Hin]].
    destruct (value_eqb (row_pk o r0) k); subst rec; [congruence | assumption].
  - intros Hin. apply in_map_iff. exists rec. split; [|assumption].
    apply value_eqb_neq in H. now rewrite H.
  - intros rec Hin Hrec. apply in_map_iff in Hin. destruct Hin as [r0 [Heq Hin]].
    destruct (value_eqb (row_pk o r0) k) eqn:E; [congruence|].
    apply value_eqb_neq in E. congruence.
  - intros Hin. unfold pks in Hin. apply in_map_iff in Hin.
    destruct Hin as [r0 [Heq Hin]]. apply in_map_iff. exists r0.
    split; [|assumption]. rewrite Heq. now rewrite value_eqb_refl.
Qed.

(** [save] of an instance whose key is a value of the key's column leaves
    exactly one version of the record of that key, the instance's, and every
    other record as it was. *)
Lemma save_keyed (i i' : instance) (db db1 : database) (k : value) :
  i_meta i = o -> pk_val i = k -> k <> VNone ->
  stores_unchanged (pk o) k = true ->
  save i db = (Ok i', db1) ->
  exists r,
    record_of i = Ok r /\ row_pk o r = k /\
    (forall rec, row_pk o rec <> k ->
                 (In rec (db_rows db1) <-> In rec (db_rows db))) /\
    In r (db_rows db1) /\
    (forall rec, In rec (db_rows db1) -> row_pk o rec = k -> rec = r) /\
    i_meta i' = o /\ i_dict i' = i_dict i.
Proof.
  intros Hm Hpk Hk Hty H. unfold save in H. cbv zeta in H.
  destruct (record_of i) as [r|e0] eqn:R; [|discriminate].
  rewrite Hm in H.
  assert (Hrec : row_pk o r = k)
    by (rewrite <- Hpk; apply row_pk_record_typed; [assumption | assumption | now rewrite Hpk]).
  rewrite Hrec in H.
  exists r. split; [reflexivity|]. split; [assumption|].
  match type of H with
  | context [if ?c then _ else _] => destruct c eqn:Hhas
  end.
  - destruct (update_row o k r _) as [db2|e] eqn:U; [|discriminate].
    inversion H. subst i' db1. clear H.
    destruct (update_row_spec _ _ _ _ U Hrec) as [Ha [Hc Hb]].
    simpl in *. split; [exact Ha|]. split; [|split; [exact Hc|]].
    + apply Hb. unfold pks. simpl. apply has_pk_In.
      destruct k; try assumption. contradiction.
    + split; reflexivity.
  - destruct (insert_row o r _) as [[k' db2]|e] eqn:I; [|discriminate].
    inversion H. subst i' db1. clear H.
    destruct (insert_row_spec _ _ _ _ I) as [r' [Hrows [Hk' [_ [Hfresh [Hsame _]]]]]].
    rewrite Hrec in Hsame. specialize (Hsame Hk). subst r'.
    rewrite Hrec in Hk'. subst k'. simpl in Hrows. rewrite Hrows.
    simpl. repeat split.
    + intros Hin. apply in_app_or in Hin. destruct Hin as [Hin|[Heq|[]]];
        [assumption | congruence].
    + intros Hin. apply in_or_app. now left.
    + apply in_or_app. right. now left.
    + intros rec Hin Hrk. apply in_app_or in Hin. destruct Hin as [Hin|[Heq|[]]].
      * exfalso. apply Hfresh. unfold pks. simpl. rewrite <- Hrk. now apply in_map.
      * now symmetry.
    + destruct k; try reflexivity. contradiction.
Qed.

Lemma prep_none (f : field) : get_prep_value f VNone = Ok VNone.
Proof. unfold get_prep_value. now destruct (internal_type f). Qed.

(** [save] of an instance without a key appends one record under a key the
    storage did not hold. *)
Lemma save_unkeyed (i i' : instance) (db db1 : database) :
  i_meta i = o -> pk_val i = VNone ->
  save i db = (Ok i', db1) ->
  exists r', db_rows db1 = (db_rows db ++ [r'])%list /\
             row_pk o r' <> VNone /\ ~ In (row_pk o r') (pks o db) /\
             typed_record o r' = true.
Proof.
  intros Hm Hpk H. unfold save in H. cbv zeta in H.
  destruct (record_of i) as [r|e0] eqn:R; [|discriminate].
  rewrite Hm in H.
  assert (Hrec : row_pk o r = VNone).
  { pose proof (row_pk_record_of i r Hm R) as Hp.
    rewrite Hpk, prep_none in Hp. now inversion Hp. }
  rewrite Hrec in H.
  destruct (insert_row o r _) as [[k' db2]|e] eqn:I; [|discriminate].
  inversion H. subst i' db1. clear H.
  destruct (insert_row_spec _ _ _ _ I) as [r' [Hrows [Hk' [Hne [Hfresh [_ Hty]]]]]].
  exists r'. rewrite Hk'. repeat split; try assumption.
  apply Hty. now apply (record_of_typed i).
Qed.

Lemma insert_all_spec (objs : list instance) :
  forall db db1,
  insert_all o objs db = Ok db1 ->
  exists news,
    db_rows db1 = (db_rows db ++ news)%list /\
    (forall obj, In obj objs ->
       exists r, record_of obj = Ok r /\ (row_pk o r <> VNone -> In r news)) /\
    NoDup (map (row_pk o) news) /\
    (forall r', In r' news -> row_pk o r' <> VNone /\ ~ In (row_pk o r') (pks o db)).
Proof.
  induction objs as [|i objs IH]; simpl; intros db db1 H.
  - inversion H. exists []. rewrite app_nil_r. repeat split; try tauto.
    constructor.
  - destruct (record_of i) as [r|e0] eqn:R; [|discriminate].
    destruct (insert_row o r db) as [[k db']|e] eqn:I; [|discriminate].
    destruct (insert_row_spec _ _ _ _ I) as [r' [Hrows [Hk [Hne [Hfresh [Hsame _]]]]]].
    destruct (IH _ _ H) as [news [Hrows' [Hobjs [Hnd Hnews]]]].
    exists (r' :: news). split; [|split; [|split]].
    + rewrite Hrows', Hrows. now rewrite <- app_assoc.
    + intros obj [<-|Hin].
      * exists r. split; [assumption|]. intros Hpk. left. now apply Hsame.
      * destruct (Hobjs obj Hin) as [r0 [Hr0 Hin0]].
        exists r0. split; [assumption|]. intros Hpk. right. now apply Hin0.
    + simpl. constructor; [|assumption].
      intros Hin. apply in_map_iff in Hin. destruct Hin as [r0 [Heq Hin]].
      apply Hnews in Hin. destruct Hin as [_ Hin]. apply Hin.
      unfold pks. rewrite Hrows, map_app. apply in_or_app. right.
      simpl. left. congruence.
    + intros r0 [<-|Hin].
      * split; congruence.
      * apply Hnews in Hin. destruct Hin as [Hn Hin]. split; [assumption|].
        intros Hc. apply Hin.
        unfold pks in *. rewrite Hrows, map_app. apply in_or_app. now left.
Qed.

Lemma bulk_create_loop_spec (unsaved : list instance) (c : Z) (starts : list Z) :
  forall db db1,
  bulk_create_loop o unsaved c starts db = (Ok tt, db1) ->
  exists news,
    db_rows db1 = (db_rows db ++ news)%list /\
    (forall obj, In obj (List.concat (map (fun i => py_slice unsaved i (i + c)) starts)) ->
       exists r, record_of obj = Ok r /\ (row_pk o r <> VNone -> In r news)) /\
    NoDup (map (row_pk o) news) /\
    (forall r', In r' news -> row_pk o r' <> VNone /\ ~ In (row_pk o r') (pks o db)).
Proof.
  induction starts as [|i rest IH]; simpl; intros db db1 H.
  - inversion H. exists []. rewrite app_nil_r. repeat split; try tauto.
    constructor.
  - unfold bulk_create in H.
    destruct (insert_all o _ (log_call _ db)) as [db2|e] eqn:I; [|discriminate].
    destruct (insert_all_spec _ _ _ I) as [n1 [Hr1 [Ho1 [Hnd1 Hn1]]]].
    destruct (IH _ _ H) as [n2 [Hr2 [Ho2 [Hnd2 Hn2]]]].
    simpl in Hr1. unfold pks in Hn1. simpl in Hn1.
    exists (n1 ++ n2)%list. split; [|split; [|split]].
    + rewrite Hr2, Hr1. now rewrite <- app_assoc.
    + intros obj Hin. apply in_app_or in Hin.
      destruct Hin as [Hin|Hin].
      * destruct (Ho1 obj Hin) as [r0 [Hr0 Hin0]]. exists r0.
        split; [assumption|]. intros Hpk. apply in_or_app. left. now apply Hin0.
      * destruct (Ho2 obj Hin) as [r0 [Hr0 Hin0]]. exists r0.
        split; [assumption|]. intros Hpk. apply in_or_app. right. now apply Hin0.
    + rewrite map_app. apply NoDup_app; try assumption.
      intros x Hx1 Hx2. apply in_map_iff in Hx2. destruct Hx2 as [r2 [Heq Hin2]].
      apply Hn2 in Hin2. destruct Hin2 as [_ Hin2]. apply Hin2.
      unfold pks. rewrite Hr1, map_app. apply in_or_app. right. congruence.
    + intros r0 Hin. apply in_app_or in Hin. destruct Hin as [Hin|Hin].
      * now apply Hn1 in Hin.
      * apply Hn2 in Hin. destruct Hin as [Hn Hin]. split; [assumption|].
        intros Hc. apply Hin.
        unfold pks in *. rewrite Hr1, map_app. apply in_or_app. now left.
Qed.

(** *** The first run keeps the invariant *)

(** An attribute that holds a value of its column is stored as it is. *)
Lemma typed_attribute (obj : instance) (r : pydict value) (f : field) :
  i_meta obj = o -> record_of obj = Ok r -> In f (fields o) ->
  stores_unchanged f (dict_get_or_none (i_dict obj) (attname f)) = true ->
  dict_get_or_none r (name f) = dict_get_or_none (i_dict obj) (attname f).
Proof.
  intros Hm Hr Hf Hty. apply stores_unchanged_spec in Hty.
  destruct (record_of_get obj r f Hm Hr Hf) as [w [Hw Hget]]. congruence.
Qed.

(** The name of a plain field is the attribute of that field only. *)
Lemma plain_name_attname (f : field) (s : string) :
  In f (fields o) -> In s (plain_field_names o) -> attname f = s ->
  name f = s /\ is_relation f = false.
Proof.
  intros Hf Hs Heq. destruct (plain_field s Hs) as [g [Hg [Hname Hrel]]].
  assert (g = f).
  { apply (NoDup_map_inj_in attname (fields o)); auto using attnames_nodup.
    rewrite (plain_attname g Hrel). congruence. }
  subst g. auto.
Qed.

Lemma agrees_record_of (obj : instance) (r : pydict value)
  (value_map : value_map_t) :
  i_meta obj = o -> record_of obj = Ok r ->
  field_keys o value_map -> typed_cells o value_map = true ->
  (forall k v, In (k, v) value_map ->
               exists s, k = VStr s /\ dict_get_or_none (i_dict obj) s = v) ->
  agrees r value_map.
Proof.
  intros Hm Hr Hfk Hty H k v Hin. destruct (H k v Hin) as [s [Hk Hv]].
  exists s. split; [assumption|].
  destruct (Hfk k v Hin) as [s' [Hk' Hs']].
  assert (s' = s) by congruence. subst s' k.
  destruct (plain_field s Hs') as [f [Hf [Hname Hrel]]]. subst s.
  rewrite (typed_attribute obj r f Hm Hr Hf).
  - now rewrite (plain_attname f Hrel).
  - rewrite (plain_attname f Hrel), Hv.
    now apply (typed_cells_get value_map f v).
Qed.

(** A write under the key [k] of row [r] that leaves one record under [k],
    agreeing with the row, and touches no other record. *)
Lemma inv_keyed_write (use_bulk_create : bool) (done : list row) (r : row)
  (st st' : loop_state) (db db' : database) (k : value) (recd : pydict value) :
  let value_map := make_value_map (map VStr hs) r in
  loop_inv o use_bulk_create (map VStr hs) done st db ->
  fresh_key o (map VStr hs) done r ->
  k = row_pk_value o value_map -> k <> VNone ->
  (forall rec, row_pk o rec <> k ->
               (In rec (db_rows db') <-> In rec (db_rows db))) ->
  In recd (db_rows db') ->
  (forall rec, In rec (db_rows db') -> row_pk o rec = k -> rec = recd) ->
  row_pk o recd = k ->
  typed_record o recd = true ->
  agrees recd value_map ->
  unsaved_models st' = unsaved_models st ->
  map fst (existing_model_map st') = map fst (existing_model_map st) ->
  (forall k', k' <> k ->
     assoc_get value_eqb (existing_model_map st') k'
     = assoc_get value_eqb (existing_model_map st) k') ->
  (forall obj, assoc_get value_eqb (existing_model_map st') k = Some obj ->
     i_meta obj = o /\ pk_val obj = k /\
     forall f, In f (fields o) ->
               dict_get_or_none recd (name f)
               = dict_get_or_none (i_dict obj) (attname f)) ->
  (use_bulk_create = true -> In k (map fst (existing_model_map st))) ->
  loop_inv o use_bulk_create (map VStr hs) (r :: done) st' db'.
Proof.
  intros value_map [[Hkeys Htyped] [Hsync [Hknown Hrows]]] Hfresh Hk Hne Ha Hb Hc
         Hrk Hrty Hagree Hunsaved Hkeymap Hother Hthis Hin_map.
  assert (Hold : forall rec, In rec (db_rows db') -> row_pk o rec <> k ->
                             In rec (db_rows db))
    by (intros rec Hin Hrec; now apply Ha).
  split; [split|split; [|split]].
  - intros Hin. unfold pks in Hin. apply in_map_iff in Hin.
    destruct Hin as [rec [Hrec Hin]]. apply Hkeys. unfold pks.
    rewrite <- Hrec. apply in_map. apply Hold; [assumption | congruence].
  - intros rec Hin. destruct (value_eqb (row_pk o rec) k) eqn:E.
    + apply value_eqb_eq in E. now rewrite (Hc rec Hin E).
    + apply value_eqb_neq in E. apply Htyped. now apply Hold.
  - intros k' obj Hget.
    destruct (value_eqb k' k) eqn:E.
    + apply value_eqb_eq in E. subst k'.
      destruct (Hthis obj Hget) as [Hm [Hpk Hd]].
      split; [assumption|]. split; [assumption|]. split.
      * exists recd. auto.
      * intros rec Hin Hrec. rewrite (Hc rec Hin Hrec). exact Hd.
    + apply value_eqb_neq in E. rewrite (Hother k' E) in Hget.
      destruct (Hsync k' obj Hget) as [Hm [Hpk [[rec [Hin Hrec]] Hall]]].
      split; [assumption|]. split; [assumption|]. split.
      * exists rec. split; [|assumption]. apply Ha; [congruence | assumption].
      * intros rec' Hin' Hrec'. apply Hall; [|assumption].
        apply Hold; [assumption | congruence].
  - intros Hbulk x Hx. rewrite Hkeymap. unfold pks in Hx. apply in_map_iff in Hx.
    destruct Hx as [rec [Hrec Hin]].
    destruct (value_eqb (row_pk o rec) k) eqn:E.
    + apply value_eqb_eq in E. rewrite <- Hrec, E. now apply Hin_map.
    + apply value_eqb_neq in E. apply (Hknown Hbulk). unfold pks.
      rewrite <- Hrec. apply in_map. now apply Hold.
  - intros r0 [<-|Hin0].
    + left. right. fold value_map. rewrite <- Hk. split.
      * exists recd. auto.
      * intros rec Hin Hrec. now rewrite (Hc rec Hin Hrec).
    + assert (Hdiff : row_pk_value o (make_value_map (map VStr hs) r0) = VNone \/
                      row_pk_value o (make_value_map (map VStr hs) r0) <> k).
      { destruct (value_eqb (row_pk_value o (make_value_map (map VStr hs) r0)) k) eqn:E.
        - apply value_eqb_eq in E. exfalso. apply Hne. rewrite Hk.
          apply (Hfresh r0 Hin0). fold value_map. congruence.
        - right. now apply value_eqb_neq. }
      destruct (Hrows r0 Hin0) as [[Hnone|[[rec [Hin Hrec]] Hall]]|Hpend].
      * left. now left.
      * destruct Hdiff as [Hnone|Hdiff]; [left; now left|].
        left. right. split.
        -- exists rec. split; [|assumption]. apply Ha; [congruence | assumption].
        -- intros rec' Hin' Hrec'. apply Hall; [|assumption].
           apply Hold; [assumption | congruence].
      * destruct Hpend as [Hbulk [Hsome [Habsent [obj [Hobj Hnew]]]]].
        destruct Hdiff as [Hnone|Hdiff]; [contradiction|].
        right. split; [assumption|]. split; [assumption|]. split.
        -- intros Hx. apply Habsent. unfold pks in *. apply in_map_iff in Hx.
           destruct Hx as [rec [Hrec Hin]]. rewrite <- Hrec. apply in_map.
           apply Hold; [assumption | congruence].
        -- exists obj. rewrite Hunsaved. auto.
Qed.

(** An insert under a new key, for a row that supplies none. *)
Lemma inv_append (done : list row) (r : row) (st : loop_state)
  (db db' : database) (r' : pydict value) :
  loop_inv o false (map VStr hs) done st db ->
  db_rows db' = (db_rows db ++ [r'])%list ->
  row_pk o r' <> VNone -> ~ In (row_pk o r') (pks o db) ->
  typed_record o r' = true ->
  row_pk_value o (make_value_map (map VStr hs) r) = VNone ->
  loop_inv o false (map VStr hs) (r :: done) st db'.
Proof.
  intros [[Hkeys Htyped] [Hsync [Hknown Hrows]]] Hdb Hne Hfresh Hrty Hnone.
  assert (Hsplit : forall rec, In rec (db_rows db') -> In rec (db_rows db) \/ rec = r').
  { intros rec Hin. rewrite Hdb in Hin. apply in_app_or in Hin.
    destruct Hin as [Hin|[<-|[]]]; auto. }
  assert (Hkeep : forall rec, In rec (db_rows db) -> In rec (db_rows db')).
  { intros rec Hin. rewrite Hdb. apply in_or_app. now left. }
  assert (Hnew : forall rec k, In rec (db_rows db) -> row_pk o rec = k ->
                               row_pk o r' <> k).
  { intros rec k Hin Hrec Heq. apply Hfresh. unfold pks. rewrite Heq, <- Hrec.
    now apply in_map. }
  split; [split|split; [|split]].
  - intros Hin. unfold pks in Hin. apply in_map_iff in Hin.
    destruct Hin as [rec [Hrec Hin]]. destruct (Hsplit rec Hin) as [Hold | ->].
    + apply Hkeys. unfold pks. rewrite <- Hrec. now apply in_map.
    + contradiction.
  - intros rec Hin. destruct (Hsplit rec Hin) as [Hold | ->];
      [now apply Htyped | assumption].
  - intros k obj Hget.
    destruct (Hsync k obj Hget) as [Hm [Hpk [[rec [Hin Hrec]] Hall]]].
    split; [assumption|]. split; [assumption|]. split.
    + exists rec. auto.
    + intros rec' Hin' Hrec'. destruct (Hsplit rec' Hin') as [Hold | ->].
      * now apply Hall.
      * exfalso. exact (Hnew rec k Hin Hrec Hrec').
  - discriminate.
  - intros r0 [<-|Hin0]; [left; now left|].
    destruct (Hrows r0 Hin0) as [[Hn|[[rec [Hin Hrec]] Hall]]|Hpend].
    + left. now left.
    + left. right. split.
      * exists rec. auto.
      * intros rec' Hin' Hrec'. destruct (Hsplit rec' Hin') as [Hold | ->].
        -- now apply Hall.
        -- exfalso. exact (Hnew rec _ Hin Hrec Hrec').
    + destruct Hpend as [Hbulk _]. discriminate.
Qed.

(** A row kept for the bulk insert. *)
Lemma inv_defer (done : list row) (r : row) (st : loop_state) (db : database)
  (obj : instance) :
  let value_map := make_value_map (map VStr hs) r in
  loop_inv o true (map VStr hs) done st db ->
  assoc_get value_eqb (existing_model_map st) (row_pk_value o value_map) = None ->
  new_model o value_map = Ok obj ->
  loop_inv o true (map VStr hs) (r :: done)
           {| existing_model_map := existing_model_map st;
              updated_model_count := updated_model_count st;
              unsaved_models := unsaved_models st ++ [obj] |} db.
Proof.
  intros value_map [Hkeys [Hsync [Hknown Hrows]]] Hnone Hnew.
  split; [assumption|]. split; [exact Hsync|]. split; [exact Hknown|].
  intros r0 [<-|Hin0].
  - fold value_map.
    destruct (value_eqb (row_pk_value o value_map) VNone) eqn:E.
    + apply value_eqb_eq in E. left. now left.
    + apply value_eqb_neq in E. right.
      split; [reflexivity|]. split; [assumption|]. split.
      * intros Hin. apply (Hknown eq_refl) in Hin.
        now apply assoc_get_none_keys in Hnone.
      * exists obj. simpl. split; [|assumption]. apply in_or_app. right. now left.
  - destruct (Hrows r0 Hin0) as [Hs|[Hb [Hsome [Habs [obj0 [Hobj0 Hnew0]]]]]].
    + now left.
    + right. split; [assumption|]. split; [assumption|]. split; [assumption|].
      exists obj0. simpl. split; [|assumption]. apply in_or_app. now left.
Qed.

(** A row that equals the instance it matches. *)
Lemma inv_unchanged (use_bulk_create : bool) (done : list row) (r : row)
  (st : loop_state) (db : database) (obj : instance) :
  let value_map := make_value_map (map VStr hs) r in
  loop_inv o use_bulk_create (map VStr hs) done st db ->
  assoc_get value_eqb (existing_model_map st) (row_pk_value o value_map) = Some obj ->
  _will_model_change value_map obj = Ok false ->
  loop_inv o use_bulk_create (map VStr hs) (r :: done) st db.
Proof.
  intros value_map [Hkeys [Hsync [Hknown Hrows]]] Hget Hsame.
  split; [assumption|]. split; [exact Hsync|]. split; [exact Hknown|].
  intros r0 [<-|Hin0]; [|now apply Hrows].
  left. right. fold value_map.
  destruct (Hsync _ _ Hget) as [Hm [Hpk [Hex Hall]]].
  split; [exact Hex|]. intros rec Hin Hrec k v Hkv.
  destruct (will_model_change_false value_map obj Hm (value_map_field_keys r)
              Hsame k v Hkv) as [s [Hk Hv]].
  exists s. split; [assumption|].
  destruct (value_map_field_keys r k v Hkv) as [s' [Hk' Hs']].
  assert (s' = s) by congruence. subst s'.
  destruct (plain_field s Hs') as [f [Hf [Hname Hrel]]]. subst s.
  rewrite (Hall rec Hin Hrec f Hf), (plain_attname f Hrel).
  unfold dict_get_or_none. now rewrite Hv.
Qed.

(** The body of the loop keeps the invariant. *)
Lemma process_row_inv (use_bulk_create : bool) (done : list row) (r : row)
  (st st' : loop_state) (db db' : database) :
  loop_inv o use_bulk_create (map VStr hs) done st db ->
  fresh_key o (map VStr hs) done r ->
  typed_cells o (make_value_map (map VStr hs) r) = true ->
  process_row o true use_bulk_create (map VStr hs) r st db = (Ok st', db') ->
  loop_inv o use_bulk_create (map VStr hs) (r :: done) st' db'.
Proof.
  intros Hinv Hfresh Hty H. unfold process_row, matched in H.
  set (value_map := make_value_map (map VStr hs) r) in *.
  set (k := row_pk_value o value_map) in *.
  pose proof (value_map_field_keys r) as Hfk. fold value_map in Hfk.
  pose proof (value_map_nodup r) as Hnd. fold value_map in Hnd.
  destruct (assoc_get value_eqb (existing_model_map st) k) as [obj|] eqn:G.
  - (* the row matches an existing instance *)
    unfold update_existing in H.
    destruct (_will_model_change value_map obj) as [[|]|e] eqn:W; try discriminate.
    + destruct (_apply_value_map value_map obj) as [obj1|e] eqn:A; [|discriminate].
      destruct (save obj1 db) as [[obj2|e] db2] eqn:S; [|discriminate].
      inversion H. subst st' db'. clear H.
      assert (Hinv0 := Hinv). destruct Hinv0 as [[Hkeys Htyped] [Hsync [Hknown Hrows]]].
      destruct (Hsync k obj G) as [Hm [Hpk [[rec [Hin Hrec]] Hall]]].
      assert (Hne : k <> VNone).
      { intros Hk. apply Hkeys. unfold pks. rewrite <- Hk, <- Hrec. now apply in_map. }
      destruct (apply_value_map_fields value_map obj obj1 Hm Hfk Hnd A) as [Hm1 Hd].
      assert (Hpk1 : pk_val obj1 = k).
      { unfold pk_val, dict_get_or_none. rewrite Hm1, pk_attname, Hd.
        unfold k, row_pk_value in *.
        destruct (assoc_get value_eqb value_map (VStr (name (pk o)))); [reflexivity|].
        contradiction. }
      assert (Hkty : stores_unchanged (pk o) k = true)
        by (now apply typed_cells_key).
      destruct (save_keyed obj1 obj2 db db2 k Hm1 Hpk1 Hne Hkty S)
        as [r1 [R1 [Hrk [Ha [Hb [Hc [Hm2 Hd2]]]]]]].
      assert (Hattr : forall f, In f (fields o) ->
                dict_get_or_none r1 (name f)
                = dict_get_or_none (i_dict obj1) (attname f)).
      { intros f Hf. apply (typed_attribute obj1 r1 f Hm1 R1 Hf).
        unfold dict_get_or_none. rewrite Hd.
        destruct (assoc_get value_eqb value_map (VStr (attname f))) as [v|] eqn:GA.
        - apply assoc_get_In in GA.
          destruct (Hfk _ _ GA) as [s [Heq Hs]]. inversion Heq. subst s.
          destruct (plain_name_attname f (attname f) Hf Hs eq_refl) as [Hname _].
          rewrite <- Hname in GA.
          now apply (typed_cells_get value_map f v).
        - specialize (Hall rec Hin Hrec f Hf). unfold dict_get_or_none in Hall.
          rewrite <- Hall. specialize (Htyped rec Hin).
          unfold typed_record in Htyped. rewrite forallb_forall in Htyped.
          now apply Htyped. }
      apply (inv_keyed_write use_bulk_create done r st _ db db2 k r1);
        try assumption; try reflexivity.
      * now apply (record_of_typed obj1).
      * apply (agrees_record_of obj1); try assumption.
        intros k0 v Hkv. destruct (Hfk k0 v Hkv) as [s [-> Hs]].
        exists s. split; [reflexivity|]. unfold dict_get_or_none.
        rewrite Hd. now rewrite (In_assoc_get _ _ _ Hnd Hkv).
      * simpl. apply assoc_set_keys_present. now apply assoc_get_some_keys in G.
      * intros k' Hk'. simpl. apply assoc_get_set_other. congruence.
      * simpl. rewrite assoc_get_set_same. intros obj0 Heq. inversion Heq. subst obj0.
        split; [assumption|]. split.
        -- unfold pk_val. rewrite Hm2, Hd2. unfold pk_val in Hpk1.
           now rewrite Hm1 in Hpk1.
        -- intros f Hf. rewrite Hd2. now apply Hattr.
      * intros _. now apply assoc_get_some_keys in G.
    + inversion H. subst st' db'. now apply (inv_unchanged _ _ _ _ _ obj).
  - (* the row matches none *)
    unfold create_new in H.
    destruct (new_model o value_map) as [obj|e] eqn:N; [|discriminate].
    destruct (new_model_fields value_map obj Hfk Hnd N) as [Hm [_ [Hpk Hag]]].
    fold k in Hpk.
    destruct use_bulk_create.
    + inversion H. subst st' db'. now apply inv_defer.
    + destruct (save obj db) as [[obj'|e] db2] eqn:S; [|discriminate].
      inversion H. subst st' db'. clear H.
      destruct (value_eqb k VNone) eqn:E.
      * apply value_eqb_eq in E. rewrite E in Hpk.
        destruct (save_unkeyed obj obj' db db2 Hm Hpk S)
          as [r' [Hdb [Hne [Hnew Hrty]]]].
        now apply (inv_append done r st db db2 r').
      * apply value_eqb_neq in E.
        assert (Hkty : stores_unchanged (pk o) k = true)
          by (now apply typed_cells_key).
        destruct (save_keyed obj obj' db db2 k Hm Hpk E Hkty S)
          as [r1 [R1 [Hrk [Ha [Hb [Hc _]]]]]].
        apply (inv_keyed_write false done r st st db db2 k r1);
          try assumption; try reflexivity.
        -- now apply (record_of_typed obj).
        -- now apply (agrees_record_of obj).
        -- intros obj0 Hget. rewrite G in Hget. discriminate.
        -- discriminate.
Qed.

Lemma supplied_keys_fresh (done : list row) (r : row) (rest : list row) :
  (forall r1, In r1 (r :: rest) -> fresh_key o (map VStr hs) done r1) ->
  NoDup (supplied_keys o (map VStr hs) (r :: rest)) ->
  (forall r1, In r1 rest -> fresh_key o (map VStr hs) (r :: done) r1) /\
  NoDup (supplied_keys o (map VStr hs) rest).
Proof.
  intros Hfresh Hnd. unfold supplied_keys, row_keys in *. simpl in Hnd.
  set (k := row_pk_value o (make_value_map (map VStr hs) r)) in *.
  destruct (value_eqb k VNone) eqn:E; simpl in Hnd.
  - split; [|assumption]. intros r1 Hin r0 [<-|Hin0] Heq.
    + apply value_eqb_eq in E. fold k in Heq. congruence.
    + apply (Hfresh r1 (or_intror Hin) r0 Hin0 Heq).
  - apply NoDup_cons_iff in Hnd. destruct Hnd as [Hnotin Hnd].
    split; [|assumption]. intros r1 Hin r0 [<-|Hin0] Heq.
    + fold k in Heq.
      destruct (value_eqb (row_pk_value o (make_value_map (map VStr hs) r1)) VNone) eqn:E1.
      * now apply value_eqb_eq in E1.
      * exfalso. apply Hnotin. apply filter_In. split.
        -- apply in_map_iff. exists r1. split; [congruence | assumption].
        -- now rewrite E.
    + apply (Hfresh r1 (or_intror Hin) r0 Hin0 Heq).
Qed.

(** The loop keeps the invariant, row after row. *)
Lemma process_rows_inv (use_bulk_create : bool) (rs : list row) :
  forall done st db st' db',
  loop_inv o use_bulk_create (map VStr hs) done st db ->
  (forall r1, In r1 rs -> fresh_key o (map VStr hs) done r1) ->
  NoDup (supplied_keys o (map VStr hs) rs) ->
  (forall r1, In r1 rs -> typed_cells o (make_value_map (map VStr hs) r1) = true) ->
  process_rows o true use_bulk_create (map VStr hs) rs st db = (Ok st', db') ->
  exists done', (forall r, In r done \/ In r rs -> In r done') /\
                loop_inv o use_bulk_create (map VStr hs) done' st' db'.
Proof.
  induction rs as [|r rest IH]; simpl; intros done st db st' db' Hinv Hfresh Hnd Hty H.
  - inversion H. subst st' db'. exists done. split; [tauto | assumption].
  - destruct (process_row o true use_bulk_create (map VStr hs) r st db)
      as [[st1|e] db1] eqn:P; [|discriminate].
    apply process_row_inv with (done := done) in P;
      [|assumption | apply Hfresh; now left | apply Hty; now left].
    destruct (supplied_keys_fresh done r rest Hfresh Hnd) as [Hfresh' Hnd'].
    destruct (IH _ _ _ _ _ P Hfresh' Hnd' (fun r1 H1 => Hty r1 (or_intror H1)) H)
      as [done' [Hall Hinv']].
    exists done'. split; [|assumption].
    intros r0 [Hin|[<-|Hin]]; apply Hall; simpl; tauto.
Qed.

(** *** The invariant as the first run starts *)

Lemma assoc_set_In {V} (d : list (value * V)) (k k' : value) (v v' : V) :
  In (k, v) (assoc_set value_eqb d k' v') -> (k, v) = (k', v') \/ In (k, v) d.
Proof.
  induction d as [|[k0 v0] d IH]; simpl.
  - intros [H|[]]. left. now symmetry.
  - destruct (value_eqb k0 k') eqn:E; simpl.
    + apply value_eqb_eq in E. subst k0. intros [H|H]; [left; now symmetry | tauto].
    + intros [H|H]; [tauto|]. destruct (IH H); tauto.
Qed.

Lemma assoc_of_pairs_In {V} (l : list (value * V)) (k : value) (v : V) :
  In (k, v) (assoc_of_pairs value_eqb l) -> In (k, v) l.
Proof.
  unfold assoc_of_pairs.
  assert (G : forall acc,
             In (k, v) (fold_left (fun d kv => assoc_set value_eqb d (fst kv) (snd kv)) l acc) ->
             In (k, v) acc \/ In (k, v) l).
  { induction l as [|[k0 v0] l IH]; simpl; intros acc H; [tauto|].
    destruct (IH _ H) as [H1|H1]; [|tauto].
    apply assoc_set_In in H1. simpl in H1. destruct H1 as [H1|H1]; [|tauto].
    right. left. now symmetry. }
  intros H. destruct (G [] H) as [[]|]; assumption.
Qed.

Lemma assoc_set_keys_keep {V} (d : list (value * V)) (k x : value) (v : V) :
  x = k \/ In x (map fst d) -> In x (map fst (assoc_set value_eqb d k v)).
Proof.
  induction d as [|[k0 v0] d IH]; simpl.
  - intros [->|[]]. now left.
  - destruct (value_eqb k0 k) eqn:E; simpl.
    + apply value_eqb_eq in E. subst k0. intros [->|H]; tauto.
    + intros [H|[H|H]]; [right; apply IH; now left | now left | right; apply IH; now right].
Qed.

Lemma assoc_of_pairs_keys_all {V} (l : list (value * V)) (x : value) :
  In x (map fst l) -> In x (map fst (assoc_of_pairs value_eqb l)).
Proof.
  unfold assoc_of_pairs.
  assert (G : forall acc,
             In x (map fst acc) \/ In x (map fst l) ->
             In x (map fst (fold_left
               (fun d kv => assoc_set value_eqb d (fst kv) (snd kv)) l acc))).
  { induction l as [|[k0 v0] l IH]; simpl; intros acc H; [tauto|].
    apply IH. destruct H as [H|[H|H]]; [| |now right].
    - left. apply assoc_set_keys_keep. now right.
    - left. apply assoc_set_keys_keep. left. now symmetry. }
  intros H. apply G. now right.
Qed.

Lemma loop_inv_initial (use_bulk_create : bool) (db : database) :
  db_ok o db ->
  loop_inv o use_bulk_create (map VStr hs) [] (initial_state o true db) db.
Proof.
  intros [Hnd [Hkeys Htyped]]. rewrite forallb_forall in Htyped.
  split; [split; assumption|]. split; [|split].
  - intros k obj Hget. simpl in Hget. unfold load_existing in Hget.
    apply assoc_get_In, assoc_of_pairs_In in Hget.
    apply in_map_iff in Hget. destruct Hget as [m [Heq Hin]].
    inversion Heq. subst m. clear Heq.
    unfold _get_django_objects, objects_all in Hin. apply in_map_iff in Hin.
    destruct Hin as [rec [<- Hin]]. rewrite pk_val_from_db in *.
    split; [reflexivity|]. split; [reflexivity|]. split.
    + exists rec. auto.
    + intros rec' Hin' Hrec' f Hf.
      assert (rec' = rec)
        by (apply (NoDup_map_inj_in (row_pk o) (db_rows db));
            [exact Hnd | assumption | assumption | congruence]).
      subst rec'. unfold dict_get_or_none at 2.
      now rewrite (from_db_get o rec f attnames_nodup Hf).
  - intros _ x Hx. simpl. unfold load_existing. apply assoc_of_pairs_keys_all.
    rewrite map_map. simpl. unfold _get_django_objects, objects_all.
    rewrite map_map. unfold pks in Hx. apply in_map_iff in Hx.
    destruct Hx as [rec [<- Hin]]. apply in_map_iff. exists rec.
    split; [apply pk_val_from_db | assumption].
  - intros r [].
Qed.

(** *** Where the first run leaves the storage *)

Lemma written_without_bulk (rs done : list row) (st : loop_state) (db : database) :
  loop_inv o false (map VStr hs) done st db ->
  (forall r, In r rs -> In r done) ->
  written o (map VStr hs) rs db.
Proof.
  intros [[Hkeys _] [_ [_ Hrows]]] Hall. split; [assumption|].
  intros r rec Hr Hin Hrec.
  destruct (Hrows r (Hall r Hr)) as [[Hnone|[_ Hag]]|[Hbulk _]].
  - exfalso. apply Hkeys. unfold pks. rewrite <- Hnone, <- Hrec. now apply in_map.
  - now apply Hag.
  - discriminate.
Qed.

Lemma py_range_negative (n c : Z) : c < 0 -> 0 <= n -> py_range 0 n c = Ok [].
Proof.
  intros Hc Hn. unfold py_range, range_len.
  replace (c =? 0) with false by (symmetry; apply Z.eqb_neq; lia).
  replace (0 <? c) with false by (symmetry; apply Z.ltb_ge; lia).
  replace (n <? 0) with false by (symmetry; apply Z.ltb_ge; lia).
  rewrite andb_false_r. reflexivity.
Qed.

(** What a successful bulk insert of the instances kept adds to the
    storage. *)
Lemma chunked_bulk_create_spec (settings : pydict Z) (unsaved : list instance)
  (db db1 : database) :
  _chunked_bulk_create settings o unsaved None db = (Ok tt, db1) ->
  exists news,
    db_rows db1 = (db_rows db ++ news)%list /\
    NoDup (map (row_pk o) news) /\
    (forall r', In r' news ->
                row_pk o r' <> VNone /\ ~ In (row_pk o r') (pks o db)) /\
    (news = [] \/
     forall obj, In obj unsaved ->
       exists r, record_of obj = Ok r /\ (row_pk o r <> VNone -> In r news)).
Proof.
  intros H.
  unfold _chunked_bulk_create in H. rewrite _get_setting_chunk_size in H.
  set (c := effective_chunk_size settings None) in *.
  destruct (Z.lt_trichotomy c 0) as [Hc|[Hc|Hc]].
  - rewrite py_range_negative in H by lia. simpl in H. inversion H.
    exists []. rewrite app_nil_r. repeat split; try constructor; try tauto.
  - rewrite Hc in H. simpl in H. discriminate.
  - destruct (chunks_of_range unsaved c Hc) as [starts [Hr [Hcat _]]].
    rewrite Hr in H.
    destruct (bulk_create_loop_spec _ _ _ _ _ H) as [news [H1 [H2 [H3 H4]]]].
    exists news. repeat split; try assumption; try (now apply H4).
    right. rewrite <- Hcat. exact H2.
Qed.

Lemma written_after_bulk (settings : pydict Z) (rs done : list row)
  (st : loop_state) (db db1 : database) :
  loop_inv o true (map VStr hs) done st db ->
  (forall r, In r rs -> In r done) ->
  (forall r, In r rs -> typed_cells o (make_value_map (map VStr hs) r) = true) ->
  _chunked_bulk_create settings o (unsaved_models st) None db = (Ok tt, db1) ->
  written o (map VStr hs) rs db1.
Proof.
  intros [[Hkeys _] [_ [_ Hrows]]] Hall Hty H.
  destruct (chunked_bulk_create_spec _ _ _ _ H) as [news [Hdb [Hnd [Hnews Hobjs]]]].
  assert (Hsplit : forall rec, In rec (db_rows db1) -> In rec (db_rows db) \/ In rec news).
  { intros rec Hin. rewrite Hdb in Hin. now apply in_app_or in Hin. }
  split.
  - intros Hin. unfold pks in Hin. apply in_map_iff in Hin.
    destruct Hin as [rec [Hrec Hin]]. destruct (Hsplit rec Hin) as [Hold|Hnew].
    + apply Hkeys. unfold pks. rewrite <- Hrec. now apply in_map.
    + now apply Hnews in Hnew.
  - intros r rec Hr Hin Hrec.
    destruct (Hrows r (Hall r Hr)) as [[Hnone|[[rec0 [Hin0 Hrec0]] Hag]]|Hpend].
    + exfalso. destruct (Hsplit rec Hin) as [Hold|Hnew].
      * apply Hkeys. unfold pks. rewrite <- Hnone, <- Hrec. now apply in_map.
      * apply Hnews in Hnew. destruct Hnew as [Hne _]. congruence.
    + destruct (Hsplit rec Hin) as [Hold|Hnew]; [now apply Hag|].
      exfalso. apply Hnews in Hnew. destruct Hnew as [_ Hnew]. apply Hnew.
      unfold pks. rewrite Hrec, <- Hrec0. now apply in_map.
    + destruct Hpend as [_ [Hsome [Habsent [obj [Hobj Hnew]]]]].
      destruct (Hsplit rec Hin) as [Hold|Hin'].
      * exfalso. apply Habsent. unfold pks. rewrite <- Hrec. now apply in_map.
      * destruct Hobjs as [->|Hobjs]; [destruct Hin'|].
        pose proof (value_map_field_keys r) as Hfk.
        pose proof (value_map_nodup r) as Hvnd.
        destruct (new_model_fields _ obj Hfk Hvnd Hnew) as [Hm [_ [Hpk Hag]]].
        destruct (Hobjs obj Hobj) as [r1 [R1 Hin1]].
        assert (Hrk : row_pk o r1
                      = row_pk_value o (make_value_map (map VStr hs) r)).
        { rewrite <- Hpk. apply row_pk_record_typed; [assumption | assumption |].
          rewrite Hpk. apply typed_cells_key; [now apply Hty | assumption]. }
        assert (Hrecord : In r1 news) by (apply Hin1; congruence).
        assert (rec = r1)
          by (apply (NoDup_map_inj_in (row_pk o) news);
              [assumption | assumption | assumption | congruence]).
        subst rec. apply (agrees_record_of obj); try assumption.
        now apply Hty.
Qed.

(** *** The second run *)

Lemma update_saves_app (a b : list call) :
  update_saves (a ++ b) = (update_saves a ++ update_saves b)%list.
Proof.
  induction a as [|[i|objs] a IH]; simpl; [reflexivity | | assumption].
  destruct (adding i); simpl; now rewrite IH.
Qed.

Lemma update_saves_bulk (l : list (list instance)) :
  update_saves (map CallBulkCreate l) = [].
Proof. induction l; simpl; auto. Qed.

Lemma load_existing_get (db : database) (k : value) (obj : instance) :
  assoc_get value_eqb (load_existing o db) k = Some obj ->
  exists rec, In rec (db_rows db) /\ obj = from_db o rec /\ row_pk o rec = k.
Proof.
  intros Hget. unfold load_existing in Hget.
  apply assoc_get_In, assoc_of_pairs_In in Hget.
  apply in_map_iff in Hget. destruct Hget as [m [Heq Hin]].
  inversion Heq. subst m.
  unfold _get_django_objects, objects_all in Hin. apply in_map_iff in Hin.
  destruct Hin as [rec [<- Hin]]. exists rec.
  split; [assumption|]. split; [reflexivity|]. symmetry. apply pk_val_from_db.
Qed.

(** On a storage where every row is written, a row changes nothing: it
    equals the instance it matches, or it is created. *)
Lemma second_run_row (use_bulk_create : bool) (rs : list row) (db1 : database)
  (r : row) (st : loop_state) (db db' : database) (res : result loop_state) :
  written o (map VStr hs) rs db1 ->
  In r rs ->
  existing_model_map st = load_existing o db1 ->
  process_row o true use_bulk_create (map VStr hs) r st db = (res, db') ->
  exists new,
    calls db' = (calls db ++ new)%list /\ update_saves new = [] /\
    forall st', res = Ok st' ->
      existing_model_map st' = existing_model_map st /\
      updated_model_count st' = updated_model_count st.
Proof.
  intros [Hkeys Hwritten] Hr HE H. unfold process_row, matched in H.
  pose proof (value_map_field_keys r) as Hfk.
  destruct (assoc_get value_eqb (existing_model_map st) _) as [obj|] eqn:G.
  - rewrite HE in G. destruct (load_existing_get _ _ _ G) as [rec [Hin [Hobj Hrec]]].
    pose proof (Hwritten r rec Hr Hin Hrec) as Hag.
    assert (W : _will_model_change (make_value_map (map VStr hs) r) obj = Ok false).
    { apply will_model_change_holds; [now subst obj | assumption |].
      intros k v Hkv. destruct (Hag k v Hkv) as [s [Hk Hv]].
      exists s. split; [assumption|]. subst obj.
      destruct (Hfk k v Hkv) as [s' [Hk' Hs']].
      assert (s' = s) by congruence. subst s'.
      destruct (plain_field s Hs') as [f [Hf [Hname Hrel]]]. subst s.
      rewrite <- (plain_attname f Hrel) at 1.
      rewrite (from_db_get o rec f attnames_nodup Hf). now rewrite Hv. }
    unfold update_existing in H. rewrite W in H. inversion H. subst res db'.
    exists []. rewrite app_nil_r. split; [reflexivity|]. split; [reflexivity|].
    intros st' Hst. inversion Hst. auto.
  - unfold create_new in H.
    destruct (new_model o _) as [obj|e] eqn:N.
    + destruct use_bulk_create.
      * inversion H. subst res db'. exists []. rewrite app_nil_r.
        split; [reflexivity|]. split; [reflexivity|].
        intros st' Hst. inversion Hst. auto.
      * pose proof (save_calls obj db) as Hc.
        destruct (new_model_adding _ _ _ N) as [Hadd _].
        destruct (save obj db) as [[obj'|e] db2] eqn:S; inversion H; subst res db';
          simpl in Hc; exists [CallSave obj]; simpl; rewrite Hadd;
          (split; [assumption|]); (split; [reflexivity|]);
          intros st' Hst; inversion Hst; auto.
    + inversion H. subst res db'. exists []. rewrite app_nil_r.
      split; [reflexivity|]. split; [reflexivity|].
      intros st' Hst. discriminate.
Qed.

Lemma second_run_rows (use_bulk_create : bool) (rs : list row) (db1 : database)
  (rs' : list row) :
  forall st db db' res,
  written o (map VStr hs) rs db1 ->
  (forall r, In r rs' -> In r rs) ->
  existing_model_map st = load_existing o db1 ->
  process_rows o true use_bulk_create (map VStr hs) rs' st db = (res, db') ->
  exists new,
    calls db' = (calls db ++ new)%list /\ update_saves new = [] /\
    forall st', res = Ok st' ->
      updated_model_count st' = updated_model_count st.
Proof.
  induction rs' as [|r rest IH]; simpl; intros st db db' res Hw Hsub HE H.
  - inversion H. subst res db'. exists []. rewrite app_nil_r.
    split; [reflexivity|]. split; [reflexivity|].
    intros st' Hst. now inversion Hst.
  - destruct (process_row o true use_bulk_create (map VStr hs) r st db)
      as [[st1|e] db2] eqn:P.
    + destruct (second_run_row _ rs db1 _ _ _ _ _ Hw (Hsub r (or_introl eq_refl)) HE P)
        as [n1 [Hc1 [Hu1 Hst1]]].
      destruct (Hst1 st1 eq_refl) as [HE1 Hcount1].
      destruct (IH st1 db2 db' res Hw (fun r0 H0 => Hsub r0 (or_intror H0))
                   (eq_trans HE1 HE) H) as [n2 [Hc2 [Hu2 Hst2]]].
      exists (n1 ++ n2)%list. split; [|split].
      * rewrite Hc2, Hc1. now rewrite <- app_assoc.
      * rewrite update_saves_app, Hu1, Hu2. reflexivity.
      * intros st' Hst. rewrite (Hst2 st' Hst). exact Hcount1.
    + inversion H. subst res db'.
      destruct (second_run_row _ rs db1 _ _ _ _ _ Hw (Hsub r (or_introl eq_refl)) HE P)
        as [n1 [Hc1 [Hu1 _]]].
      exists n1. split; [assumption|]. split; [assumption|].
      intros st' Hst. discriminate.
Qed.

Lemma chunked_bulk_create_no_update (settings : pydict Z)
  (unsaved : list instance) (db : database) :
  exists new,
    calls (snd (_chunked_bulk_create settings o unsaved None db))
    = (calls db ++ new)%list /\ update_saves new = [].
Proof.
  unfold _chunked_bulk_create. rewrite _get_setting_chunk_size.
  destruct (py_range 0 _ _) as [starts|e].
  - destruct (bulk_create_loop_calls o unsaved (effective_chunk_size settings None)
                starts db) as [j [_ [Hc _]]].
    cbv zeta in Hc. eexists. split; [exact Hc | apply update_saves_bulk].
  - exists []. now rewrite app_nil_r.
Qed.

Lemma skipn_length_app {A} (a b : list A) : skipn (List.length a) (a ++ b) = b.
Proof. induction a; simpl; auto. Qed.

(** C5, as amended. Take a model whose primary key is not a relation and
    has no default, a storage that keeps its primary-key constraint and
    the types of its columns, and a table whose column names are fields of
    the model other than relations, in which no two rows supply the same
    primary key and every cell is a value its column stores as it is (an
    integer or [None] in an integer column, a string or [None] in a text
    column). When a first run of [todjango] with [update] set returns, a
    second run with the same table over the storage the first one left saves
    no existing instance, and the count of updates it reports is 0. *)
Theorem second_run_updates_nothing
  (settings : pydict Z) (t : table) (c : pyclass) (rs : list row)
  (create1 create2 bulk1 bulk2 : bool) (db0 db1 db2 : database)
  (rep1 : report) (res2 : result report) :
  issubclass c Model = true ->
  class_meta c = Some o ->
  has_next t = true ->
  t_rows t = map VStr hs :: rs ->
  NoDup (supplied_keys o (map VStr hs) rs) ->
  (forall r, In r rs -> typed_cells o (make_value_map (map VStr hs) r) = true) ->
  db_ok o db0 ->
  todjango settings t (ClassObj c) true create1 bulk1 db0 = (Ok rep1, db1) ->
  todjango settings t (ClassObj c) true create2 bulk2 db1 = (res2, db2) ->
  update_saves (new_calls db1 db2) = [] /\
  forall rep2, res2 = Ok rep2 -> updated rep2 = 0.
Proof.
  intros Hsub Hmeta Hnext Hrows Hnd Hty Hdb H1 H2.
  (* the first run *)
  rewrite (todjango_unfold settings t c o true create1 bulk1 db0 (map VStr hs) rs
             Hsub Hmeta Hwf Hnext Hrows) in H1.
  destruct (process_rows o true bulk1 (map VStr hs) rs (initial_state o true db0) db0)
    as [[st1|e] dbe] eqn:P1; [|discriminate].
  destruct (process_rows_inv bulk1 rs [] _ _ _ _ (loop_inv_initial bulk1 db0 Hdb)
              (fun r1 _ r0 (H0 : In r0 []) => match H0 with end) Hnd Hty P1)
    as [done [Hall Hinv]].
  assert (Hw : written o (map VStr hs) rs db1).
  { destruct bulk1.
    - destruct (_chunked_bulk_create settings o (unsaved_models st1) None dbe)
        as [[[]|e] dbb] eqn:B; [|discriminate].
      inversion H1. subst db1.
      apply (written_after_bulk settings rs done st1 dbe dbb Hinv);
        [|assumption|assumption].
      intros r Hr. apply Hall. now right.
    - inversion H1. subst db1.
      apply (written_without_bulk rs done st1 dbe Hinv).
      intros r Hr. apply Hall. now right. }
  clear H1 P1 Hinv Hall.
  (* the second run *)
  rewrite (todjango_unfold settings t c o true create2 bulk2 db1 (map VStr hs) rs
             Hsub Hmeta Hwf Hnext Hrows) in H2.
  destruct (process_rows o true bulk2 (map VStr hs) rs (initial_state o true db1) db1)
    as [res dbe2] eqn:P2.
  destruct (second_run_rows bulk2 rs db1 rs (initial_state o true db1) db1 dbe2 res
              Hw (fun r0 H0 => H0) eq_refl P2)
    as [new [Hc [Hu Hcount]]].
  unfold new_calls. destruct res as [st2|e].
  - specialize (Hcount st2 eq_refl). simpl in Hcount.
    destruct bulk2.
    + destruct (chunked_bulk_create_no_update settings (unsaved_models st2) dbe2)
        as [new2 [Hc2 Hu2]].
      destruct (_chunked_bulk_create settings o (unsaved_models st2) None dbe2)
        as [[u|e] db3]; inversion H2; subst res2 db2; simpl in Hc2;
        rewrite Hc2, Hc, <- app_assoc, skipn_length_app, update_saves_app, Hu, Hu2;
        (split; [reflexivity|]); intros rep2 Hrep; inversion Hrep; simpl; assumption.
    + inversion H2. subst res2 db2.
      rewrite Hc, skipn_length_app. split; [assumption|].
      intros rep2 Hrep. inversion Hrep. simpl. assumption.
  - inversion H2. subst res2 db2.
    rewrite Hc, skipn_length_app. split; [assumption|].
    intros rep2 Hrep. discriminate.
Qed.


(** *** What the first run leaves in storage *)

Lemma stored_without_bulk (done : list row) (st : loop_state) (db : database) (r : row) :
  loop_inv o false (map VStr hs) done st db ->
  In r done ->
  row_pk_value o (make_value_map (map VStr hs) r) <> VNone ->
  exists rec, In rec (db_rows db) /\
              row_pk o rec = row_pk_value o (make_value_map (map VStr hs) r).
Proof.
  intros [_ [_ [_ Hrows]]] Hr Hkey.
  destruct (Hrows r Hr) as [[Hnone|[Hex _]]|[Hbulk _]].
  - contradiction.
  - exact Hex.
  - discriminate.
Qed.

Lemma stored_after_bulk (settings : pydict Z) (done : list row)
  (st : loop_state) (db db1 : database) (r : row) :
  loop_inv o true (map VStr hs) done st db ->
  In r done ->
  row_pk_value o (make_value_map (map VStr hs) r) <> VNone ->
  typed_cells o (make_value_map (map VStr hs) r) = true ->
  0 < effective_chunk_size settings None ->
  _chunked_bulk_create settings o (unsaved_models st) None db = (Ok tt, db1) ->
  exists rec, In rec (db_rows db1) /\
              row_pk o rec = row_pk_value o (make_value_map (map VStr hs) r).
Proof.
  intros [_ [_ [_ Hrows]]] Hr Hkey Hty Hc H.
  unfold _chunked_bulk_create in H. rewrite _get_setting_chunk_size in H.
  destruct (chunks_of_range (unsaved_models st) _ Hc) as [starts [Hrange [Hcat _]]].
  rewrite Hrange in H.
  destruct (bulk_create_loop_spec _ _ _ _ _ H) as [news [Hdb [Hobjs _]]].
  rewrite Hcat in Hobjs.
  destruct (Hrows r Hr) as [[Hnone|[[rec [Hin Hrec]] _]]|Hpend].
  - contradiction.
  - exists rec. split; [|assumption]. rewrite Hdb. apply in_or_app. now left.
  - destruct Hpend as [_ [_ [_ [obj [Hobj Hnew]]]]].
    destruct (new_model_fields _ obj (value_map_field_keys r) (value_map_nodup r) Hnew)
      as [Hm [_ [Hpk _]]].
    destruct (Hobjs obj Hobj) as [r1 [R1 Hin1]].
    assert (Hrk : row_pk o r1
                  = row_pk_value o (make_value_map (map VStr hs) r)).
    { rewrite <- Hpk. apply row_pk_record_typed; [assumption | assumption |].
      rewrite Hpk. now apply typed_cells_key. }
    exists r1. split; [|assumption].
    rewrite Hdb. apply in_or_app. right. apply Hin1. congruence.
Qed.

(** X14. Take a model, a storage and a table as in C5 (column names that
    are fields other than relations, no two rows with the same primary key,
    every cell a value its column stores as it is), and a positive chunk
    size when [use_bulk_create] is set. When [todjango] with [update] set
    returns, every row that supplies a primary key is in storage under that
    key, and every record stored under that key holds the values of the row,
    whether the row updated an instance or created one, and whatever the
    [create] flag. *)
Theorem todjango_stores_every_keyed_row
  (settings : pydict Z) (t : table) (c : pyclass) (rs : list row)
  (create use_bulk_create : bool) (db0 db1 : database) (rep : report) :
  issubclass c Model = true ->
  class_meta c = Some o ->
  has_next t = true ->
  t_rows t = map VStr hs :: rs ->
  NoDup (supplied_keys o (map VStr hs) rs) ->
  (forall r, In r rs -> typed_cells o (make_value_map (map VStr hs) r) = true) ->
  db_ok o db0 ->
  (use_bulk_create = true -> 0 < effective_chunk_size settings None) ->
  todjango settings t (ClassObj c) true create use_bulk_create db0 = (Ok rep, db1) ->
  forall r, In r rs ->
    row_pk_value o (make_value_map (map VStr hs) r) <> VNone ->
    (exists rec, In rec (db_rows db1) /\
                 row_pk o rec = row_pk_value o (make_value_map (map VStr hs) r)) /\
    (forall rec, In rec (db_rows db1) ->
                 row_pk o rec = row_pk_value o (make_value_map (map VStr hs) r) ->
                 agrees rec (make_value_map (map VStr hs) r)).
Proof.
  intros Hsub Hmeta Hnext Hrows Hnd Hty Hdb Hsize H r Hr Hkey.
  rewrite (todjango_unfold settings t c o true create use_bulk_create db0
             (map VStr hs) rs Hsub Hmeta Hwf Hnext Hrows) in H.
  destruct (process_rows o true use_bulk_create (map VStr hs) rs
              (initial_state o true db0) db0) as [[st1|e] dbe] eqn:P; [|discriminate].
  destruct (process_rows_inv use_bulk_create rs [] _ _ _ _
              (loop_inv_initial use_bulk_create db0 Hdb)
              (fun r1 _ r0 (H0 : In r0 []) => match H0 with end) Hnd Hty P)
    as [done [Hall Hinv]].
  assert (Hdone : forall r0, In r0 rs -> In r0 done)
    by (intros r0 H0; apply Hall; now right).
  destruct use_bulk_create.
  - destruct (_chunked_bulk_create settings o (unsaved_models st1) None dbe)
      as [[[]|e] dbb] eqn:B; [|discriminate].
    inversion H. subst db1. split.
    + apply (stored_after_bulk settings done st1 dbe dbb r Hinv (Hdone r Hr) Hkey
               (Hty r Hr) (Hsize eq_refl) B).
    + intros rec Hin Hrec.
      apply (proj2 (written_after_bulk settings rs done st1 dbe dbb Hinv Hdone Hty B)
               r rec Hr Hin Hrec).
  - inversion H. subst db1. split.
    + apply (stored_without_bulk done st1 dbe r Hinv (Hdone r Hr) Hkey).
    + intros rec Hin Hrec.
      apply (proj2 (written_without_bulk rs done st1 dbe Hinv Hdone) r rec Hr Hin Hrec).
Qed.

(** *** The records a run leaves alone *)

Lemma process_row_leaves_other_keys (use_bulk_create : bool) (done : list row)
  (r : row) (st st' : loop_state) (db db' : database) :
  loop_inv o use_bulk_create (map VStr hs) done st db ->
  typed_cells o (make_value_map (map VStr hs) r) = true ->
  process_row o true use_bulk_create (map VStr hs) r st db = (Ok st', db') ->
  forall rec, In rec (db_rows db) ->
    row_pk o rec <> row_pk_value o (make_value_map (map VStr hs) r) ->
    In rec (db_rows db').
Proof.
  intros Hinv Hty H rec Hin Hother. unfold process_row, matched in H.
  pose proof (value_map_field_keys r) as Hfk.
  pose proof (value_map_nodup r) as Hnd.
  destruct (assoc_get value_eqb (existing_model_map st) _) as [obj|] eqn:G.
  - unfold update_existing in H.
    destruct (_will_model_change _ obj) as [[|]|e] eqn:W; try discriminate.
    + destruct (_apply_value_map _ obj) as [obj1|e] eqn:A; [|discriminate].
      destruct (save obj1 db) as [[obj2|e] db2] eqn:S; [|discriminate].
      inversion H. subst st' db'. clear H.
      destruct Hinv as [[Hkeys _] [Hsync _]].
      destruct (Hsync _ obj G) as [Hm [Hpk [[rec0 [Hin0 Hrec0]] _]]].
      assert (Hne : row_pk_value o (make_value_map (map VStr hs) r) <> VNone).
      { intros Hk. apply Hkeys. unfold pks. rewrite <- Hk, <- Hrec0. now apply in_map. }
      destruct (apply_value_map_fields _ obj obj1 Hm Hfk Hnd A) as [Hm1 Hd].
      assert (Hpk1 : pk_val obj1 = row_pk_value o (make_value_map (map VStr hs) r)).
      { unfold pk_val, dict_get_or_none. rewrite Hm1, pk_attname, Hd.
        unfold row_pk_value in *.
        destruct (assoc_get value_eqb _ (VStr (name (pk o)))); [reflexivity|].
        contradiction. }
      destruct (save_keyed obj1 obj2 db db2 _ Hm1 Hpk1 Hne
                  (typed_cells_key _ Hty Hne) S) as [r1 [_ [_ [Ha _]]]].
      now apply Ha.
    + inversion H. now subst db'.
  - unfold create_new in H.
    destruct (new_model o _) as [obj|e] eqn:N; [|discriminate].
    destruct (new_model_fields _ obj Hfk Hnd N) as [Hm [_ [Hpk _]]].
    destruct use_bulk_create.
    + inversion H. now subst db'.
    + destruct (save obj db) as [[obj'|e] db2] eqn:S; [|discriminate].
      inversion H. subst st' db'. clear H.
      destruct (value_eqb (row_pk_value o (make_value_map (map VStr hs) r)) VNone) eqn:E.
      * apply value_eqb_eq in E. rewrite E in Hpk.
        destruct (save_unkeyed obj obj' db db2 Hm Hpk S) as [r' [Hdb _]].
        rewrite Hdb. apply in_or_app. now left.
      * apply value_eqb_neq in E.
        destruct (save_keyed obj obj' db db2 _ Hm Hpk E
                    (typed_cells_key _ Hty E) S) as [r1 [_ [_ [Ha _]]]].
        now apply Ha.
Qed.

Lemma process_rows_leave_other_keys (use_bulk_create : bool) (rs : list row) :
  forall done st db st' db',
  loop_inv o use_bulk_create (map VStr hs) done st db ->
  (forall r1, In r1 rs -> fresh_key o (map VStr hs) done r1) ->
  NoDup (supplied_keys o (map VStr hs) rs) ->
  (forall r1, In r1 rs -> typed_cells o (make_value_map (map VStr hs) r1) = true) ->
  process_rows o true use_bulk_create (map VStr hs) rs st db = (Ok st', db') ->
  forall rec, In rec (db_rows db) ->
    ~ In (row_pk o rec) (row_keys o (map VStr hs) rs) ->
    In rec (db_rows db').
Proof.
  induction rs as [|r rest IH]; simpl; intros done st db st' db' Hinv Hfresh Hnd Hty H
                                               rec Hin Hother.
  - inversion H. now subst db'.
  - destruct (process_row o true use_bulk_create (map VStr hs) r st db)
      as [[st1|e] db1] eqn:P; [|discriminate].
    pose proof (process_row_leaves_other_keys _ _ _ _ _ _ _ Hinv
                  (Hty r (or_introl eq_refl)) P rec Hin) as Hstep.
    apply process_row_inv with (done := done) in P;
      [|assumption | apply Hfresh; now left | apply Hty; now left].
    destruct (supplied_keys_fresh done r rest Hfresh Hnd) as [Hfresh' Hnd'].
    apply (IH _ _ _ _ _ P Hfresh' Hnd' (fun r1 H1 => Hty r1 (or_intror H1)) H).
    + apply Hstep. intros Heq. apply Hother. left. now symmetry.
    + intros Hc. apply Hother. now right.
Qed.

(** X15. Under the same conditions as X14 (without the one on the chunk
    size), a record whose primary key no row of the table supplies is in
    storage after the run exactly as it was before: [todjango] with [update]
    set rewrites only the records its rows name. *)
Theorem todjango_leaves_other_records
  (settings : pydict Z) (t : table) (c : pyclass) (rs : list row)
  (create use_bulk_create : bool) (db0 db1 : database) (rep : report) :
  issubclass c Model = true ->
  class_meta c = Some o ->
  has_next t = true ->
  t_rows t = map VStr hs :: rs ->
  NoDup (supplied_keys o (map VStr hs) rs) ->
  (forall r, In r rs -> typed_cells o (make_value_map (map VStr hs) r) = true) ->
  db_ok o db0 ->
  todjango settings t (ClassObj c) true create use_bulk_create db0 = (Ok rep, db1) ->
  forall rec, In rec (db_rows db0) ->
    ~ In (row_pk o rec) (row_keys o (map VStr hs) rs) ->
    In rec (db_rows db1).
Proof.
  intros Hsub Hmeta Hnext Hrows Hnd Hty Hdb H rec Hin Hother.
  rewrite (todjango_unfold settings t c o true create use_bulk_create db0
             (map VStr hs) rs Hsub Hmeta Hwf Hnext Hrows) in H.
  destruct (process_rows o true use_bulk_create (map VStr hs) rs
              (initial_state o true db0) db0) as [[st1|e] dbe] eqn:P; [|discriminate].
  pose proof (process_rows_leave_other_keys use_bulk_create rs [] _ _ _ _
                (loop_inv_initial use_bulk_create db0 Hdb)
                (fun r1 _ r0 (H0 : In r0 []) => match H0 with end) Hnd Hty P
                rec Hin Hother) as Hloop.
  destruct use_bulk_create.
  - destruct (_chunked_bulk_create settings o (unsaved_models st1) None dbe)
      as [[[]|e] dbb] eqn:B; [|discriminate].
    inversion H. subst db1.
    unfold _chunked_bulk_create in B. rewrite _get_setting_chunk_size in B.
    destruct (py_range 0 _ _) as [starts|e]; [|discriminate].
    destruct (bulk_create_loop_spec _ _ _ _ _ B) as [news [Hrows' _]].
    rewrite Hrows'. apply in_or_app. now left.
  - inversion H. now subst db1.
Qed.
End Idempotence.

Lemma second_run_updates_nothing_witness :
  update_saves
    (new_calls
       (snd (todjango [] people_table (ClassObj Person) true true true person_db))
       (snd (todjango [] people_table (ClassObj Person) true true true
               (snd (todjango [] people_table (ClassObj Person) true true true person_db)))))
  = [] /\
  forall rep2,
    fst (todjango [] people_table (ClassObj Person) true true true
           (snd (todjango [] people_table (ClassObj Person) true true true person_db)))
    = Ok rep2 ->
    updated rep2 = 0.
Proof.
  apply (second_run_updates_nothing person_meta eq_refl eq_refl eq_refl)
    with (hs := ["id"; "name"; "age"]) (settings := []) (t := people_table)
         (c := Person) (rs := [[VInt 1; VStr "Alice"; VInt 31]; [VInt 2; VStr "Bob"; VInt 25]])
         (create1 := true) (create2 := true) (bulk1 := true) (bulk2 := true)
         (db0 := person_db) (rep1 := {| updated := 1; created := 1 |}).
  - intros f [<-|[<-|[<-|[]]]] _; reflexivity.
  - intros h [<-|[<-|[<-|[]]]]; simpl; auto.
  - reflexivity.
  - reflexivity.
  - reflexivity.
  - reflexivity.
  - vm_compute.
    repeat (apply NoDup_cons; [simpl; intuition discriminate|]). apply NoDup_nil.
  - intros r [<-|[<-|[]]]; reflexivity.
  - split; [|split]; vm_compute.
    + repeat (apply NoDup_cons; [simpl; tauto|]). apply NoDup_nil.
    + intros [H|[]]. discriminate.
    + reflexivity.
  - reflexivity.
  - destruct (todjango [] people_table (ClassObj Person) true true true
                (snd (todjango [] people_table (ClassObj Person) true true true person_db)));
      reflexivity.
Defined.

(** C5, the claim as stated fails: with two rows for the same primary key
    and different values, the first run leaves the value of the last row,
    and the second run, over that storage, saves the existing instance
    twice and reports two updates. *)
Lemma second_run_updates_repeated_key :
  fst (todjango [] twice_table (ClassObj Person) true true true person_db)
  = Ok {| updated := 1; created := 0 |}
  /\ fst (todjango [] twice_table (ClassObj Person) true true true
            (snd (todjango [] twice_table (ClassObj Person) true true true person_db)))
     = Ok {| updated := 2; created := 0 |}
  /\ List.length
       (update_saves
          (new_calls
             (snd (todjango [] twice_table (ClassObj Person) true true true person_db))
             (snd (todjango [] twice_table (ClassObj Person) true true true
                     (snd (todjango [] twice_table (ClassObj Person) true true true person_db))))))
     = 2%nat.
Proof. repeat split; vm_compute; reflexivity. Qed.

(** A cell of another type than its column. The integer column stores 31
    for the string ["31"]; the instance the second run loads holds 31, the
    row still holds the string, so the second run saves the instance
    again. *)
Lemma second_run_updates_retyped_cell :
  todjango [] retyped_table (ClassObj Person) true true false person_db
  = (Ok {| updated := 1; created := 0 |},
     {| db_rows := [[("id", VInt 1); ("name", VStr "Alice"); ("age", VInt 31)]];
        next_pk := 2; integrity := no_constraint;
        calls := [CallSave {| i_meta := person_meta; adding := false;
                              i_dict := [("id", VInt 1); ("name", VStr "Alice");
                                         ("age", VStr "31")] |}] |})
  /\ fst (todjango [] retyped_table (ClassObj Person) true true false
            (snd (todjango [] retyped_table (ClassObj Person) true true false
                    person_db)))
     = Ok {| updated := 1; created := 0 |}.
Proof. split; reflexivity. Qed.

(** A key of another type than its column. The string ["1"] equals no
    loaded key, so the row takes the create branch; the key column takes the
    string for 1, so the save of the new instance writes over the record
    stored under 1, and the bulk insert is refused. *)
Lemma string_key_overwrites_record :
  db_rows (snd (todjango [] string_key_table (ClassObj Person) true true false
                  person_db))
  = [[("id", VInt 1); ("name", VStr "Zed"); ("age", VInt 50)]]
  /\ (exists e,
        fst (todjango [] string_key_table (ClassObj Person) true true true
               person_db) = Raise e
        /\ kind e = IntegrityError).
Proof. split; [reflexivity|]. eexists. split; reflexivity. Qed.

(** * Further properties of [django_view.py] *)

(** ** Comparing and applying a value map *)

(** X1. [_will_model_change] answers [False] exactly when reading every key
    of the value map off the instance succeeds and gives the mapped value. *)
Theorem will_model_change_false_iff (value_map : value_map_t) (obj : instance) :
  _will_model_change value_map obj = Ok false <->
  Forall (fun kv => getattr_key obj (fst kv) = Ok (snd kv)) value_map.
Proof.
  induction value_map as [|[k v] vm IH]; simpl.
  - split; [constructor | reflexivity].
  - destruct (getattr_key obj k) as [a|e] eqn:G; simpl.
    + destruct (value_eqb a v) eqn:E; simpl.
      * apply value_eqb_eq in E. subst a. rewrite IH. split.
        -- intros H. constructor; assumption.
        -- intros H. inversion H. assumption.
      * apply value_eqb_neq in E. split; [discriminate|].
        intros H. inversion H as [|? ? Hhead _]. simpl in Hhead.
        rewrite G in Hhead. inversion Hhead. contradiction.
    + split; [discriminate|]. intros H. inversion H as [|? ? Hhead _].
      simpl in Hhead. rewrite G in Hhead. discriminate.
Qed.

(** X2. [_will_model_change] answers [True] exactly at the first key whose
    value differs from the attribute, every key before it being readable
    and equal. *)
Theorem will_model_change_true_at_first_difference
  (value_map : value_map_t) (obj : instance) :
  _will_model_change value_map obj = Ok true <->
  exists before k v a after,
    value_map = (before ++ (k, v) :: after)%list /\
    Forall (fun kv => getattr_key obj (fst kv) = Ok (snd kv)) before /\
    getattr_key obj k = Ok a /\ a <> v.
Proof.
  induction value_map as [|[k v] vm IH]; simpl.
  - split; [discriminate|]. intros [before [k [v [a [after [H _]]]]]].
    destruct before; discriminate.
  - destruct (getattr_key obj k) as [a|e] eqn:G; simpl.
    + destruct (value_eqb a v) eqn:E; simpl.
      * apply value_eqb_eq in E. subst a. rewrite IH. split.
        -- intros [before [k1 [v1 [a1 [after [Hvm [Hb [Hg Hne]]]]]]]].
           exists ((k, v) :: before), k1, v1, a1, after. subst vm.
           repeat split; try assumption. constructor; assumption.
        -- intros [before [k1 [v1 [a1 [after [Hvm [Hb [Hg Hne]]]]]]]].
           destruct before as [|kv before]; simpl in Hvm; inversion Hvm; subst.
           ++ congruence.
           ++ inversion Hb. exists before, k1, v1, a1, after. auto.
      * apply value_eqb_neq in E. split; [intros _|reflexivity].
        exists [], k, v, a, vm. repeat split; auto.
    + split; [discriminate|].
      intros [before [k1 [v1 [a1 [after [Hvm [Hb [Hg Hne]]]]]]]].
      destruct before as [|kv before]; simpl in Hvm; inversion Hvm; subst.
      * rewrite G in Hg. discriminate.
      * inversion Hb as [|? ? Hhead _]. simpl in Hhead. rewrite G in Hhead.
        discriminate.
Qed.


Lemma apply_value_map_dict (value_map : value_map_t) :
  forall i i',
  NoDup (map fst value_map) ->
  forallb (fun kv => plain_attribute (i_meta i) (fst kv)) value_map = true ->
  _apply_value_map value_map i = Ok i' ->
  i_meta i' = i_meta i /\ adding i' = adding i /\
  forall a, dict_get (i_dict i') a =
            match assoc_get value_eqb value_map (VStr a) with
            | Some v => Some v
            | None => dict_get (i_dict i) a
            end.
Proof.
  induction value_map as [|[k v] vm IH]; intros i i' Hnd Hplain H.
  - simpl in H. inversion H. auto.
  - simpl in Hplain. apply andb_prop in Hplain. destruct Hplain as [Hk Hrest].
    simpl in Hnd. apply NoDup_cons_iff in Hnd. destruct Hnd as [Hnotin Hnd].
    destruct k as [|n|s|cls key]; try discriminate Hk.
    simpl in H. rewrite (setattr_plain i s v Hk) in H.
    apply IH in H; [|assumption|exact Hrest]. simpl in H.
    destruct H as [Hm [Ha Hd]]. split; [assumption|]. split; [assumption|].
    intros a. rewrite Hd. simpl.
    destruct (String.eqb s a) eqn:E.
    + apply String.eqb_eq in E. subst a.
      destruct (assoc_get value_eqb vm (VStr s)) eqn:G.
      * apply assoc_get_some_keys in G. contradiction.
      * apply dict_get_set_same.
    + destruct (assoc_get value_eqb vm (VStr a)); [reflexivity|].
      apply dict_get_set_other. intros ->. now rewrite String.eqb_refl in E.
Qed.



Lemma dict_set_same_value {V} (d : pydict V) (s : string) (v : V) :
  dict_get d s = Some v -> dict_set d s v = d.
Proof.
  unfold dict_get, dict_set. induction d as [|[k0 v0] d IH]; simpl; [discriminate|].
  destruct (String.eqb k0 s); intros H.
  - now inversion H.
  - f_equal. now apply IH.
Qed.

Lemma apply_value_map_held (value_map : value_map_t) (i : instance) :
  (forall k v, In (k, v) value_map ->
     exists s, k = VStr s /\ plain_attribute (i_meta i) k = true /\
               dict_get (i_dict i) s = Some v) ->
  _apply_value_map value_map i = Ok i.
Proof.
  induction value_map as [|[k v] vm IH]; intros H; [reflexivity|].
  destruct (H k v (or_introl eq_refl)) as [s [-> [Hp Hd]]].
  simpl. rewrite (setattr_plain i s v Hp), (dict_set_same_value _ _ _ Hd).
  destruct i as [m a d]. simpl in *. apply IH.
  intros k1 v1 H1. apply (H k1 v1). now right.
Qed.

(** X4. Applying a value map of plain attribute names a second time changes
    nothing: the instance it returns is returned again as it is. *)
Theorem apply_value_map_twice (value_map : value_map_t) (i i' : instance) :
  NoDup (map fst value_map) ->
  forallb (fun kv => plain_attribute (i_meta i) (fst kv)) value_map = true ->
  _apply_value_map value_map i = Ok i' ->
  _apply_value_map value_map i' = Ok i'.
Proof.
  intros Hnd Hplain H.
  destruct (apply_value_map_dict value_map i i' Hnd Hplain H) as [Hm [_ Hd]].
  apply apply_value_map_held. intros k v Hin.
  rewrite forallb_forall in Hplain. specialize (Hplain (k, v) Hin). simpl in Hplain.
  destruct k as [|n|s|cls key]; try discriminate Hplain.
  exists s. split; [reflexivity|]. split; [now rewrite Hm|].
  rewrite Hd. now rewrite (In_assoc_get _ _ _ Hnd Hin).
Qed.

Lemma apply_value_map_twice_witness :
  _apply_value_map [(VStr "age", VInt 31)]
    {| i_meta := person_meta; adding := false;
       i_dict := [("id", VInt 1); ("name", VStr "Alice"); ("age", VInt 31)] |}
  = Ok {| i_meta := person_meta; adding := false;
          i_dict := [("id", VInt 1); ("name", VStr "Alice"); ("age", VInt 31)] |}.
Proof.
  apply (apply_value_map_twice [(VStr "age", VInt 31)] alice).
  - repeat constructor. simpl. tauto.
  - reflexivity.
  - reflexivity.
Defined.






(** ** The value map of a row *)

Lemma assoc_of_pairs_distinct {V} (l : list (value * V)) :
  NoDup (map fst l) -> assoc_of_pairs value_eqb l = l.
Proof.
  unfold assoc_of_pairs.
  assert (G : forall acc,
             NoDup (map fst (acc ++ l)) ->
             fold_left (fun d kv => assoc_set value_eqb d (fst kv) (snd kv)) l acc
             = (acc ++ l)%list).
  { induction l as [|[k v] l IH]; simpl; intros acc H.
    - now rewrite app_nil_r.
    - replace (acc ++ (k, v) :: l)%list with ((acc ++ [(k, v)]) ++ l)%list in *
        by (now rewrite <- app_assoc).
      rewrite <- IH by assumption. f_equal.
      assert (Hk : ~ In k (map fst acc)).
      { rewrite !map_app in H. apply NoDup_app_remove_r in H.
        apply NoDup_remove_2 in H. simpl in H. now rewrite app_nil_r in H. }
      clear - Hk. induction acc as [|[k0 v0] acc IHa]; simpl; [reflexivity|].
      simpl in Hk. destruct (value_eqb k0 k) eqn:E.
      + apply value_eqb_eq in E. tauto.
      + f_equal. apply IHa. tauto. }
  intros H. apply (G [] H).
Qed.

Lemma combine_keys_nodup {V} (headers : list value) (r : list V) :
  NoDup headers -> NoDup (map fst (combine headers r)).
Proof.
  revert r. induction headers as [|h headers IH]; intros r Hnd; [constructor|].
  destruct r as [|v r]; [constructor|]. simpl.
  apply NoDup_cons_iff in Hnd. destruct Hnd as [Hnotin Hnd].
  constructor; [|now apply IH].
  intros Hin. apply Hnotin. apply in_map_iff in Hin.
  destruct Hin as [[k v'] [<- Hin]]. now apply in_combine_l in Hin.
Qed.

(** X6. With distinct column names, the value map of a row gives under the
    name of column [i] the cell [i] of the row, and nothing under the name
    of a column the row is too short to reach; so the primary key of a row
    is the cell under the primary-key column, and [None] when the row stops
    before it. *)
Theorem value_map_lookup (o : options) (table_headers r : row) (i : nat) (h : value) :
  NoDup table_headers ->
  nth_error table_headers i = Some h ->
  assoc_get value_eqb (make_value_map table_headers r) h = nth_error r i /\
  (h = VStr (name (pk o)) ->
   row_pk_value o (make_value_map table_headers r)
   = match nth_error r i with Some v => v | None => VNone end).
Proof.
  intros Hnd Hnth.
  assert (Hget : assoc_get value_eqb (make_value_map table_headers r) h = nth_error r i).
  { unfold make_value_map.
    rewrite assoc_of_pairs_distinct by (now apply combine_keys_nodup).
    revert r i Hnth. induction table_headers as [|h0 hs IH]; intros r i Hnth.
    - destruct i; discriminate.
    - apply NoDup_cons_iff in Hnd. destruct Hnd as [Hnotin Hnd].
      destruct i as [|i]; simpl in Hnth.
      + inversion Hnth. subst h0. destruct r as [|v r]; [reflexivity|].
        simpl. now rewrite value_eqb_refl.
      + destruct r as [|v r]; [simpl; now destruct i|]. simpl.
        destruct (value_eqb h0 h) eqn:E.
        * apply value_eqb_eq in E. subst h0. exfalso. apply Hnotin.
          now apply nth_error_In in Hnth.
        * now apply IH. }
  split; [assumption|]. intros ->. unfold row_pk_value. now rewrite Hget.
Qed.

Lemma value_map_lookup_witness :
  assoc_get value_eqb
    (make_value_map [VStr "name"; VStr "age"; VStr "id"] [VStr "Bob"; VInt 25])
    (VStr "id") = None /\
  (VStr "id" = VStr (name (pk person_meta)) ->
   row_pk_value person_meta
     (make_value_map [VStr "name"; VStr "age"; VStr "id"] [VStr "Bob"; VInt 25])
   = VNone).
Proof.
  apply (value_map_lookup person_meta [VStr "name"; VStr "age"; VStr "id"]
           [VStr "Bob"; VInt 25] 2 (VStr "id")).
  - repeat (apply NoDup_cons; [simpl; intuition discriminate|]). apply NoDup_nil.
  - reflexivity.
Defined.

(** ** The chunker outside positive chunk sizes *)

Lemma py_range_nothing (c : Z) : c <> 0 -> py_range 0 0 c = Ok [].
Proof.
  intros Hc. unfold py_range, range_len.
  replace (c =? 0) with false by (symmetry; apply Z.eqb_neq; lia).
  simpl. rewrite !andb_false_r. reflexivity.
Qed.

(** X7. A chunk size of zero makes [_chunked_bulk_create] raise
    [ValueError] before any call, for every list, the empty one included; a
    negative chunk size makes it return without issuing any call, whatever
    the list holds. *)
Theorem chunked_bulk_create_without_chunks
  (settings : pydict Z) (o : options) (unsaved_models : list instance)
  (chunk_size : option Z) (db : database) :
  effective_chunk_size settings chunk_size <= 0 ->
  _chunked_bulk_create settings o unsaved_models chunk_size db
  = (if effective_chunk_size settings chunk_size =? 0
     then Raise (mk_exn ValueError "range() arg 3 must not be zero")
     else Ok tt, db).
Proof.
  intros Hc. unfold _chunked_bulk_create.
  assert (Hsize : match chunk_size with
                  | Some c => Ok c
                  | None => _get_setting settings "BULK_CREATE_CHUNK_SIZE"
                  end = Ok (effective_chunk_size settings chunk_size))
    by (destruct chunk_size; reflexivity).
  rewrite Hsize. set (c := effective_chunk_size settings chunk_size) in *.
  destruct (c =? 0) eqn:E.
  - apply Z.eqb_eq in E. rewrite E. reflexivity.
  - apply Z.eqb_neq in E. rewrite py_range_negative by lia. reflexivity.
Qed.

Lemma chunked_bulk_create_without_chunks_witness :
  _chunked_bulk_create [("BULK_CREATE_CHUNK_SIZE", -5)] person_meta [bob; carol]
                       None person_db
  = (Ok tt, person_db).
Proof.
  apply (chunked_bulk_create_without_chunks [("BULK_CREATE_CHUNK_SIZE", -5)]
           person_meta [bob; carol] None person_db).
  vm_compute. discriminate.
Defined.

(** ** What a run of [todjango] sends to storage *)

Lemma process_row_sends_saves (o : options) (update use_bulk_create : bool)
  (table_headers r : row) (st : loop_state) (db : database) :
  exists l,
    calls (snd (process_row o update use_bulk_create table_headers r st db))
    = (calls db ++ map CallSave l)%list /\ (List.length l <= 1)%nat.
Proof.
  unfold process_row.
  destruct (matched update st _) as [obj|].
  - unfold update_existing.
    destruct (_will_model_change _ obj) as [[|]|e];
      try (exists []; simpl; rewrite app_nil_r; split; [reflexivity | lia]).
    destruct (_apply_value_map _ obj) as [obj1|e];
      try (exists []; simpl; rewrite app_nil_r; split; [reflexivity | lia]).
    pose proof (save_calls obj1 db) as Hc.
    destruct (save obj1 db) as [[obj2|e] db2]; exists [obj1]; simpl in *; auto.
  - unfold create_new.
    destruct (new_model o _) as [obj|e];
      try (exists []; simpl; rewrite app_nil_r; split; [reflexivity | lia]).
    destruct use_bulk_create;
      try (exists []; simpl; rewrite app_nil_r; split; [reflexivity | lia]).
    pose proof (save_calls obj db) as Hc.
    destruct (save obj db) as [[obj2|e] db2]; exists [obj]; simpl in *; auto.
Qed.

Lemma process_rows_sends_saves (o : options) (update use_bulk_create : bool)
  (table_headers : row) (rs : list row) :
  forall st db,
  exists l,
    calls (snd (process_rows o update use_bulk_create table_headers rs st db))
    = (calls db ++ map CallSave l)%list /\ (List.length l <= List.length rs)%nat.
Proof.
  induction rs as [|r rest IH]; intros st db.
  - exists []. simpl. rewrite app_nil_r. auto.
  - simpl.
    destruct (process_row_sends_saves o update use_bulk_create table_headers r st db)
      as [l1 [Hc1 Hl1]].
    destruct (process_row o update use_bulk_create table_headers r st db)
      as [[st1|e] db1]; simpl in Hc1.
    + destruct (IH st1 db1) as [l2 [Hc2 Hl2]].
      exists (l1 ++ l2)%list. split.
      * rewrite Hc2, Hc1, map_app. now rewrite <- app_assoc.
      * rewrite length_app. lia.
    + exists l1. simpl. split; [assumption | lia].
Qed.

Lemma chunked_bulk_create_sends_chunks (settings : pydict Z) (o : options)
  (unsaved : list instance) (chunk_size : option Z) (db : database) :
  exists l,
    calls (snd (_chunked_bulk_create settings o unsaved chunk_size db))
    = (calls db ++ map CallBulkCreate l)%list.
Proof.
  unfold _chunked_bulk_create.
  destruct (match chunk_size with Some c => Ok c | None => _ end) as [c|e];
    [|exists []; simpl; now rewrite app_nil_r].
  destruct (py_range 0 _ c) as [starts|e];
    [|exists []; simpl; now rewrite app_nil_r].
  destruct (bulk_create_loop_calls o unsaved c starts db) as [j [_ [Hc _]]].
  cbv zeta in Hc. eexists. exact Hc.
Qed.

(** X8. Whatever the table and the flags, the calls a run of [todjango]
    sends to storage are individual saves, at most one per data row,
    followed by bulk inserts: no save comes after the first bulk insert,
    and without [use_bulk_create] there is no bulk insert at all. *)
Theorem todjango_saves_then_bulk_inserts
  (settings : pydict Z) (t : table) (model : pyobj)
  (update create use_bulk_create : bool) (db : database) :
  exists saved chunks,
    calls (snd (todjango settings t model update create use_bulk_create db))
    = (calls db ++ map CallSave saved ++ map CallBulkCreate chunks)%list /\
    (List.length saved <= List.length (t_rows t) - 1)%nat /\
    (use_bulk_create = false -> chunks = []).
Proof.
  assert (Hnone : forall (r : result report),
            exists saved chunks,
              calls (snd (r, db))
              = (calls db ++ map CallSave saved ++ map CallBulkCreate chunks)%list /\
              (List.length saved <= List.length (t_rows t) - 1)%nat /\
              (use_bulk_create = false -> chunks = [])).
  { intros r. exists [], []. simpl. rewrite app_nil_r. repeat split. lia. }
  unfold todjango. destruct model as [c|ty q|v]; try apply Hnone.
  destruct (negb (issubclass c Model)); [apply Hnone|].
  unfold iterator_next. destruct (has_next t); [|apply Hnone].
  destruct (t_rows t) as [|table_headers rs]; [apply Hnone|].
  destruct (meta_of (ClassObj c)) as [o|e]; [|apply Hnone].
  destruct (update && negb _); [apply Hnone|].
  destruct (process_rows_sends_saves o update use_bulk_create table_headers rs
              (initial_state o update db) db) as [saved [Hc Hl]].
  destruct (process_rows o update use_bulk_create table_headers rs _ db)
    as [[st|e] db1]; simpl in Hc.
  - destruct use_bulk_create.
    + destruct (chunked_bulk_create_sends_chunks settings o (unsaved_models st) None db1)
        as [chunks Hc2].
      exists saved, chunks.
      destruct (_chunked_bulk_create settings o (unsaved_models st) None db1)
        as [[u|e] db2]; simpl in *; rewrite Hc2, Hc, <- app_assoc;
        (split; [reflexivity|]); (split; [lia | discriminate]).
    + exists saved, []. simpl. rewrite app_nil_r.
      split; [assumption|]. split; [lia | reflexivity].
  - exists saved, []. simpl. rewrite app_nil_r.
    split; [assumption|]. split; [lia | reflexivity].
Qed.

(** X9. When a data row raises, [todjango] ends with that exception
    without any bulk insert: the instances kept in [unsaved_models] for the
    rows before it never reach storage, which has received saves only. *)
Theorem failing_row_discards_deferred_instances
  (settings : pydict Z) (t : table) (c : pyclass) (o : options)
  (update create : bool) (db0 : database) (table_headers : row)
  (before : list row) (r : row) (after : list row)
  (st1 : loop_state) (db1 db2 : database) (e : exn) :
  issubclass c Model = true ->
  class_meta c = Some o ->
  wf_options o = true ->
  has_next t = true ->
  t_rows t = table_headers :: (before ++ r :: after)%list ->
  process_rows o update true table_headers before (initial_state o update db0) db0
  = (Ok st1, db1) ->
  process_row o update true table_headers r st1 db1 = (Raise e, db2) ->
  todjango settings t (ClassObj c) update create true db0 = (Raise e, db2) /\
  exists saved, calls db2 = (calls db0 ++ map CallSave saved)%list.
Proof.
  intros Hsub Hmeta Hwf Hnext Hrows Hbefore Hrow.
  pose proof (process_rows_raise o update true table_headers before r after
                _ _ _ _ _ _ Hbefore Hrow) as Hloop.
  rewrite (todjango_unfold settings t c o update create true db0 table_headers _
             Hsub Hmeta Hwf Hnext Hrows), Hloop.
  split; [reflexivity|].
  destruct (process_rows_sends_saves o update true table_headers
              (before ++ r :: after) (initial_state o update db0) db0)
    as [saved [Hc _]].
  rewrite Hloop in Hc. exists saved. exact Hc.
Qed.

Lemma failing_row_discards_deferred_instances_witness :
  fst (todjango [] bob_then_alice_table (ClassObj Person) true true true guarded_db)
  = Raise (set_petl_data (mk_exn DatabaseError "rejected")
             [(VStr "id", VInt 1); (VStr "name", VStr "Alice"); (VStr "age", VInt 31)]).
Proof.
  exact (f_equal fst
           (proj1 (failing_row_discards_deferred_instances
                     [] bob_then_alice_table Person person_meta true true guarded_db
                     [VStr "id"; VStr "name"; VStr "age"]
                     [[VInt 2; VStr "Bob"; VInt 25]] [VInt 1; VStr "Alice"; VInt 31] []
                     _ _ _ _ eq_refl eq_refl eq_refl eq_refl eq_refl eq_refl eq_refl))).
Defined.

(** ** The counts a run reports *)

Lemma process_row_counts (o : options) (update use_bulk_create : bool)
  (table_headers r : row) (st st' : loop_state) (db db' : database) :
  process_row o update use_bulk_create table_headers r st db = (Ok st', db') ->
  updated_model_count st <= updated_model_count st' /\
  (List.length (unsaved_models st) <= List.length (unsaved_models st'))%nat /\
  updated_model_count st' + Z.of_nat (List.length (unsaved_models st'))
  <= updated_model_count st + Z.of_nat (List.length (unsaved_models st)) + 1 /\
  (use_bulk_create = false -> unsaved_models st' = unsaved_models st) /\
  (update = false -> updated_model_count st' = updated_model_count st).
Proof.
  unfold process_row, matched. intros H.
  destruct (if update then _ else None) as [obj|] eqn:M.
  - assert (update = true) by (destruct update; [reflexivity | discriminate]).
    unfold update_existing in H.
    destruct (_will_model_change _ obj) as [[|]|e]; try discriminate.
    + destruct (_apply_value_map _ obj) as [obj1|e]; [|discriminate].
      destruct (save obj1 db) as [[obj2|e] db2]; [|discriminate].
      inversion H. subst st' db'. simpl.
      repeat split; try lia; try reflexivity; try congruence.
    + inversion H. subst st' db'. repeat split; try lia; reflexivity.
  - destruct (create_new_state _ _ _ _ _ _ _ H) as [_ [Hcount [obj [_ [_ Hrest]]]]].
    rewrite Hcount. destruct use_bulk_create.
    + destruct Hrest as [-> _]. rewrite length_app. simpl.
      repeat split; try lia; try discriminate.
    + destruct Hrest as [-> _]. repeat split; try lia; reflexivity.
Qed.

Lemma process_rows_counts (o : options) (update use_bulk_create : bool)
  (table_headers : row) (rs : list row) :
  forall st st' db db',
  process_rows o update use_bulk_create table_headers rs st db = (Ok st', db') ->
  updated_model_count st <= updated_model_count st' /\
  (List.length (unsaved_models st) <= List.length (unsaved_models st'))%nat /\
  updated_model_count st' + Z.of_nat (List.length (unsaved_models st'))
  <= updated_model_count st + Z.of_nat (List.length (unsaved_models st))
     + Z.of_nat (List.length rs) /\
  (use_bulk_create = false -> unsaved_models st' = unsaved_models st) /\
  (update = false -> updated_model_count st' = updated_model_count st).
Proof.
  induction rs as [|r rest IH]; simpl; intros st st' db db' H.
  - inversion H. subst st' db'. repeat split; try lia; reflexivity.
  - destruct (process_row o update use_bulk_create table_headers r st db)
      as [[st1|e] db1] eqn:P; [|discriminate].
    apply process_row_counts in P. apply IH in H.
    destruct P as [P1 [P2 [P3 [P4 P5]]]]. destruct H as [H1 [H2 [H3 [H4 H5]]]].
    repeat split; try lia.
    + intros Hb. rewrite (H4 Hb). now apply P4.
    + intros Hu. rewrite (H5 Hu). now apply P5.
Qed.

(** X10. When [todjango] returns, the two counts it logs are not negative
    and their sum is at most the number of data rows; the count of created
    instances is the length of [unsaved_models], so it is 0 whenever
    [use_bulk_create] is unset, whatever was saved; and the count of updates
    is 0 whenever [update] is unset. *)
Theorem todjango_reported_counts
  (settings : pydict Z) (t : table) (model : pyobj)
  (update create use_bulk_create : bool) (db db' : database) (rep : report) :
  todjango settings t model update create use_bulk_create db = (Ok rep, db') ->
  0 <= updated rep /\ 0 <= created rep /\
  updated rep + created rep <= Z.of_nat (List.length (t_rows t)) - 1 /\
  (use_bulk_create = false -> created rep = 0) /\
  (update = false -> updated rep = 0).
Proof.
  unfold todjango. intros H. destruct model as [c|ty q|v]; try discriminate.
  destruct (negb (issubclass c Model)); [discriminate|].
  unfold iterator_next in H. destruct (has_next t); [|discriminate].
  destruct (t_rows t) as [|table_headers rs]; [discriminate|].
  destruct (meta_of (ClassObj c)) as [o|e]; [|discriminate].
  destruct (update && negb _); [discriminate|].
  destruct (process_rows o update use_bulk_create table_headers rs _ db)
    as [[st|e] db1] eqn:P; [|discriminate].
  apply process_rows_counts in P. simpl in P.
  destruct P as [P1 [P2 [P3 [P4 P5]]]].
  assert (Hrep : rep = {| updated := updated_model_count st;
                          created := Z.of_nat (List.length (unsaved_models st)) |}).
  { destruct use_bulk_create.
    - destruct (_chunked_bulk_create settings o (unsaved_models st) None db1)
        as [[u|e] db2]; [|discriminate]. now inversion H.
    - now inversion H. }
  subst rep. cbn [updated created].
  change (List.length (table_headers :: rs)) with (S (List.length rs)).
  rewrite Nat2Z.inj_succ.
  split; [lia|]. split; [lia|]. split; [lia|]. split.
  - intros Hb. now rewrite (P4 Hb).
  - intros Hu. now apply P5.
Qed.

Lemma todjango_reported_counts_witness :
  let rep := {| updated := 1; created := 0 |} in
  0 <= updated rep /\ 0 <= created rep /\
  updated rep + created rep <= Z.of_nat (List.length (t_rows people_table)) - 1 /\
  (false = false -> created rep = 0) /\
  (true = false -> updated rep = 0).
Proof.
  apply (todjango_reported_counts [] people_table (ClassObj Person) true true false
           person_db
           (snd (todjango [] people_table (ClassObj Person) true true false person_db))
           {| updated := 1; created := 0 |}).
  reflexivity.
Defined.

(** ** Runs without data rows, runs without [update] *)

(** X11. For a model class and a table whose iterator has a [next]
    method: a table without any row makes [todjango] raise
    [StopIteration]; a table with its header row only makes it return with
    both counts 0, except that with [use_bulk_create] and a chunk size of
    zero it raises [ValueError]. In every case the storage is left as it
    was. *)
Theorem todjango_without_data_rows
  (settings : pydict Z) (t : table) (c : pyclass) (o : options)
  (update create use_bulk_create : bool) (db : database) :
  issubclass c Model = true ->
  class_meta c = Some o ->
  wf_options o = true ->
  has_next t = true ->
  let run := todjango settings t (ClassObj c) update create use_bulk_create db in
  (t_rows t = [] -> run = (Raise (mk_exn StopIteration ""), db)) /\
  (forall h, t_rows t = [h] ->
     (use_bulk_create = true -> effective_chunk_size settings None <> 0) ->
     run = (Ok {| updated := 0; created := 0 |}, db)) /\
  (forall h, t_rows t = [h] ->
     use_bulk_create = true -> effective_chunk_size settings None = 0 ->
     run = (Raise (mk_exn ValueError "range() arg 3 must not be zero"), db)).
Proof.
  intros Hsub Hmeta Hwf Hnext run. split; [|split].
  - intros Hrows. unfold run, todjango, iterator_next.
    now rewrite Hsub, Hnext, Hrows.
  - intros h Hrows Hsize. unfold run.
    rewrite (todjango_unfold settings t c o update create use_bulk_create db h []
               Hsub Hmeta Hwf Hnext Hrows).
    simpl. destruct use_bulk_create; [|reflexivity].
    unfold _chunked_bulk_create. rewrite _get_setting_chunk_size.
    simpl. rewrite py_range_nothing by (now apply Hsize). reflexivity.
  - intros h Hrows Hbulk Hsize. unfold run.
    rewrite (todjango_unfold settings t c o update create use_bulk_create db h []
               Hsub Hmeta Hwf Hnext Hrows).
    simpl. rewrite Hbulk.
    unfold _chunked_bulk_create. rewrite _get_setting_chunk_size, Hsize.
    reflexivity.
Qed.

Lemma todjango_without_data_rows_witness :
  todjango [] empty_table (ClassObj Person) true true true person_db
  = (Raise (mk_exn StopIteration ""), person_db)
  /\ todjango [] header_only_table (ClassObj Person) true true true person_db
     = (Ok {| updated := 0; created := 0 |}, person_db).
Proof.
  split.
  - apply (proj1 (todjango_without_data_rows [] empty_table Person person_meta
                    true true true person_db eq_refl eq_refl eq_refl eq_refl)).
    reflexivity.
  - apply (proj1 (proj2 (todjango_without_data_rows [] header_only_table Person
                           person_meta true true true person_db
                           eq_refl eq_refl eq_refl eq_refl))
             [VStr "id"; VStr "name"; VStr "age"]).
    + reflexivity.
    + intros _. vm_compute. discriminate.
Defined.

Lemma create_new_sends_new (o : options) (use_bulk_create : bool)
  (value_map : value_map_t) (st : loop_state) (db : database) :
  exists new,
    calls (snd (create_new o use_bulk_create value_map st db))
    = (calls db ++ new)%list /\ update_saves new = [] /\
    forall st', fst (create_new o use_bulk_create value_map st db) = Ok st' ->
                existing_model_map st' = existing_model_map st.
Proof.
  unfold create_new.
  destruct (new_model o value_map) as [obj|e] eqn:N.
  - destruct use_bulk_create.
    + exists []. simpl. rewrite app_nil_r. split; [reflexivity|].
      split; [reflexivity|]. intros st' H. now inversion H.
    + pose proof (save_calls obj db) as Hc.
      destruct (new_model_adding _ _ _ N) as [Hadd _].
      destruct (save obj db) as [[obj'|e] db2]; simpl in *;
        exists [CallSave obj]; simpl; rewrite Hadd;
        (split; [assumption|]); (split; [reflexivity|]);
        intros st' H; now inversion H.
  - exists []. simpl. rewrite app_nil_r. split; [reflexivity|].
    split; [reflexivity|]. intros st' H. discriminate.
Qed.

Lemma process_rows_without_update (o : options) (use_bulk_create : bool)
  (table_headers : row) (rs : list row) :
  forall st db,
  existing_model_map st = [] ->
  exists new,
    calls (snd (process_rows o false use_bulk_create table_headers rs st db))
    = (calls db ++ new)%list /\ update_saves new = [].
Proof.
  induction rs as [|r rest IH]; intros st db HE.
  - exists []. simpl. now rewrite app_nil_r.
  - simpl. unfold process_row. simpl.
    destruct (create_new_sends_new o use_bulk_create
                (make_value_map table_headers r) st db) as [n1 [Hc1 [Hu1 Hst]]].
    destruct (create_new o use_bulk_create (make_value_map table_headers r) st db)
      as [[st1|e] db1]; simpl in *.
    + destruct (IH st1 db1 (eq_trans (Hst st1 eq_refl) HE)) as [n2 [Hc2 Hu2]].
      exists (n1 ++ n2)%list. split.
      * rewrite Hc2, Hc1. now rewrite <- app_assoc.
      * rewrite update_saves_app, Hu1, Hu2. reflexivity.
    + exists n1. auto.
Qed.

(** X12. With [update] unset [todjango] loads no existing instance and
    treats every data row as a create: whatever the rows and the storage
    hold, every save it issues is the save of a new instance. *)
Theorem todjango_without_update_saves_new_instances
  (settings : pydict Z) (t : table) (model : pyobj)
  (create use_bulk_create : bool) (db : database) :
  update_saves
    (new_calls db (snd (todjango settings t model false create use_bulk_create db)))
  = [].
Proof.
  unfold new_calls.
  assert (Hnone : forall (r : result report),
            update_saves (skipn (List.length (calls db)) (calls (snd (r, db)))) = []).
  { intros r. simpl. now rewrite skipn_all. }
  unfold todjango. destruct model as [c|ty q|v]; try apply Hnone.
  destruct (negb (issubclass c Model)); [apply Hnone|].
  unfold iterator_next. destruct (has_next t); [|apply Hnone].
  destruct (t_rows t) as [|table_headers rs]; [apply Hnone|].
  destruct (meta_of (ClassObj c)) as [o|e]; [|apply Hnone].
  simpl andb. cbv iota.
  destruct (process_rows_without_update o use_bulk_create table_headers rs
              (initial_state o false db) db eq_refl) as [new [Hc Hu]].
  destruct (process_rows o false use_bulk_create table_headers rs _ db)
    as [[st|e] db1]; simpl in Hc.
  - destruct use_bulk_create.
    + destruct (chunked_bulk_create_sends_chunks settings o (unsaved_models st) None db1)
        as [chunks Hc2].
      destruct (_chunked_bulk_create settings o (unsaved_models st) None db1)
        as [[u|e] db2]; simpl in *;
        rewrite Hc2, Hc, <- app_assoc, skipn_length_app, update_saves_app, Hu;
        apply update_saves_bulk.
    + simpl. now rewrite Hc, skipn_length_app.
  - simpl. now rewrite Hc, skipn_length_app.
Qed.

(** ** What a run never does to the stored records *)

Lemma insert_row_grows (o : options) (r : pydict value) (db db' : database) (k : value) :
  insert_row o r db = Ok (k, db') ->
  List.length (db_rows db') = S (List.length (db_rows db)).
Proof.
  unfold insert_row. intros H.
  destruct (_ && negb (is_auto (pk o))); [discriminate|].
  destruct (integrity db (db_rows db) _); [discriminate|].
  destruct (has_pk o (db_rows db) _); [discriminate|].
  inversion H. simpl. rewrite length_app. simpl. lia.
Qed.

Lemma save_keeps_records (i : instance) (db : database) :
  (List.length (db_rows db) <= List.length (db_rows (snd (save i db))))%nat.
Proof.
  unfold save. cbv zeta.
  destruct (record_of i) as [r|e0]; simpl; [|lia].
  match goal with |- context [if ?c then _ else _] => destruct c end.
  - unfold update_row. simpl.
    destruct (integrity db (db_rows db) r); simpl; [lia|].
    rewrite length_map. lia.
  - destruct (insert_row (i_meta i) r (log_call (CallSave i) db))
      as [[k db2]|e] eqn:I; simpl; [|lia].
    apply insert_row_grows in I. simpl in I. lia.
Qed.

Lemma insert_all_keeps_records (o : options) (objs : list instance) :
  forall db db', insert_all o objs db = Ok db' ->
  (List.length (db_rows db) <= List.length (db_rows db'))%nat.
Proof.
  induction objs as [|i objs IH]; simpl; intros db db' H.
  - inversion H. lia.
  - destruct (record_of i) as [r|e0]; [|discriminate].
    destruct (insert_row o r db) as [[k db1]|e] eqn:I; [|discriminate].
    apply insert_row_grows in I. apply IH in H. lia.
Qed.

Lemma bulk_create_keeps_records (o : options) (objs : list instance) (db : database) :
  (List.length (db_rows db) <= List.length (db_rows (snd (bulk_create o objs db))))%nat.
Proof.
  unfold bulk_create.
  destruct (insert_all o objs (log_call (CallBulkCreate objs) db)) as [db2|e] eqn:I;
    simpl; [|lia].
  apply insert_all_keeps_records in I. simpl in I. lia.
Qed.

Lemma bulk_create_loop_keeps_records (o : options) (unsaved : list instance)
  (c : Z) (starts : list Z) :
  forall db,
  (List.length (db_rows db)
   <= List.length (db_rows (snd (bulk_create_loop o unsaved c starts db))))%nat.
Proof.
  induction starts as [|i rest IH]; simpl; intros db; [lia|].
  pose proof (bulk_create_keeps_records o (py_slice unsaved i (i + c)) db) as Hb.
  destruct (bulk_create o (py_slice unsaved i (i + c)) db) as [[u|e] db1];
    simpl in *; [|lia].
  specialize (IH db1). lia.
Qed.

Lemma process_rows_keeps_records (o : options) (update use_bulk_create : bool)
  (table_headers : row) (rs : list row) :
  forall st db,
  (List.length (db_rows db)
   <= List.length
        (db_rows (snd (process_rows o update use_bulk_create table_headers rs st db))))%nat.
Proof.
  induction rs as [|r rest IH]; simpl; intros st db; [lia|].
  assert (Hrow : (List.length (db_rows db)
                  <= List.length
                       (db_rows (snd (process_row o update use_bulk_create
                                        table_headers r st db))))%nat).
  { unfold process_row. destruct (matched update st _) as [obj|].
    - unfold update_existing.
      destruct (_will_model_change _ obj) as [[|]|e]; simpl; try lia.
      destruct (_apply_value_map _ obj) as [obj1|e]; simpl; try lia.
      pose proof (save_keeps_records obj1 db) as Hs.
      destruct (save obj1 db) as [[obj2|e] db2]; simpl in *; lia.
    - unfold create_new. destruct (new_model o _) as [obj|e]; simpl; try lia.
      destruct use_bulk_create; simpl; try lia.
      pose proof (save_keeps_records obj db) as Hs.
      destruct (save obj db) as [[obj2|e] db2]; simpl in *; lia. }
  destruct (process_row o update use_bulk_create table_headers r st db)
    as [[st1|e] db1]; simpl in *; [|lia].
  specialize (IH st1 db1). lia.
Qed.

(** X13. Whatever the table and the flags, and whether it returns or
    raises, [todjango] removes no record: the storage holds at least as many
    records after the call as before. *)
Theorem todjango_removes_no_record
  (settings : pydict Z) (t : table) (model : pyobj)
  (update create use_bulk_create : bool) (db : database) :
  (List.length (db_rows db)
   <= List.length
        (db_rows (snd (todjango settings t model update create use_bulk_create db))))%nat.
Proof.
  unfold todjango. destruct model as [c|ty q|v]; simpl; try lia.
  destruct (negb (issubclass c Model)); simpl; [lia|].
  destruct (iterator_next t) as [[table_headers rs]|e]; simpl; [|lia].
  destruct (class_meta c) as [o|]; simpl; [|lia].
  destruct (update && negb _); simpl; [lia|].
  pose proof (process_rows_keeps_records o update use_bulk_create table_headers rs
                (initial_state o update db) db) as Hloop.
  destruct (process_rows o update use_bulk_create table_headers rs _ db)
    as [[st|e] db1]; simpl in *; [|lia].
  destruct use_bulk_create; simpl; [|lia].
  assert (Hbulk : (List.length (db_rows db1)
                   <= List.length
                        (db_rows (snd (_chunked_bulk_create settings o
                                         (unsaved_models st) None db1))))%nat).
  { unfold _chunked_bulk_create.
    destruct (_get_setting settings _) as [c0|e]; simpl; [|lia].
    destruct (py_range 0 _ c0) as [starts|e]; simpl; [|lia].
    apply bulk_create_loop_keeps_records. }
  destruct (_chunked_bulk_create settings o (unsaved_models st) None db1)
    as [[u|e] db2]; simpl in *; lia.
Qed.

(** ** The storage after a run with [update] *)

Lemma todjango_stores_every_keyed_row_witness :
  let db1 := snd (todjango [] people_table (ClassObj Person) true true true person_db) in
  let value_map :=
    make_value_map (map VStr ["id"; "name"; "age"]) [VInt 2; VStr "Bob"; VInt 25] in
  (exists rec, In rec (db_rows db1) /\
               row_pk person_meta rec = row_pk_value person_meta value_map) /\
  (forall rec, In rec (db_rows db1) ->
               row_pk person_meta rec = row_pk_value person_meta value_map ->
               agrees rec value_map).
Proof.
  apply (todjango_stores_every_keyed_row person_meta eq_refl eq_refl eq_refl)
    with (settings := []) (t := people_table) (c := Person)
         (rs := [[VInt 1; VStr "Alice"; VInt 31]; [VInt 2; VStr "Bob"; VInt 25]])
         (create := true) (use_bulk_create := true) (db0 := person_db)
         (rep := {| updated := 1; created := 1 |}).
  - intros f [<-|[<-|[<-|[]]]] _; reflexivity.
  - intros h [<-|[<-|[<-|[]]]]; simpl; auto.
  - reflexivity.
  - reflexivity.
  - reflexivity.
  - reflexivity.
  - vm_compute.
    repeat (apply NoDup_cons; [simpl; intuition discriminate|]). apply NoDup_nil.
  - intros r [<-|[<-|[]]]; reflexivity.
  - split; [|split]; vm_compute.
    + repeat (apply NoDup_cons; [simpl; tauto|]). apply NoDup_nil.
    + intros [H|[]]. discriminate.
    + reflexivity.
  - intros _. reflexivity.
  - reflexivity.
  - simpl. auto.
  - vm_compute. discriminate.
Defined.

Lemma todjango_leaves_other_records_witness :
  In alice_row
     (db_rows (snd (todjango [] keyed_bob_table (ClassObj Person) true true true person_db))).
Proof.
  apply (todjango_leaves_other_records person_meta eq_refl eq_refl eq_refl)
    with (hs := ["id"; "name"; "age"]) (settings := []) (t := keyed_bob_table)
         (c := Person) (rs := [[VInt 2; VStr "Bob"; VInt 25]])
         (create := true) (use_bulk_create := true) (db0 := person_db)
         (rep := {| updated := 0; created := 1 |}).
  - intros f [<-|[<-|[<-|[]]]] _; reflexivity.
  - intros h [<-|[<-|[<-|[]]]]; simpl; auto.
  - reflexivity.
  - reflexivity.
  - reflexivity.
  - reflexivity.
  - vm_compute.
    repeat (apply NoDup_cons; [simpl; intuition discriminate|]). apply NoDup_nil.
  - intros r [<-|[]]; reflexivity.
  - split; [|split]; vm_compute.
    + repeat (apply NoDup_cons; [simpl; tauto|]). apply NoDup_nil.
    + intros [H|[]]. discriminate.
    + reflexivity.
  - reflexivity.
  - simpl. auto.
  - vm_compute. intros [H|[]]. discriminate.
Defined.

(** ** Reading, then writing *)

Lemma in_combine_maps {A B C} (f : A -> B) (g : A -> C) (l : list A) (k : B) (v : C) :
  In (k, v) (combine (map f l) (map g l)) -> exists x, In x l /\ k = f x /\ v = g x.
Proof.
  induction l as [|a l IH]; simpl; [tauto|].
  intros [H|H].
  - inversion H. exists a. auto.
  - destruct (IH H) as [x [Hx Heq]]. exists x. auto.
Qed.

Lemma combine_maps_keys {A B C} (f : A -> B) (g : A -> C) (l : list A) :
  map fst (combine (map f l) (map g l)) = map f l.
Proof. induction l as [|a l IH]; simpl; [reflexivity | now rewrite IH]. Qed.

Section ReadWrite.
Variable o : options.
Hypothesis Hwf : wf_options o = true.
Hypothesis Hattrs : wf_attributes o = true.
Hypothesis Hplain : without_relations o = true.

Lemma all_fields_plain : plain_field_names o = field_names o.
Proof.
  unfold plain_field_names, field_names, without_relations in *.
  induction (fields o) as [|f fs IH]; simpl in *; [reflexivity|].
  apply andb_prop in Hplain. destruct Hplain as [Hf Hfs].
  rewrite Hf. simpl. f_equal. now apply IH.
Qed.

Lemma row_of_record_entries (rec : pydict value) (k v : value) :
  In (k, v) (make_value_map (map VStr (field_names o)) (row_of o rec)) ->
  exists s, In s (field_names o) /\ k = VStr s /\ v = dict_get_or_none rec s.
Proof.
  unfold make_value_map, row_of. intros H.
  apply assoc_of_pairs_In in H. now apply in_combine_maps in H.
Qed.

Lemma row_of_record_key (rec : pydict value) :
  row_pk_value o (make_value_map (map VStr (field_names o)) (row_of o rec))
  = row_pk o rec.
Proof.
  unfold row_pk_value.
  destruct (assoc_get value_eqb _ (VStr (name (pk o)))) as [v|] eqn:G.
  - apply assoc_get_In, row_of_record_entries in G.
    destruct G as [s [_ [Heq ->]]]. inversion Heq. reflexivity.
  - exfalso. apply assoc_get_none_keys in G. apply G.
    unfold make_value_map, row_of. apply assoc_of_pairs_keys_all.
    rewrite combine_maps_keys. apply in_map. now apply pk_is_field.
Qed.

Lemma process_row_read_back (use_bulk_create : bool) (db db' : database)
  (st : loop_state) (rec : pydict value) :
  db_ok o db ->
  In rec (db_rows db) ->
  existing_model_map st = load_existing o db ->
  process_row o true use_bulk_create (map VStr (field_names o)) (row_of o rec) st db'
  = (Ok st, db').
Proof.
  intros [Hnd Hkeys] Hin HE. unfold process_row, matched.
  rewrite row_of_record_key, HE.
  destruct (assoc_get value_eqb (load_existing o db) (row_pk o rec)) as [obj|] eqn:G.
  - destruct (load_existing_get o Hattrs db _ obj G) as [rec' [Hin' [Hobj Hrec']]].
    assert (rec' = rec)
      by (apply (NoDup_map_inj_in (row_pk o) (db_rows db));
          [exact Hnd | assumption | assumption | assumption]).
    subst rec'. unfold update_existing.
    rewrite (will_model_change_holds o Hwf _ obj); [reflexivity | now subst obj | |].
    + intros k v Hkv. apply row_of_record_entries in Hkv.
      destruct Hkv as [s [Hs [Hk _]]]. exists s. rewrite all_fields_plain. auto.
    + intros k v Hkv. apply row_of_record_entries in Hkv.
      destruct Hkv as [s [Hs [Hk Hv]]]. exists s. split; [assumption|].
      subst obj v. rewrite <- all_fields_plain in Hs.
      destruct (plain_field o s Hs) as [f [Hf [Hname Hrel]]]. subst s.
      rewrite <- (plain_attname f Hrel) at 1.
      apply from_db_get; [|assumption].
      now apply attnames_nodup.
  - exfalso. apply assoc_get_none_keys in G. apply G.
    unfold load_existing. apply assoc_of_pairs_keys_all.
    rewrite map_map. simpl. unfold _get_django_objects, objects_all.
    rewrite map_map. apply in_map_iff. exists rec.
    split; [now apply pk_val_from_db | assumption].
Qed.

Lemma process_rows_read_back (use_bulk_create : bool) (db db' : database)
  (st : loop_state) (recs : list (pydict value)) :
  db_ok o db ->
  (forall rec, In rec recs -> In rec (db_rows db)) ->
  existing_model_map st = load_existing o db ->
  process_rows o true use_bulk_create (map VStr (field_names o))
               (map (row_of o) recs) st db'
  = (Ok st, db').
Proof.
  intros Hdb Hsub HE. induction recs as [|rec recs IH]; simpl; [reflexivity|].
  rewrite (process_row_read_back use_bulk_create db db' st rec Hdb
             (Hsub rec (or_introl eq_refl)) HE).
  apply IH. intros rec0 H0. apply Hsub. now right.
Qed.

(** X16. Round trip. Take a model without relations. Read all its records
    with [fromdjango] (all fields), and hand the rows it yields back to
    [todjango] with [update] set, over the same storage, through an iterator
    that has a [next] method: every row matches its instance and equals it,
    so nothing is saved or created, the storage is returned as it was and
    both counts are 0. *)
Theorem reading_then_writing_changes_nothing
  (settings : pydict Z) (c ty : pyclass) (create use_bulk_create : bool)
  (db : database) (view : DjangoView) (t : table) :
  issubclass c Model = true ->
  class_meta c = Some o ->
  db_ok o db ->
  fromdjango (ClassObj c) (QuerySetObj ty (all_objects o db)) None = Ok view ->
  has_next t = true ->
  t_rows t = yielded (DjangoView_iter view) ->
  (use_bulk_create = true -> effective_chunk_size settings None <> 0) ->
  todjango settings t (ClassObj c) true create use_bulk_create db
  = (Ok {| updated := 0; created := 0 |}, db).
Proof.
  intros Hsub Hmeta Hdb Hview Hnext Hrows Hsize.
  assert (Hyield : yielded (DjangoView_iter view)
                   = map VStr (field_names o) :: map (row_of o) (db_rows db)).
  { unfold fromdjango in Hview.
    destruct (negb (class_eqb _ QuerySet)); [discriminate|].
    rewrite Hsub in Hview. inversion Hview. subst view.
    unfold DjangoView_iter, _iter_django_model.
    cbn [view_model view_queryset view_fields]. unfold meta_of.
    cbn [class_meta]. rewrite Hmeta. cbn [bind].
    unfold _get_model_field_names, queryset_values_list. fold (field_names o).
    pose proof (values_list_all (all_objects o db) Hwf) as Hv.
    change (qs_model (all_objects o db)) with o in Hv. rewrite Hv. reflexivity. }
  rewrite Hyield in Hrows.
  rewrite (todjango_unfold settings t c o true create use_bulk_create db _ _
             Hsub Hmeta Hwf Hnext Hrows).
  rewrite (process_rows_read_back use_bulk_create db db (initial_state o true db)
             (db_rows db) Hdb (fun rec H => H) eq_refl).
  simpl. destruct use_bulk_create; [|reflexivity].
  unfold _chunked_bulk_create. rewrite _get_setting_chunk_size. simpl.
  rewrite py_range_nothing by (now apply Hsize). reflexivity.
Qed.

End ReadWrite.

Lemma reading_then_writing_changes_nothing_witness :
  todjango []
    {| has_next := true;
       t_rows := [[VStr "id"; VStr "name"; VStr "age"];
                  [VInt 1; VStr "Alice"; VInt 30]] |}
    (ClassObj Person) true true true person_db
  = (Ok {| updated := 0; created := 0 |}, person_db).
Proof.
  apply (reading_then_writing_changes_nothing person_meta eq_refl eq_refl eq_refl
           [] Person QuerySet
           true true person_db
           {| view_model := ClassObj Person;
              view_queryset := QuerySetObj QuerySet (all_objects person_meta person_db);
              view_fields := None |}).
  - reflexivity.
  - reflexivity.
  - split; [|split]; vm_compute.
    + repeat (apply NoDup_cons; [simpl; tauto|]). apply NoDup_nil.
    + intros [H|[]]. discriminate.
    + reflexivity.
  - reflexivity.
  - reflexivity.
  - reflexivity.
  - intros _. vm_compute. discriminate.
Defined.

(** With a relation among the fields the round trip stops at the first row:
    the column of the relation holds the key of the related record, the
    attribute of the instance is the related instance, so the row differs
    from the instance it matches, and [setattr] refuses the key. *)
Lemma reading_then_writing_relation_raises :
  yielded (DjangoView_iter
             {| view_model := ClassObj Book;
                view_queryset := QuerySetObj QuerySet (all_objects book_meta book_db);
                view_fields := None |})
  = [[VStr "id"; VStr "title"; VStr "author"];
     [VInt 1; VStr "Emma"; VInt 7]]
  /\ todjango []
       {| has_next := true;
          t_rows := [[VStr "id"; VStr "title"; VStr "author"];
                     [VInt 1; VStr "Emma"; VInt 7]] |}
       (ClassObj Book) true true false book_db
     = (Raise (mk_exn ValueError
                 "Cannot assign: must be an instance of library.Author"),
        book_db).
Proof. split; reflexivity. Qed.
